(** * TokenLink: alias-chain validation, colour conversion and repair passes

    A shallow embedding of the design-token scripts:
    - [validate_figma_aliases.py] (class [AliasValidator]),
    - [deep_alias_trace.py] ([build_variable_index], [trace_complete_chain]),
    - [fix_all_white_colors.py] ([oklch_to_rgb], [fix_all_white_colors]),
    - [fix_external_references.py] and [fix_external_references_v2.py].

    Python floats are IEEE-754 binary64 values, modelled by [spec_float]
    with the operations of [SpecFloat] at precision 53.  Python strings are
    modelled by [string]; the Unicode-aware classes of [re] and [str] are
    read on ASCII characters.  Dictionaries that the scripts iterate in
    insertion order are association lists; the id-keyed indexes are [gmap]s
    and the visited sets are [gset]s. *)

From Stdlib Require Import ZArith String Ascii List Bool Lia.
From Corelib Require Import SpecFloat.
From stdpp Require Import gmap strings list pretty.

Local Open Scope string_scope.
Local Open Scope list_scope.
Local Open Scope nat_scope.

(** ** Binary64 arithmetic *)

Module F64.

Definition float := spec_float.

Definition prec : Z := 53.
Definition emax : Z := 1024.

Definition add : float -> float -> float := SFadd prec emax.
Definition sub : float -> float -> float := SFsub prec emax.
Definition mul : float -> float -> float := SFmul prec emax.
Definition div : float -> float -> float := SFdiv prec emax.
Definition neg : float -> float := SFopp.
Definition eqb : float -> float -> bool := SFeqb.
Definition ltb : float -> float -> bool := SFltb.
Definition leb : float -> float -> bool := SFleb.

(** The float nearest to the integer [n] (what the literal [n.0] denotes). *)
Definition of_Z (n : Z) : float := binary_normalize prec emax n 0 false.

(** The float nearest to [(-1)^neg * m * 10^e10], for [m >= 0]: the value of
    a decimal numeral, correctly rounded (one rounding of an exact integer,
    or one correctly rounded division of two integers). *)
Definition of_decimal (neg : bool) (m : Z) (e10 : Z) : float :=
  match m with
  | Zpos p =>
      match e10 with
      | Zneg _ =>
          SFdiv prec emax (S754_finite neg p 0)
            (S754_finite false (Z.to_pos (10 ^ (- e10))) 0)
      | _ => binary_round prec emax neg (Z.to_pos (Zpos p * 10 ^ e10)) 0
      end
  | _ => S754_zero neg
  end.

(** The literal with decimal digits [m] of which [k] follow the point:
    [dec 1055 3] is [1.055]. *)
Definition dec (m : Z) (k : Z) : float := of_decimal false m (- k).

Definition zero : float := S754_zero false.
Definition one : float := of_Z 1.

Definition is_finite (x : float) : bool :=
  match x with
  | S754_zero _ | S754_finite _ _ _ => true
  | _ => false
  end.

(** [a / b] rounded to the nearest integer, ties to even ([a >= 0], [b > 0]). *)
Definition div_half_even (a b : Z) : Z :=
  let q := (a / b)%Z in
  match (2 * (a mod b) ?= b)%Z with
  | Lt => q
  | Gt => (q + 1)%Z
  | Eq => if Z.even q then q else (q + 1)%Z
  end.

(** [round(x, 4)]: the exact value of [x] is rounded half-even to four
    decimals and the decimal obtained is read back as a float; zeros,
    infinities and NaN are returned as they are. *)
Definition round4 (x : float) : float :=
  match x with
  | S754_finite s m e =>
      let n :=
        match e with
        | Zneg _ => div_half_even (Zpos m * 10000) (2 ^ (- e))
        | _ => (Zpos m * 2 ^ e * 10000)%Z
        end in
      of_decimal s n (-4)
  | _ => x
  end.

End F64.

(** ** Python string and dictionary primitives *)

Module Py.

(** [sub in s] on strings. *)
Fixpoint contains (sub s : string) : bool :=
  String.prefix sub s ||
  match s with
  | EmptyString => false
  | String _ s' => contains sub s'
  end.

(** [s.startswith(p)]. *)
Definition startswith (p s : string) : bool := String.prefix p s.

(** [sep.join(l)]. *)
Definition join (sep : string) (l : list string) : string := String.concat sep l.

(** [s.split(c)] for a one-character separator: never empty. *)
Fixpoint split_on (c : ascii) (s : string) : list string :=
  match s with
  | EmptyString => [EmptyString]
  | String x s' =>
      if Ascii.eqb x c then EmptyString :: split_on c s'
      else match split_on c s' with
           | [] => [String x EmptyString]
           | w :: ws => String x w :: ws
           end
  end.

(** [d.get(k)] on an insertion-ordered dictionary. *)
Fixpoint dict_get {A} (k : string) (d : list (string * A)) : option A :=
  match d with
  | [] => None
  | (k', v) :: d' => if String.eqb k k' then Some v else dict_get k d'
  end.

(** [d[k] = v]: an existing key keeps its position, a new key goes last. *)
Fixpoint dict_set {A} (k : string) (v : A) (d : list (string * A)) : list (string * A) :=
  match d with
  | [] => [(k, v)]
  | (k', v') :: d' =>
      if String.eqb k k' then (k, v) :: d' else (k', v') :: dict_set k v d'
  end.

(** [list(d.keys())]. *)
Definition keys {A} (d : list (string * A)) : list string := map fst d.

Definition is_space (c : ascii) : bool :=
  let n := nat_of_ascii c in
  (n =? 32) || ((9 <=? n) && (n <=? 13)) || ((28 <=? n) && (n <=? 31)).

Definition is_digit (c : ascii) : bool :=
  let n := nat_of_ascii c in (48 <=? n) && (n <=? 57).

Definition is_upper (c : ascii) : bool :=
  let n := nat_of_ascii c in (65 <=? n) && (n <=? 90).

Definition is_lower (c : ascii) : bool :=
  let n := nat_of_ascii c in (97 <=? n) && (n <=? 122).

(** The class [\w] of [re]. *)
Definition is_word (c : ascii) : bool :=
  is_upper c || is_lower c || is_digit c || Ascii.eqb c "_".

Definition lower_char (c : ascii) : ascii :=
  if is_upper c then ascii_of_nat (nat_of_ascii c + 32) else c.

(** [s.lower()]. *)
Fixpoint lower (s : string) : string :=
  match s with
  | EmptyString => EmptyString
  | String c s' => String (lower_char c) (lower s')
  end.

(** [s.split()]: the maximal runs of characters that are not whitespace. *)
Fixpoint split (s : string) : list string :=
  match s with
  | EmptyString => []
  | String c s' =>
      if is_space c then split s'
      else
        match s' with
        | EmptyString => [String c EmptyString]
        | String c' _ =>
            if is_space c' then String c EmptyString :: split s'
            else match split s' with
                 | w :: ws => String c w :: ws
                 | [] => [String c EmptyString]
                 end
        end
  end.

(** [s.rstrip(...)]: the trailing characters satisfying [p] are dropped. *)
Fixpoint rstrip_if (p : ascii -> bool) (s : string) : string :=
  match s with
  | EmptyString => EmptyString
  | String x s' =>
      match rstrip_if p s' with
      | EmptyString => if p x then EmptyString else String x EmptyString
      | rest => String x rest
      end
  end.

(** [s.rstrip(c)] for a one-character set. *)
Definition rstrip (c : ascii) (s : string) : string := rstrip_if (Ascii.eqb c) s.

(** The longest prefix of characters satisfying [p], and what follows it. *)
Fixpoint span (p : ascii -> bool) (s : string) : string * string :=
  match s with
  | EmptyString => (EmptyString, EmptyString)
  | String c s' =>
      if p c then let '(a, b) := span p s' in (String c a, b)
      else (EmptyString, s)
  end.

(** [s.strip()]. *)
Definition strip (s : string) : string :=
  rstrip_if is_space (snd (span is_space s)).

(** The value of a string of decimal digits. *)
Definition digits_value (ds : string) : Z :=
  fold_left (fun acc d => (10 * acc + (Z.of_nat (nat_of_ascii d) - 48))%Z)
            (list_ascii_of_string ds) 0%Z.

(** Underscores in a numeral: each one stands between two digits. *)
Fixpoint underscores_ok (prev_digit : bool) (s : string) : bool :=
  match s with
  | EmptyString => true
  | String c s' =>
      if Ascii.eqb c "_" then
        prev_digit
        && match s' with String d _ => is_digit d | EmptyString => false end
        && underscores_ok false s'
      else underscores_ok (is_digit c) s'
  end.

Fixpoint remove_underscores (s : string) : string :=
  match s with
  | EmptyString => EmptyString
  | String c s' =>
      if Ascii.eqb c "_" then remove_underscores s'
      else String c (remove_underscores s')
  end.

(** A leading sign: [true] for ["-"]. *)
Definition sign (s : string) : bool * string :=
  match s with
  | String "-" s' => (true, s')
  | String "+" s' => (false, s')
  | _ => (false, s)
  end.

(** What [float(s)] and [int(s)] do when they succeed or fail. *)
Inductive result (A : Type) :=
  | Ok (x : A)
  | ValueError.
Arguments Ok {A} x.
Arguments ValueError {A}.

(** [float(s)]: surrounding whitespace is ignored; then an optional sign
    and [inf], [infinity] or [nan] in any case, or digits with an optional
    fraction and an optional exponent. *)
Definition float_of_string (s : string) : result F64.float :=
  let s := strip s in
  if negb (underscores_ok false s) then ValueError
  else
    let '(neg, body) := sign (remove_underscores s) in
    let word := lower body in
    if String.eqb word "inf" || String.eqb word "infinity" then
      Ok (S754_infinity neg)
    else if String.eqb word "nan" then Ok S754_nan
    else
      let '(ip, r1) := span is_digit body in
      let '(fp, r2) :=
        match r1 with
        | String "." r => span is_digit r
        | _ => (EmptyString, r1)
        end in
      if String.eqb (ip +:+ fp) "" then ValueError
      else
        let m := digits_value (ip +:+ fp) in
        let scale := (- Z.of_nat (String.length fp))%Z in
        match r2 with
        | EmptyString => Ok (F64.of_decimal neg m scale)
        | String e r3 =>
            if Ascii.eqb e "e" || Ascii.eqb e "E" then
              let '(eneg, r4) := sign r3 in
              let '(ed, r5) := span is_digit r4 in
              if String.eqb ed "" || negb (String.eqb r5 "") then ValueError
              else
                let ex := digits_value ed in
                Ok (F64.of_decimal neg m
                      ((if eneg then - ex else ex) + scale)%Z)
            else ValueError
        end.

(** [sys.get_int_max_str_digits()] as CPython sets it by default. *)
Definition int_max_str_digits : N := 4300.

(** [int(s)]: surrounding whitespace is ignored; then an optional sign and
    decimal digits.  A numeral of more than [int_max_str_digits] digits
    (underscores and sign not counted) is a [ValueError] too. *)
Definition int_of_string (s : string) : result Z :=
  let s := strip s in
  if negb (underscores_ok false s) then ValueError
  else
    let '(neg, body) := sign (remove_underscores s) in
    let '(ds, rest) := span is_digit body in
    if String.eqb ds "" || negb (String.eqb rest "")
       || (int_max_str_digits <? N.of_nat (String.length ds))%N
    then ValueError
    else Ok (if neg then - digits_value ds else digits_value ds)%Z.

(** [f"{x:.3f}"]: the exact value of [x] rounded half-even to three
    decimals, in fixed notation; the sign is kept, also for zero. *)
Definition format_3f (x : F64.float) : string :=
  let fixed (neg : bool) (n : Z) : string :=
    let frac := pretty (Z.to_N (n mod 1000)) in
    (if neg then "-" else "")
    +:+ pretty (Z.to_N (n / 1000)) +:+ "."
    +:+ (if (String.length frac =? 1) then "00"
         else if (String.length frac =? 2) then "0" else "")
    +:+ frac in
  match x with
  | S754_nan => "nan"
  | S754_infinity s => if s then "-inf" else "inf"
  | S754_zero s => fixed s 0%Z
  | S754_finite s m e =>
      fixed s match e with
              | Zneg _ => F64.div_half_even (Zpos m * 1000) (2 ^ (- e))
              | _ => (Zpos m * 2 ^ e * 1000)%Z
              end
  end.

End Py.

Abbreviation float := F64.float.

(** ** The variables document (section 6 of the export format) *)

Record color := Color { c_r : float; c_g : float; c_b : float; c_a : float }.

(** A [valuesByMode] entry.  [Direct] is a dictionary carrying the key
    ['r']; [VariableAlias] is [{type: "VARIABLE_ALIAS", id}]; [Falsy] is a
    value Python treats as false ([null], [{}]); [OtherShape ty] is any
    other value, [ty] being what [type(value)] prints. *)
Inductive value :=
  | Direct (c : color)
  | VariableAlias (id : string)
  | Falsy
  | OtherShape (ty : string).

Record mode := Mode { modeId : string; m_name : string }.

Record variable := Variable_ {
  v_id : string;
  v_name : string;
  resolvedType : string;
  valuesByMode : list (string * value)
}.

Record collection := Collection {
  c_id : string;
  c_name : string;
  modes : list mode;
  variables : list variable
}.

Record document := Document { collections : list collection }.

(** ** validate_figma_aliases.py *)

Module AliasValidator.

(** [_build_lookups]: later entries overwrite earlier ones. *)
Definition build_lookups (data : document)
  : gmap string variable * gmap string collection :=
  foldl (fun '(vars, colls) coll =>
           (foldl (fun vars v => <[v_id v := v]> vars) vars (variables coll),
            <[c_id coll := coll]> colls))
        (∅, ∅) (collections data).

Definition variables_by_id (data : document) : gmap string variable :=
  fst (build_lookups data).

(** What [resolve_alias_chain] returns: [(success, final_value, chain_path)]. *)
Definition chain_result : Type := bool * option color * list string.

(** [resolve_alias_chain].  The Python function adds to the set object it
    is given, so the set as the call leaves it is returned next to the
    result ([visited=None] starts from the empty set).  [fuel] bounds the
    recursion depth; [None] means the bound was reached. *)
Fixpoint resolve_alias_chain (fuel : nat) (idx : gmap string variable)
    (variable_id mode_id : string) (visited : gset string)
  : option (chain_result * gset string) :=
  match fuel with
  | O => None
  | S fuel' =>
      if decide (variable_id ∈ visited) then
        Some ((false, None, ["CIRCULAR: " +:+ variable_id]), visited)
      else
        let visited := {[variable_id]} ∪ visited in
        match idx !! variable_id with
        | None => Some ((false, None, ["NOT_FOUND: " +:+ variable_id]), visited)
        | Some var =>
            let chain_path := [v_name var] in
            match Py.dict_get mode_id (valuesByMode var) with
            | None | Some Falsy =>
                Some ((false, None,
                       chain_path ++ ["NO_VALUE_FOR_MODE: " +:+ mode_id]), visited)
            | Some (Direct c) => Some ((true, Some c, chain_path), visited)
            | Some (VariableAlias alias_id) =>
                if Py.contains "/" alias_id then
                  Some ((false, None,
                         chain_path ++ ["EXTERNAL_REF: " +:+ alias_id]), visited)
                else
                  match resolve_alias_chain fuel' idx alias_id mode_id visited with
                  | None => None
                  | Some ((success, final_value, sub_chain), visited') =>
                      Some ((success, final_value, chain_path ++ sub_chain), visited')
                  end
            | Some (OtherShape ty) =>
                Some ((false, None,
                       chain_path ++ ["UNKNOWN_VALUE_TYPE: " +:+ ty]), visited)
            end
        end
  end.

(** A call with the default [visited=None]; one step per indexed variable
    plus the closing one is always enough (see [resolve_fuel_enough]). *)
Definition resolve (idx : gmap string variable) (variable_id mode_id : string)
  : chain_result :=
  match resolve_alias_chain (S (size idx)) idx variable_id mode_id ∅ with
  | Some (res, _) => res
  | None => (false, None, [])
  end.

(** The recursion is one Python call per alias link and the code sets no
    depth limit of its own, so a call can also end in the interpreter's
    [RecursionError].  [resolve_within frames] is a call with the default
    [visited] made when the interpreter has [frames] frames to spare. *)
Inductive outcome :=
  | Returned (res : chain_result)
  | RecursionError.

Definition resolve_within (frames : nat) (idx : gmap string variable)
    (variable_id mode_id : string) : outcome :=
  match resolve_alias_chain frames idx variable_id mode_id ∅ with
  | Some (res, _) => Returned res
  | None => RecursionError
  end.

(** [sys.getrecursionlimit()] as CPython sets it by default. *)
Definition recursion_limit : nat := 1000.

Record report := Report {
  collection_name : string;
  total_variables : nat;
  valid_chains : nat;
  broken_chains : nat;
  circular_refs : nat;
  external_refs : nat;
  white_colors : nat;
  proper_colors : nat;
  broken_examples : list (string * string);
  error : option string
}.

Definition empty_report (name : string) : report :=
  Report name 0 0 0 0 0 0 0 [] None.

Definition is_white (c : color) : bool :=
  F64.eqb (c_r c) F64.one && F64.eqb (c_g c) F64.one && F64.eqb (c_b c) F64.one.

(** [results[key] += 1], one function per counter. *)
Definition incr_total (x : report) : report :=
  Report (collection_name x) (S (total_variables x)) (valid_chains x)
    (broken_chains x) (circular_refs x) (external_refs x) (white_colors x)
    (proper_colors x) (broken_examples x) (error x).

Definition incr_valid (x : report) : report :=
  Report (collection_name x) (total_variables x) (S (valid_chains x))
    (broken_chains x) (circular_refs x) (external_refs x) (white_colors x)
    (proper_colors x) (broken_examples x) (error x).

Definition incr_broken (x : report) : report :=
  Report (collection_name x) (total_variables x) (valid_chains x)
    (S (broken_chains x)) (circular_refs x) (external_refs x) (white_colors x)
    (proper_colors x) (broken_examples x) (error x).

Definition incr_circular (x : report) : report :=
  Report (collection_name x) (total_variables x) (valid_chains x)
    (broken_chains x) (S (circular_refs x)) (external_refs x) (white_colors x)
    (proper_colors x) (broken_examples x) (error x).

Definition incr_external (x : report) : report :=
  Report (collection_name x) (total_variables x) (valid_chains x)
    (broken_chains x) (circular_refs x) (S (external_refs x)) (white_colors x)
    (proper_colors x) (broken_examples x) (error x).

Definition incr_white (x : report) : report :=
  Report (collection_name x) (total_variables x) (valid_chains x)
    (broken_chains x) (circular_refs x) (external_refs x) (S (white_colors x))
    (proper_colors x) (broken_examples x) (error x).

Definition incr_proper (x : report) : report :=
  Report (collection_name x) (total_variables x) (valid_chains x)
    (broken_chains x) (circular_refs x) (external_refs x) (white_colors x)
    (S (proper_colors x)) (broken_examples x) (error x).

Definition add_example (ex : string * string) (x : report) : report :=
  Report (collection_name x) (total_variables x) (valid_chains x)
    (broken_chains x) (circular_refs x) (external_refs x) (white_colors x)
    (proper_colors x) (broken_examples x ++ [ex]) (error x).

(** The body of the loop over the collection's variables. *)
Definition validate_variable (idx : gmap string variable) (mode_id : string)
    (results : report) (var : variable) : report :=
  let results := incr_total results in
  match resolve idx (v_id var) mode_id with
  | (true, final_value, _) =>
      let results := incr_valid results in
      match final_value with
      | Some c => if is_white c then incr_white results else incr_proper results
      | None => results
      end
  | (false, _, chain_path) =>
      let results := incr_broken results in
      let results :=
        if existsb (Py.contains "CIRCULAR") chain_path then incr_circular results
        else if existsb (Py.contains "EXTERNAL_REF") chain_path
             then incr_external results
             else results in
      if (length (broken_examples results) <? 5)%nat then
        add_example (v_name var, Py.join " -> " chain_path) results
      else results
  end.

Definition with_error (results : report) (msg : string) : report :=
  Report (collection_name results) (total_variables results)
    (valid_chains results) (broken_chains results) (circular_refs results)
    (external_refs results) (white_colors results) (proper_colors results)
    (broken_examples results) (Some msg).

(** [validate_collection]: only the first declared mode is checked. *)
Definition validate_collection (data : document) (name : string) : report :=
  let results := empty_report name in
  match find (fun coll => String.eqb (c_name coll) name) (collections data) with
  | None => with_error results "Collection not found"
  | Some coll =>
      match modes coll with
      | [] => with_error results "No modes found"
      | m0 :: _ =>
          foldl (validate_variable (variables_by_id data) (modeId m0))
                results (variables coll)
      end
  end.

Definition critical_collections : list string :=
  ["1 Appearance"; "2 Fill emphasis"; "3 Background Level";
   "4 Interaction state"; "9 Theme"; "10 Brand"].

Definition validate_all_critical_collections (data : document)
  : list (string * report) :=
  map (fun name => (name, validate_collection data name)) critical_collections.

End AliasValidator.

(** ** deep_alias_trace.py *)

Module DeepTrace.

(** An entry of [var_index]: [{**var, collection_name, collection_id, modes}]. *)
Record indexed_variable := IndexedVariable {
  iv_var : variable;
  iv_collection_name : string;
  iv_collection_id : string;
  iv_modes : list mode
}.

Definition build_variable_index (data : document)
  : gmap string indexed_variable * gmap string collection :=
  foldl (fun '(var_index, collection_index) coll =>
           (foldl (fun var_index var =>
                     <[v_id var :=
                         IndexedVariable var (c_name coll) (c_id coll) (modes coll)]>
                       var_index)
                  var_index (variables coll),
            <[c_id coll := coll]> collection_index))
        (∅, ∅) (collections data).

(** [get_mode_id_for_collection]. *)
Definition get_mode_id_for_collection (coll : collection) (mode_name : string)
  : option string :=
  modeId <$> find (fun m => String.eqb (m_name m) mode_name) (modes coll).

(** What a link records for one mode name: [{type: 'alias', target_id,
    target_name}] or [{type: 'color', rgba}]. *)
Inductive link_value :=
  | LinkAlias (target_id target_name : string)
  | LinkColor (rgba : string).

(** The text ["rgba(r, g, b, a)"] with three decimals per channel. *)
Definition rgba_text (c : color) : string :=
  "rgba(" +:+ Py.format_3f (c_r c) +:+ ", " +:+ Py.format_3f (c_g c)
  +:+ ", " +:+ Py.format_3f (c_b c) +:+ ", " +:+ Py.format_3f (c_a c) +:+ ")".

(** One element of the list [trace_complete_chain] returns. *)
Record link := Link {
  l_id : string;
  l_name : string;
  l_collection : string;
  l_collection_id : string;
  l_type : string;
  l_values : list (string * link_value)
}.

(** The body of the loop over the variable's modes.  [acc] holds
    [chain[0]['values']] and the part of [chain] after its head; [trace] is
    the recursive call on an alias target. *)
Definition trace_mode (trace : string -> option (list link))
    (var_index : gmap string indexed_variable) (values : list (string * value))
    (acc : option (list (string * link_value) * list link)) (m : mode)
  : option (list (string * link_value) * list link) :=
  match acc with
  | None => None
  | Some (vals, tail) =>
      match Py.dict_get (modeId m) values with
      | Some (VariableAlias aliased_id) =>
          let target_name :=
            match var_index !! aliased_id with
            | Some t => v_name (iv_var t)
            | None => "Unknown"
            end in
          match trace aliased_id with
          | None => None
          | Some sub_chain =>
              Some (Py.dict_set (m_name m) (LinkAlias aliased_id target_name) vals,
                    tail ++ sub_chain)
          end
      | Some (Direct c) =>
          Some (Py.dict_set (m_name m) (LinkColor (rgba_text c)) vals, tail)
      | _ => Some (vals, tail)
      end
  end.

(** [trace_complete_chain].  Each recursive call is handed
    [visited.copy()]: what it adds is invisible to the caller, so the set is
    passed by value and every mode of the loop starts from the same
    [visited].  [fuel] bounds the recursion depth. *)
Fixpoint trace_complete_chain (fuel : nat) (var_id : string)
    (var_index : gmap string indexed_variable) (visited : gset string)
  : option (list link) :=
  match fuel with
  | O => None
  | S fuel' =>
      if decide (var_id ∈ visited) then Some []
      else
        match var_index !! var_id with
        | None => Some []
        | Some var =>
            let visited := {[var_id]} ∪ visited in
            match foldl (trace_mode
                           (fun t => trace_complete_chain fuel' t var_index visited)
                           var_index (valuesByMode (iv_var var)))
                        (Some ([], [])) (iv_modes var) with
            | None => None
            | Some (vals, tail) =>
                Some (Link var_id (v_name (iv_var var)) (iv_collection_name var)
                        (iv_collection_id var) (resolvedType (iv_var var)) vals
                      :: tail)
            end
        end
  end.

End DeepTrace.

(** ** fix_all_white_colors.py: colour conversion *)

Module Oklch.
Import Py.

(** [re.match(r'oklch\(([^)]+)\)', s)]: group 1, when the match succeeds. *)
Fixpoint until_close (s : string) : option (string * string) :=
  match s with
  | EmptyString => None
  | String c s' =>
      if Ascii.eqb c ")" then Some (EmptyString, s')
      else match until_close s' with
           | Some (a, b) => Some (String c a, b)
           | None => None
           end
  end.

Definition match_oklch (s : string) : option string :=
  if String.prefix "oklch(" s then
    match until_close (String.substring 6 (String.length s - 6) s) with
    | Some (String c inner, _) => Some (String c inner)
    | _ => None
    end
  else None.

(** [min(a, b)] and [max(a, b)] of Python: the first argument is kept
    unless the second is strictly smaller (larger). *)
Definition py_min (a b : float) : float := if F64.ltb b a then b else a.
Definition py_max (a b : float) : float := if F64.ltb a b then b else a.

Definition pi : float := F64.dec 3141592653589793 15.

Section Libm.

(** The C library's [cos], [sin] and [pow] on binary64. *)
Variables libm_cos libm_sin : float -> float.
Variable libm_pow : float -> float -> float.

(** [math.cos] and [math.sin]: an infinite argument is a domain error. *)
Definition math_cos (x : float) : result float :=
  match x with
  | S754_infinity _ => ValueError
  | S754_nan => Ok S754_nan
  | _ => Ok (libm_cos x)
  end.

Definition math_sin (x : float) : result float :=
  match x with
  | S754_infinity _ => ValueError
  | S754_nan => Ok S754_nan
  | _ => Ok (libm_sin x)
  end.

(** [x ** y] where [linear_to_srgb] uses it ([0 < x <= 1], [y = 1/2.4]):
    Python answers [1.0] for the base [1.0] and asks the C library
    otherwise. *)
Definition py_pow (x y : float) : float :=
  if F64.eqb x F64.one then F64.one else libm_pow x y.

Definition linear_to_srgb (val : float) : float :=
  let val := py_max F64.zero (py_min F64.one val) in
  if F64.leb val (F64.dec 31308 7) then F64.mul val (F64.dec 1292 2)
  else F64.sub
         (F64.mul (F64.dec 1055 3)
                  (py_pow val (F64.div F64.one (F64.dec 24 1))))
         (F64.dec 55 3).

(** OKLab to gamma-encoded sRGB (the lines after the polar conversion). *)
Definition oklab_to_rgb (L a b : float) : float * float * float :=
  let l_ := F64.add (F64.add L (F64.mul (F64.dec 3963377774 10) a))
                    (F64.mul (F64.dec 2158037573 10) b) in
  let m_ := F64.sub (F64.sub L (F64.mul (F64.dec 1055613458 10) a))
                    (F64.mul (F64.dec 638541728 10) b) in
  let s_ := F64.sub (F64.sub L (F64.mul (F64.dec 894841775 10) a))
                    (F64.mul (F64.dec 12914855480 10) b) in
  let l := F64.mul (F64.mul l_ l_) l_ in
  let m := F64.mul (F64.mul m_ m_) m_ in
  let s := F64.mul (F64.mul s_ s_) s_ in
  let r_lin := F64.add (F64.sub (F64.mul (F64.dec 40767416621 10) l)
                                (F64.mul (F64.dec 33077115913 10) m))
                       (F64.mul (F64.dec 2309699292 10) s) in
  let g_lin := F64.sub (F64.add (F64.mul (F64.neg (F64.dec 12684380046 10)) l)
                                (F64.mul (F64.dec 26097574011 10) m))
                       (F64.mul (F64.dec 3413193965 10) s) in
  let b_lin := F64.add (F64.sub (F64.mul (F64.neg (F64.dec 41960863 10)) l)
                                (F64.mul (F64.dec 7034186147 10) m))
                       (F64.mul (F64.dec 17076147010 10) s) in
  (linear_to_srgb r_lin, linear_to_srgb g_lin, linear_to_srgb b_lin).

(** The conversion once the three parameters are floats: [L] already
    divided by 100, [H] already in radians. *)
Definition oklch_components_to_rgb (L C H : float)
  : result (float * float * float) :=
  match math_cos H with
  | ValueError => ValueError
  | Ok cosH =>
      match math_sin H with
      | ValueError => ValueError
      | Ok sinH => Ok (oklab_to_rgb L (F64.mul C cosH) (F64.mul C sinH))
      end
  end.

(** The conversion from lightness in [0, 1], chroma and hue in degrees:
    [H = float(parts[2]) * math.pi / 180] and what follows it. *)
Definition convert (L C H_degrees : float) : result (float * float * float) :=
  oklch_components_to_rgb L C
    (F64.div (F64.mul H_degrees pi) (F64.of_Z 180)).

(** [oklch_to_rgb]. *)
Definition oklch_to_rgb (oklch_string : string)
  : result (float * float * float) :=
  match match_oklch oklch_string with
  | None => Ok (F64.zero, F64.zero, F64.zero)
  | Some group1 =>
      match split group1 with
      | p0 :: p1 :: p2 :: _ =>
          match float_of_string (rstrip "%" p0) with
          | ValueError => ValueError
          | Ok l100 =>
              match float_of_string p1 with
              | ValueError => ValueError
              | Ok C =>
                  match float_of_string p2 with
                  | ValueError => ValueError
                  | Ok h => convert (F64.div l100 (F64.of_Z 100)) C h
                  end
              end
          end
      | _ => Ok (F64.zero, F64.zero, F64.zero)
      end
  end.

(** [convert_palette_to_rgb]: the ['base'] entry is skipped; an exception
    of [oklch_to_rgb] is not caught. *)
Definition convert_palette_to_rgb (palette : list (string * string))
  : result (list (string * (float * float * float))) :=
  foldl (fun acc '(step, oklch_value) =>
           match acc with
           | ValueError => ValueError
           | Ok rgb_palette =>
               if String.eqb step "base" then Ok rgb_palette
               else match oklch_to_rgb oklch_value with
                    | ValueError => ValueError
                    | Ok rgb => Ok (dict_set step rgb rgb_palette)
                    end
           end)
        (Ok []) palette.

End Libm.

End Oklch.

(** ** The repair passes *)

(** A [for] loop that updates the elements of a list in place and threads
    a state (the counters) through the iterations. *)
Fixpoint for_each {A S : Type} (body : S -> A -> S * A) (st : S) (l : list A)
  : S * list A :=
  match l with
  | [] => (st, [])
  | x :: l' =>
      let '(st1, x') := body st x in
      let '(st2, l'') := for_each body st1 l' in
      (st2, x' :: l'')
  end.

(** The first element satisfying [p] is replaced by [y] (the object found
    by a search loop that breaks is the one mutated). *)
Fixpoint replace_first {A : Type} (p : A -> bool) (y : A) (l : list A) : list A :=
  match l with
  | [] => []
  | x :: l' => if p x then y :: l' else x :: replace_first p y l'
  end.

Definition rgb : Type := float * float * float.

(** *** fix_all_white_colors.py *)

Module FixWhite.
Import Py.

(** The two [re.match] patterns ["^(\w+)/(\d+)/"] and ["^(\w+)/(\d+)\s"];
    [last] recognises the character that closes the pattern. *)
Definition match_family_step (last : ascii -> bool) (var_name : string)
  : option (string * string) :=
  let '(w, r1) := span is_word var_name in
  if String.eqb w "" then None
  else
    match r1 with
    | String "/" r2 =>
        let '(d, r3) := span is_digit r2 in
        if String.eqb d "" then None
        else match r3 with
             | String c _ => if last c then Some (lower w, d) else None
             | EmptyString => None
             end
    | _ => None
    end.

(** [re.search(r'/(\d{3,4})/', s)]: group 1 of the leftmost match. *)
Fixpoint search_step (s : string) : option string :=
  match s with
  | EmptyString => None
  | String c s' =>
      if Ascii.eqb c "/" then
        let '(d, r) := span is_digit s' in
        if ((String.length d =? 3) || (String.length d =? 4))
           && String.prefix "/" r
        then Some d else search_step s'
      else search_step s'
  end.

Definition known_palettes : list string :=
  ["grey"; "indigo"; "gold"; "saffron"; "green"; "red"; "blue"].

(** [extract_color_info_from_name]: [(palette_name, step)]. *)
Definition extract_color_info_from_name (var_name : string)
  : option string * option string :=
  match match_family_step (Ascii.eqb "/") var_name with
  | Some (palette_name, step) => (Some palette_name, Some step)
  | None =>
      match match_family_step is_space var_name with
      | Some (palette_name, step) => (Some palette_name, Some step)
      | None =>
          match find (fun palette => startswith (palette +:+ "/") (lower var_name))
                     known_palettes with
          | Some palette => (Some palette, search_step var_name)
          | None => (None, None)
          end
      end
  end.

Definition is_white (c : color) : bool :=
  F64.eqb (c_r c) F64.one && F64.eqb (c_g c) F64.one && F64.eqb (c_b c) F64.one.

Definition truthy (s : option string) : bool :=
  match s with
  | Some s => negb (String.eqb s "")
  | None => false
  end.

(** The colour the palettes hold for a parsed name, when the three tests
    [palette_name and step and palette_name in rangde_palettes_rgb] and
    [step in palette] pass. *)
Definition palette_color (rangde_palettes_rgb : list (string * list (string * rgb)))
    (info : option string * option string) : option rgb :=
  match info with
  | (Some palette_name, Some step) =>
      if truthy (Some palette_name) && truthy (Some step) then
        match dict_get palette_name rangde_palettes_rgb with
        | Some palette => dict_get step palette
        | None => None
        end
      else None
  | _ => None
  end.

(** The body of the loop over [values_by_mode.items()]. *)
Definition fix_mode_value (found : option rgb) (fixed_count : nat)
    (entry : string * value) : nat * (string * value) :=
  let '(mode_id, mode_value) := entry in
  match mode_value with
  | Direct c =>
      if is_white c then
        match found with
        | Some (r, g, b) =>
            (S fixed_count,
             (mode_id,
              Direct (Color (F64.round4 r) (F64.round4 g) (F64.round4 b) (c_a c))))
        | None => (fixed_count, entry)
        end
      else (fixed_count, entry)
  | _ => (fixed_count, entry)
  end.

Definition fix_variable (rangde_palettes_rgb : list (string * list (string * rgb)))
    (fixed_count : nat) (var : variable) : nat * variable :=
  let found :=
    palette_color rangde_palettes_rgb (extract_color_info_from_name (v_name var)) in
  let '(fixed_count, values_by_mode) :=
    for_each (fix_mode_value found) fixed_count (valuesByMode var) in
  (fixed_count,
   Variable_ (v_id var) (v_name var) (resolvedType var) values_by_mode).

Definition fix_collection (rangde_palettes_rgb : list (string * list (string * rgb)))
    (fixed_count : nat) (coll : collection) : nat * collection :=
  let '(fixed_count, vars) :=
    for_each (fix_variable rangde_palettes_rgb) fixed_count (variables coll) in
  (fixed_count, Collection (c_id coll) (c_name coll) (modes coll) vars).

(** [fix_all_white_colors]: the document as the call leaves it, and the
    count it returns. *)
Definition fix_all_white_colors (data : document)
    (rangde_palettes_rgb : list (string * list (string * rgb)))
  : document * nat :=
  let '(fixed_count, colls) :=
    for_each (fix_collection rangde_palettes_rgb) 0 (collections data) in
  (Document colls, fixed_count).

End FixWhite.

(** *** fix_external_references.py *)

Module FixExternal.
Import Py.

Definition WEIGHT_ALPHA_MAP : list (string * float) :=
  [("Surface", F64.dec 8 2); ("Minimal", F64.dec 15 2); ("Low", F64.dec 55 2);
   ("Medium", F64.dec 77 2); ("High", F64.dec 87 2); ("Heavy", F64.dec 93 2);
   ("Bold", F64.dec 92 2); ("Bold A11Y", F64.one)].

Definition GREY_RGB : rgb := (F64.one, F64.one, F64.one).

Definition semi_semantics : string := "00_Semi semantics".

Definition is_semi_semantics (coll : collection) : bool :=
  String.eqb (c_name coll) semi_semantics.

(** The first direct colour of a variable, in the order of its modes. *)
Definition first_direct (values : list (string * value)) : option rgb :=
  match find (fun '(_, value_data) =>
                match value_data with Direct _ => true | _ => false end) values with
  | Some (_, Direct c) => Some (c_r c, c_g c, c_b c)
  | _ => None
  end.

(** [extract_rgb_values_from_working_vars]. *)
Definition extract_rgb_values_from_working_vars (coll : collection)
  : list (string * rgb) :=
  foldl (fun rgb_by_color_value var =>
           let name := v_name var in
           match split_on "/" name with
           | color :: value_level :: _ =>
               if contains "[Semi semantics]" name then
                 match first_direct (valuesByMode var) with
                 | Some c =>
                     dict_set (color +:+ "/" +:+ value_level) c rgb_by_color_value
                 | None => rgb_by_color_value
                 end
               else rgb_by_color_value
           | _ => rgb_by_color_value
           end)
        [] (variables coll).

(** [get_rgb_for_variable]. *)
Definition get_rgb_for_variable (var_name : string)
    (rgb_by_color_value : list (string * rgb)) : option rgb :=
  match split_on "/" var_name with
  | color :: value_level :: _ =>
      match dict_get (color +:+ "/" +:+ value_level) rgb_by_color_value with
      | Some c => Some c
      | None => Some GREY_RGB
      end
  | _ => None
  end.

(** [get_alpha_for_weight]: exact key, then the first key contained in the
    weight, then ['Medium']. *)
Definition get_alpha_for_weight (weight : string) : float :=
  match dict_get weight WEIGHT_ALPHA_MAP with
  | Some alpha => alpha
  | None =>
      match find (fun '(key, _) => contains key weight) WEIGHT_ALPHA_MAP with
      | Some (_, alpha) => alpha
      | None => F64.dec 77 2
      end
  end.

(** The loop that sets [has_external]. *)
Definition has_external (values : list (string * value)) : bool :=
  existsb (fun '(_, v) =>
             match v with
             | VariableAlias id => contains "/" id
             | _ => false
             end) values.

Record stats := Stats {
  total_variables : nat;
  fixed_variables : nat;
  already_ok : nat;
  errors : nat
}.

(** Every mode of the variable receives the same direct colour. *)
Definition overwrite_all_modes (c : color) (var : variable) : variable :=
  Variable_ (v_id var) (v_name var) (resolvedType var)
    (map (fun '(mode_id, _) => (mode_id, Direct c)) (valuesByMode var)).

(** The body of the loop over the collection's variables. *)
Definition fix_variable (rgb_by_color_value : list (string * rgb))
    (st : stats) (var : variable) : stats * variable :=
  let st := Stats (S (total_variables st)) (fixed_variables st)
                  (already_ok st) (errors st) in
  let var_name := v_name var in
  let ok := (Stats (total_variables st) (fixed_variables st)
                   (S (already_ok st)) (errors st), var) in
  let err := (Stats (total_variables st) (fixed_variables st)
                    (already_ok st) (S (errors st)), var) in
  if contains "[Semi semantics]" var_name then ok
  else if negb (has_external (valuesByMode var)) then ok
  else
    match split_on "/" var_name with
    | _ :: _ :: weight :: _ =>
        match get_rgb_for_variable var_name rgb_by_color_value with
        | None => err
        | Some (r, g, b) =>
            let alpha := get_alpha_for_weight weight in
            (Stats (total_variables st) (S (fixed_variables st))
                   (already_ok st) (errors st),
             overwrite_all_modes (Color r g b alpha) var)
        end
    | _ => err
    end.

(** [fix_external_references]: the document as the call leaves it, and the
    statistics it returns. *)
Definition fix_external_references (data : document) : document * stats :=
  match find is_semi_semantics (collections data) with
  | None => (data, Stats 0 0 0 0)
  | Some semi_semantics_coll =>
      let rgb_by_color_value :=
        extract_rgb_values_from_working_vars semi_semantics_coll in
      let '(st, vars) :=
        for_each (fix_variable rgb_by_color_value) (Stats 0 0 0 0)
                 (variables semi_semantics_coll) in
      (Document
         (replace_first is_semi_semantics
            (Collection (c_id semi_semantics_coll) (c_name semi_semantics_coll)
                        (modes semi_semantics_coll) vars)
            (collections data)),
       st)
  end.

End FixExternal.

(** *** fix_external_references_v2.py *)

Module FixExternalV2.
Import Py.

Definition WEIGHT_ALPHA_MAP : list (string * float) := FixExternal.WEIGHT_ALPHA_MAP.

Definition COLOR_RGB_MAP : list (string * rgb) :=
  [("Grey", (F64.one, F64.one, F64.one));
   ("Indigo", (F64.dec 40 3, F64.dec 0 3, F64.dec 200 3));
   ("Saffron", (F64.dec 110 3, F64.dec 20 3, F64.dec 0 3));
   ("Green", (F64.dec 0 3, F64.dec 70 3, F64.dec 20 3));
   ("Gold", (F64.dec 60 3, F64.dec 50 3, F64.dec 40 3));
   ("Cabbage", (F64.dec 60 3, F64.dec 50 3, F64.dec 40 3));
   ("Orange", (F64.dec 100 3, F64.dec 30 3, F64.dec 0 3));
   ("Informative", (F64.dec 0 3, F64.dec 50 3, F64.dec 120 3));
   ("Negative", (F64.dec 130 3, F64.dec 0 3, F64.dec 10 3));
   ("Positive", (F64.dec 30 3, F64.dec 60 3, F64.dec 30 3));
   ("Warning", (F64.dec 110 3, F64.dec 20 3, F64.dec 0 3));
   ("Purple [700]", (F64.dec 60 3, F64.dec 50 3, F64.dec 40 3));
   ("Sky [1200]", (F64.dec 0 3, F64.dec 60 3, F64.dec 100 3));
   ("Sky [1000]", (F64.dec 0 3, F64.dec 60 3, F64.dec 100 3))].

Definition grey : rgb := (F64.one, F64.one, F64.one).

(** [get_rgb_for_color]: exact key, then the first key the name starts
    with, then ['Grey']. *)
Definition get_rgb_for_color (color_name : string) : rgb :=
  match dict_get color_name COLOR_RGB_MAP with
  | Some c => c
  | None =>
      match find (fun '(key, _) => startswith key color_name) COLOR_RGB_MAP with
      | Some (_, c) => c
      | None => grey
      end
  end.

Definition get_alpha_for_weight (weight : string) : float :=
  FixExternal.get_alpha_for_weight weight.

Record stats := Stats {
  total_variables : nat;
  fixed_variables : nat;
  already_ok : nat;
  external_refs_found : nat;
  errors : nat
}.

(** The body of the loop over the collection's variables. *)
Definition fix_variable (st : stats) (var : variable) : stats * variable :=
  let st := Stats (S (total_variables st)) (fixed_variables st)
                  (already_ok st) (external_refs_found st) (errors st) in
  let var_name := v_name var in
  if contains "[Semi semantics]" var_name then
    (Stats (total_variables st) (fixed_variables st) (S (already_ok st))
           (external_refs_found st) (errors st), var)
  else if negb (FixExternal.has_external (valuesByMode var)) then
    (Stats (total_variables st) (fixed_variables st) (S (already_ok st))
           (external_refs_found st) (errors st), var)
  else
    let st := Stats (total_variables st) (fixed_variables st) (already_ok st)
                    (S (external_refs_found st)) (errors st) in
    match split_on "/" var_name with
    | color_name :: value_level :: weight :: _ =>
        let alpha := get_alpha_for_weight weight in
        let '(r, g, b) :=
          match int_of_string value_level with
          | Ok value_num =>
              if (2100 <=? value_num)%Z then grey else get_rgb_for_color color_name
          | ValueError => get_rgb_for_color color_name
          end in
        (Stats (total_variables st) (S (fixed_variables st)) (already_ok st)
               (external_refs_found st) (errors st),
         FixExternal.overwrite_all_modes (Color r g b alpha) var)
    | _ =>
        (Stats (total_variables st) (fixed_variables st) (already_ok st)
               (external_refs_found st) (S (errors st)), var)
    end.

(** [fix_external_references] of version 2. *)
Definition fix_external_references (data : document) : document * stats :=
  match find FixExternal.is_semi_semantics (collections data) with
  | None => (data, Stats 0 0 0 0 0)
  | Some semi_semantics_coll =>
      let '(st, vars) :=
        for_each fix_variable (Stats 0 0 0 0 0) (variables semi_semantics_coll) in
      (Document
         (replace_first FixExternal.is_semi_semantics
            (Collection (c_id semi_semantics_coll) (c_name semi_semantics_coll)
                        (modes semi_semantics_coll) vars)
            (collections data)),
       st)
  end.

End FixExternalV2.

(** ** The callers: summaries and exit status *)

Module ValidatorMain.

(** The four totals [print_validation_results] prints, summed over the
    results that carry no ['error']. *)
Record totals := Totals {
  total_valid : nat;
  total_broken : nat;
  total_white : nat;
  total_proper : nat
}.

Definition sum_results (all_results : list (string * AliasValidator.report))
  : totals :=
  foldl (fun t '(_, results) =>
           match AliasValidator.error results with
           | Some _ => t
           | None =>
               Totals (total_valid t + AliasValidator.valid_chains results)
                      (total_broken t + AliasValidator.broken_chains results)
                      (total_white t + AliasValidator.white_colors results)
                      (total_proper t + AliasValidator.proper_colors results)
           end)
        (Totals 0 0 0 0) all_results.

(** The test under which [print_validation_results] prints that all
    collections validated successfully. *)
Definition reports_success (all_results : list (string * AliasValidator.report))
  : bool :=
  let t := sum_results all_results in
  (total_broken t =? 0) && (total_white t =? 0).

(** [has_issues] of [main]: it reads the counters of every result, also of
    those that carry an ['error']. *)
Definition has_issues (all_results : list (string * AliasValidator.report))
  : bool :=
  existsb (fun '(_, results) =>
             (0 <? AliasValidator.broken_chains results)
             || (0 <? AliasValidator.white_colors results))
          all_results.

(** What [main] returns once the document is loaded. *)
Definition exit_status (data : document) : nat :=
  if has_issues (AliasValidator.validate_all_critical_collections data)
  then 1 else 0.

End ValidatorMain.

Module FixWhiteMain.

(** Step 4 of [main] in fix_all_white_colors.py: the number of white
    direct values in the whole document. *)
Definition count_white_values (values : list (string * value)) : nat :=
  length (List.filter (fun '(_, mode_value) =>
                    match mode_value with
                    | Direct c => FixWhite.is_white c
                    | _ => false
                    end) values).

Definition white_count (data : document) : nat :=
  foldl (fun n coll =>
           foldl (fun n var => n + count_white_values (valuesByMode var))
                 n (variables coll))
        0 (collections data).

(** The line ["Remaining: ..."] of the summary. *)
Definition remaining (data : document)
    (rangde_palettes_rgb : list (string * list (string * rgb))) : nat :=
  white_count data - snd (FixWhite.fix_all_white_colors data rangde_palettes_rgb).

End FixWhiteMain.

(** *** fix_figma_variable_colors.py *)

Module FixFigma.
Import Py.

(** The body of the inner loop of [fix_grey_colors]. *)
Definition fix_grey_value (found : rgb) (fixed_count : nat)
    (entry : string * value) : nat * (string * value) :=
  let '(mode_id, mode_value) := entry in
  match mode_value with
  | Direct c =>
      if FixWhite.is_white c then
        let '(r, g, b) := found in
        (S fixed_count,
         (mode_id,
          Direct (Color (F64.round4 r) (F64.round4 g) (F64.round4 b) (c_a c))))
      else (fixed_count, entry)
  | _ => (fixed_count, entry)
  end.

(** The body of the loop of [fix_grey_colors] over the variables. *)
Definition fix_grey_variable (grey_rgb_palette : list (string * rgb))
    (fixed_count : nat) (var : variable) : nat * variable :=
  let var_name := v_name var in
  if negb (startswith "Grey/" var_name) then (fixed_count, var)
  else
    match split_on "/" var_name with
    | _ :: step :: _ =>
        match dict_get step grey_rgb_palette with
        | None => (fixed_count, var)
        | Some found =>
            let '(fixed_count, values_by_mode) :=
              for_each (fix_grey_value found) fixed_count (valuesByMode var) in
            (fixed_count,
             Variable_ (v_id var) (v_name var) (resolvedType var) values_by_mode)
        end
    | _ => (fixed_count, var)
    end.

(** [fix_grey_colors]: the document as the call leaves it, and the count. *)
Definition fix_grey_colors (data : document)
    (grey_rgb_palette : list (string * rgb)) : document * nat :=
  match find FixExternal.is_semi_semantics (collections data) with
  | None => (data, 0)
  | Some semi_semantics =>
      let '(fixed_count, vars) :=
        for_each (fix_grey_variable grey_rgb_palette) 0 (variables semi_semantics) in
      (Document
         (replace_first FixExternal.is_semi_semantics
            (Collection (c_id semi_semantics) (c_name semi_semantics)
                        (modes semi_semantics) vars)
            (collections data)),
       fixed_count)
  end.

(** The alpha written with a replaced external reference. *)
Definition surface_alpha (var_name : string) : float :=
  if contains "surface" (lower var_name) then F64.dec 8 2 else F64.one.

(** The body of the inner loop of [fix_external_references]. *)
Definition fix_reference_value
    (rangde_palettes_rgb : list (string * list (string * rgb)))
    (var_name : string) (fixed_count : nat) (entry : string * value)
  : nat * (string * value) :=
  let '(mode_id, mode_value) := entry in
  match mode_value with
  | VariableAlias alias_id =>
      if contains "/" alias_id then
        match split_on "/" var_name with
        | name0 :: step :: _ =>
            match dict_get (lower name0) rangde_palettes_rgb with
            | Some palette =>
                match dict_get step palette with
                | Some (r, g, b) =>
                    (S fixed_count,
                     (mode_id,
                      Direct (Color (F64.round4 r) (F64.round4 g) (F64.round4 b)
                                    (surface_alpha var_name))))
                | None => (fixed_count, entry)
                end
            | None => (fixed_count, entry)
            end
        | _ => (fixed_count, entry)
        end
      else (fixed_count, entry)
  | _ => (fixed_count, entry)
  end.

Definition fix_reference_variable
    (rangde_palettes_rgb : list (string * list (string * rgb)))
    (fixed_count : nat) (var : variable) : nat * variable :=
  let '(fixed_count, values_by_mode) :=
    for_each (fix_reference_value rangde_palettes_rgb (v_name var))
             fixed_count (valuesByMode var) in
  (fixed_count,
   Variable_ (v_id var) (v_name var) (resolvedType var) values_by_mode).

(** [fix_external_references] of fix_figma_variable_colors.py. *)
Definition fix_external_references (data : document)
    (rangde_palettes_rgb : list (string * list (string * rgb)))
  : document * nat :=
  match find FixExternal.is_semi_semantics (collections data) with
  | None => (data, 0)
  | Some semi_semantics =>
      let '(fixed_count, vars) :=
        for_each (fix_reference_variable rangde_palettes_rgb) 0
                 (variables semi_semantics) in
      (Document
         (replace_first FixExternal.is_semi_semantics
            (Collection (c_id semi_semantics) (c_name semi_semantics)
                        (modes semi_semantics) vars)
            (collections data)),
       fixed_count)
  end.

(** Steps 5 and 6 of [main]: the grey pass, then the reference pass on the
    document it leaves; [None] when the palettes have no ['grey'] entry
    ([rangde_palettes_rgb['grey']] raises [KeyError]). *)
Definition fix_both (data : document)
    (rangde_palettes_rgb : list (string * list (string * rgb)))
  : option (document * nat * nat) :=
  match dict_get "grey" rangde_palettes_rgb with
  | None => None
  | Some grey =>
      let '(data1, grey_fixed) := fix_grey_colors data grey in
      let '(data2, ext_fixed) := fix_external_references data1 rangde_palettes_rgb in
      Some (data2, grey_fixed, ext_fixed)
  end.

End FixFigma.

(** *** analyze_myjio_colors.py *)

Module AnalyzeColors.

(** [build_variable_index]: the annotated variables by id. *)
Definition build_variable_index (data : document)
  : gmap string DeepTrace.indexed_variable :=
  foldl (fun var_index coll =>
           foldl (fun var_index var =>
                    <[v_id var :=
                        DeepTrace.IndexedVariable var (c_name coll) (c_id coll)
                                                  (modes coll)]> var_index)
                 var_index (variables coll))
        ∅ (collections data).

(** The three shapes of the dictionaries [trace_alias_chain] lists. *)
Inductive entry :=
  | Var (depth : nat) (id name collection type : string)
  | AliasTo (depth : nat) (alias_to : string)
  | Value (depth : nat) (value : value).

(** The recursion of [trace_alias_chain], on the number [remaining] of
    levels left before [depth] reaches [max_depth]. *)
Fixpoint trace_from (remaining : nat) (var_id : string)
    (var_index : gmap string DeepTrace.indexed_variable) (mode_id : string)
    (depth : nat) : list entry :=
  match remaining with
  | O => []
  | S remaining' =>
      match var_index !! var_id with
      | None => []
      | Some var =>
          let head :=
            Var depth var_id (v_name (DeepTrace.iv_var var))
                (DeepTrace.iv_collection_name var)
                (resolvedType (DeepTrace.iv_var var)) in
          match Py.dict_get mode_id (valuesByMode (DeepTrace.iv_var var)) with
          | None => [head]
          | Some (VariableAlias aliased_id) =>
              head :: AliasTo depth aliased_id
                   :: trace_from remaining' aliased_id var_index mode_id (S depth)
          | Some value => [head; Value depth value]
          end
      end
  end.

(** [trace_alias_chain]: nothing is returned once [depth >= max_depth]. *)
Definition trace_alias_chain (var_id : string)
    (var_index : gmap string DeepTrace.indexed_variable) (mode_id : string)
    (depth max_depth : nat) : list entry :=
  trace_from (max_depth - depth) var_id var_index mode_id depth.

End AnalyzeColors.

(** * Vocabulary of the properties *)

(** ** Alias chains *)

(** The id [resolve_alias_chain] recurses on from [x], if it recurses. *)
Definition alias_target (idx : gmap string variable) (mode_id x : string)
  : option string :=
  match idx !! x with
  | Some var =>
      match Py.dict_get mode_id (valuesByMode var) with
      | Some (VariableAlias t) => if Py.contains "/" t then None else Some t
      | _ => None
      end
  | None => None
  end.

(** One link of the alias chain, and a cycle of the chain through [v]. *)
Definition alias_step (idx : gmap string variable) (mode_id x y : string) : Prop :=
  alias_target idx mode_id x = Some y.

Definition on_cycle (idx : gmap string variable) (mode_id v : string) : Prop :=
  tc (alias_step idx mode_id) v v.

(** The text a visited variable contributes to the chain path. *)
Definition name_of (idx : gmap string variable) (x : string) : string :=
  match idx !! x with
  | Some var => v_name var
  | None => x
  end.

(** [n] links followed from [x]. *)
Fixpoint follow (idx : gmap string variable) (mode_id : string) (n : nat)
    (x : string) : option string :=
  match n with
  | O => Some x
  | S n' =>
      match alias_target idx mode_id x with
      | Some y => follow idx mode_id n' y
      | None => None
      end
  end.

(** The ids met on the first [n] links from [x], [x] excluded. *)
Fixpoint orbit (idx : gmap string variable) (mode_id : string) (n : nat)
    (x : string) : list string :=
  match n with
  | O => []
  | S n' =>
      match alias_target idx mode_id x with
      | Some y => y :: orbit idx mode_id n' y
      | None => []
      end
  end.

(** [steps idx mode_id x chain w]: the links [x -> chain -> w] are all
    alias links. *)
Fixpoint steps (idx : gmap string variable) (mode_id : string) (x : string)
    (chain : list string) (w : string) : Prop :=
  match chain with
  | [] => alias_step idx mode_id x w
  | y :: rest => alias_step idx mode_id x y ∧ steps idx mode_id y rest w
  end.

(** ** Reports and conversion *)

(** The counters of a report add up. *)
Definition counters_partition (x : AliasValidator.report) : Prop :=
  AliasValidator.total_variables x
  = AliasValidator.valid_chains x + AliasValidator.broken_chains x
  ∧ AliasValidator.valid_chains x
    = AliasValidator.white_colors x + AliasValidator.proper_colors x.

(** The float just below [1.0]: [1 - 2^-53], printed [0.9999999999999999]. *)
Definition below_one : float := S754_finite false 9007199254740991 (-53).

(** What the conversion assumes of the C library: a finite argument has a
    finite cosine and sine. *)
Definition libm_finite (f : float -> float) : Prop :=
  ∀ x, F64.is_finite x = true → F64.is_finite (f x) = true.

(** The hue in radians, as [oklch_to_rgb] computes it. *)
Definition radians (H_degrees : float) : float :=
  F64.div (F64.mul H_degrees Oklch.pi) (F64.of_Z 180).

(** ** Worked inputs *)

(** A stand-in C library for evaluating the conversion at hue 0, where
    the values are the exact ones ([cos 0 = 1], [sin 0 = 0]). *)
Definition cos_at_zero (x : float) : float := F64.one.
Definition sin_at_zero (x : float) : float := F64.zero.
Definition pow_unused (x y : float) : float := x.

(** Opaque white, the placeholder, and an opaque mid grey. *)
Definition white : color := Color F64.one F64.one F64.one F64.one.
Definition mid_grey : color :=
  Color (F64.dec 5 1) (F64.dec 5 1) (F64.dec 5 1) F64.one.

(** [A] and [B] alias each other in mode ["1:0"]; in mode ["1:1"] [A] points
    outside the document and [B] holds a colour. *)
Definition var_A : variable :=
  Variable_ "VariableID:1:1" "Jio/Primary/[Theme] Surface" "COLOR"
    [("1:0", VariableAlias "VariableID:1:2");
     ("1:1", VariableAlias "VariableID:abc123/7:9")].
Definition var_B : variable :=
  Variable_ "VariableID:1:2" "Jio/Secondary/[Theme] Surface" "COLOR"
    [("1:0", VariableAlias "VariableID:1:1"); ("1:1", Direct mid_grey)].

Definition theme_document : document :=
  Document [Collection "VariableCollectionId:1:0" "9 Theme"
              [Mode "1:0" "MyJio"; Mode "1:1" "JioFinance"] [var_A; var_B]].

Definition theme_index : gmap string variable :=
  AliasValidator.variables_by_id theme_document.

(** ** What a repair pass preserves and what it writes *)

(** Two variables with the same identity: id, name, resolved type and the
    same mode ids in the same order. *)
Definition same_identity (v v' : variable) : Prop :=
  v_id v' = v_id v ∧ v_name v' = v_name v
  ∧ resolvedType v' = resolvedType v
  ∧ Py.keys (valuesByMode v') = Py.keys (valuesByMode v).

(** [c'] is [c] with its variables related one by one through [R]; id,
    name and modes are unchanged. *)
Definition collection_frame (R : variable -> variable -> Prop)
    (c c' : collection) : Prop :=
  c_id c' = c_id c ∧ c_name c' = c_name c ∧ modes c' = modes c
  ∧ Forall2 R (variables c) (variables c').

(** [d'] has the collections of [d], in the same order, each with the same
    identity and its variables related through [R]. *)
Definition document_frame (R : collection -> variable -> variable -> Prop)
    (d d' : document) : Prop :=
  Forall2 (fun c c' => collection_frame (R c) c c') (collections d) (collections d').

(** The value written for one entry of [valuesByMode]. *)
Definition white_value (found : option rgb) (x : value) : value :=
  match x with
  | Direct c =>
      if FixWhite.is_white c then
        match found with
        | Some (r, g, b) =>
            Direct (Color (F64.round4 r) (F64.round4 g) (F64.round4 b) (c_a c))
        | None => x
        end
      else x
  | _ => x
  end.

Definition white_found (palettes : list (string * list (string * rgb)))
    (var : variable) : option rgb :=
  FixWhite.palette_color palettes
    (FixWhite.extract_color_info_from_name (v_name var)).

Definition white_variable (palettes : list (string * list (string * rgb)))
    (var : variable) : variable :=
  Variable_ (v_id var) (v_name var) (resolvedType var)
    (map (fun '(mode_id, x) => (mode_id, white_value (white_found palettes var) x))
         (valuesByMode var)).

Definition white_collection (palettes : list (string * list (string * rgb)))
    (coll : collection) : collection :=
  Collection (c_id coll) (c_name coll) (modes coll)
    (map (white_variable palettes) (variables coll)).

(** The pass selects a variable when one of its values is the white
    placeholder and the palettes hold a colour for its name. *)
Definition white_selected (palettes : list (string * list (string * rgb)))
    (var : variable) : bool :=
  existsb (fun '(_, x) =>
             match x with Direct c => FixWhite.is_white c | _ => false end)
          (valuesByMode var)
  && match white_found palettes var with Some _ => true | None => false end.

(** The pass selects a variable of the collection when its name lacks
    ["[Semi semantics]"], one of its values is an alias to an id with a
    ['/'], and its name has at least three segments. *)
Definition external_selected (var : variable) : bool :=
  negb (Py.contains "[Semi semantics]" (v_name var))
  && FixExternal.has_external (valuesByMode var)
  && (3 <=? length (Py.split_on "/" (v_name var))).

(** [v'] has the mode ids of [v], and every one of them holds [Direct c]. *)
Definition all_modes_hold (c : color) (v v' : variable) : Prop :=
  Py.keys (valuesByMode v') = Py.keys (valuesByMode v)
  ∧ ∀ e, e ∈ valuesByMode v' → snd e = Direct c.

(** The variable the loop body of version 1 leaves behind. *)
Definition ext_variable (rgb_by_color_value : list (string * rgb))
    (var : variable) : variable :=
  snd (FixExternal.fix_variable rgb_by_color_value (FixExternal.Stats 0 0 0 0) var).

(** The variable the loop body of version 2 leaves behind. *)
Definition ext_variable_v2 (var : variable) : variable :=
  snd (FixExternalV2.fix_variable (FixExternalV2.Stats 0 0 0 0 0) var).

(** A pass that rewrites the variables of the first ["00_Semi semantics"]
    collection with [f], and nothing else. *)
Definition rewrites_first_semi (f : collection -> variable -> variable)
    (data : document) (out : list collection) : Prop :=
  out = match find FixExternal.is_semi_semantics (collections data) with
        | Some coll =>
            replace_first FixExternal.is_semi_semantics
              (Collection (c_id coll) (c_name coll) (modes coll)
                 (map (f coll) (variables coll)))
              (collections data)
        | None => collections data
        end.

(** ** Worked documents for the repair passes *)

(** A document with a white placeholder in one mode only, and external
    aliases next to a working ["[Semi semantics]"] variable. *)
Definition grey_surface : variable :=
  Variable_ "VariableID:2:1" "Grey/2500/Surface" "COLOR"
    [("2:0", Direct white); ("2:1", Direct mid_grey)].
Definition indigo_bold : variable :=
  Variable_ "VariableID:2:2" "Indigo/1000/Bold" "COLOR"
    [("2:0", VariableAlias "VariableID:abc123/7:9"); ("2:1", Direct mid_grey)].
Definition indigo_working : variable :=
  Variable_ "VariableID:2:3" "Indigo/1000/[Semi semantics] Bold" "COLOR"
    [("2:0", Direct mid_grey); ("2:1", VariableAlias "VariableID:abc123/7:8")].

Definition semi_collection : collection :=
  Collection "VariableCollectionId:2:0" "00_Semi semantics"
    [Mode "2:0" "Light"; Mode "2:1" "Dark"]
    [grey_surface; indigo_bold; indigo_working].

Definition semi_document : document :=
  Document [Collection "VariableCollectionId:1:0" "9 Theme"
              [Mode "1:0" "MyJio"; Mode "1:1" "JioFinance"] [var_A; var_B];
            semi_collection].

Definition grey_2500 : rgb := (F64.dec 12 2, F64.dec 12 2, F64.dec 12 2).

Definition grey_palettes : list (string * list (string * rgb)) :=
  [("grey", [("2500", grey_2500)])].

(** ** The scope of the external-reference passes *)

(** What it means for a pass to examine only the first collection named
    ["00_Semi semantics"] and to skip the ["[Semi semantics]"] variables:
    a collection with another name, and any collection after the first one
    with that name, is returned as it is; and in every collection a
    variable whose name contains ["[Semi semantics]"] is returned as it
    is. *)
Definition external_scope (data : document) (out : list collection) : Prop :=
  (∀ i c, collections data !! i = Some c →
          c_name c ≠ "00_Semi semantics" → out !! i = Some c)
  ∧ (∀ i j c0 c, j < i → collections data !! j = Some c0 →
                 c_name c0 = "00_Semi semantics" →
                 collections data !! i = Some c → out !! i = Some c)
  ∧ Forall2
      (fun c c' =>
         collection_frame
           (fun v v' =>
              Py.contains "[Semi semantics]" (v_name v) = true → v' = v) c c')
      (collections data) out.

(** ** Branches of a trace *)

(** The chain traced from [t] under the visited set [visited]. *)
Definition trace_of (idx : gmap string DeepTrace.indexed_variable)
    (visited : gset string) (t : string) : list DeepTrace.link :=
  default [] (DeepTrace.trace_complete_chain (S (size idx)) t idx visited).

(** What one mode of [var] contributes to the chain after its head. *)
Definition branch (idx : gmap string DeepTrace.indexed_variable)
    (visited : gset string) (var : DeepTrace.indexed_variable) (m : mode)
  : list DeepTrace.link :=
  match Py.dict_get (modeId m) (valuesByMode (DeepTrace.iv_var var)) with
  | Some (VariableAlias t) => trace_of idx visited t
  | _ => []
  end.

(** A brand variable whose two modes alias the same theme variable. *)
Definition brand_surface : variable :=
  Variable_ "VariableID:3:1" "Jio/Surfaces/[Brand] Surface" "COLOR"
    [("3:0", VariableAlias "VariableID:3:2");
     ("3:1", VariableAlias "VariableID:3:2")].
Definition theme_surface : variable :=
  Variable_ "VariableID:3:2" "Jio/Surfaces/[Theme] Surface" "COLOR"
    [("3:0", Direct mid_grey); ("3:1", Direct white)].

Definition brand_modes : list mode := [Mode "3:0" "Jio"; Mode "3:1" "JS"].

Definition brand_document : document :=
  Document [Collection "VariableCollectionId:3:0" "10 Brand" brand_modes
              [brand_surface; theme_surface]].

Definition brand_trace_index : gmap string DeepTrace.indexed_variable :=
  fst (DeepTrace.build_variable_index brand_document).

Definition brand_index : gmap string variable :=
  AliasValidator.variables_by_id brand_document.

Definition indexed (var : variable) : DeepTrace.indexed_variable :=
  DeepTrace.IndexedVariable var "10 Brand" "VariableCollectionId:3:0" brand_modes.

(** ** Further vocabulary: indexes, paths and reports *)

(** Every variable of the document, in the order the indexes visit them. *)
Definition all_variables (data : document) : list variable :=
  flat_map variables (collections data).

(** One step of [_build_lookups]: [variables_by_id[variable['id']] = variable]. *)
Definition index_insert (idx : gmap string variable) (v : variable)
  : gmap string variable := <[v_id v := v]> idx.

(** The diagnostic markers that close the path of a failed resolution. *)
Definition is_marker (step : string) : bool :=
  String.prefix "CIRCULAR: " step || String.prefix "NOT_FOUND: " step
  || String.prefix "NO_VALUE_FOR_MODE: " step
  || String.prefix "EXTERNAL_REF: " step
  || String.prefix "UNKNOWN_VALUE_TYPE: " step.

(** What a result looks like, given the number [bound] of indexed
    variables the call may still walk through. *)
Definition shaped (bound : nat) (res : AliasValidator.chain_result) : Prop :=
  let '(success, final_value, chain_path) := res in
  if success then
    is_Some final_value ∧ 1 ≤ length chain_path ≤ bound
  else
    final_value = None
    ∧ ∃ names marker, chain_path = names ++ [marker]
                      ∧ is_marker marker = true ∧ length names ≤ bound.

(** Broken chains, their two classes and the stored examples. *)
Definition examples_bounded (x : AliasValidator.report) : Prop :=
  AliasValidator.circular_refs x + AliasValidator.external_refs x
  ≤ AliasValidator.broken_chains x
  ∧ length (AliasValidator.broken_examples x)
    = Nat.min (AliasValidator.broken_chains x) 5.

(** The first collection of the document with the given name, as the
    loop of [validate_collection] finds it. *)
Definition named_collection (data : document) (name : string)
  : option collection :=
  find (fun coll => String.eqb (c_name coll) name) (collections data).

(** A variable whose name holds the word the classification looks for,
    and whose only value is an alias into another library. *)
Definition circular_saw : variable :=
  Variable_ "VariableID:9:9" "Tools/CIRCULAR saw" "COLOR"
    [("1:0", VariableAlias "VariableID:abc123/1:2")].

Definition tools_index : gmap string variable :=
  index_insert ∅ circular_saw.

(** A document that holds the palette collection only. *)
Definition palette_document : document := Document [semi_collection].

(** No collection of the document has one of the names the validator
    looks for. *)
Definition no_critical_collection (data : document) : Prop :=
  Forall (fun coll => c_name coll ∉ AliasValidator.critical_collections)
         (collections data).

(** A result that carries an ['error'] has counted nothing broken and
    nothing white. *)
Definition quiet_on_error (entry : string * AliasValidator.report) : Prop :=
  AliasValidator.error (snd entry) ≠ None →
  AliasValidator.broken_chains (snd entry) = 0
  ∧ AliasValidator.white_colors (snd entry) = 0.

(** An entry of the trace index carries the name, id and modes of a
    collection of the document that lists its variable. *)
Definition annotated (data : document) (iv : DeepTrace.indexed_variable)
  : Prop :=
  ∃ coll, coll ∈ collections data ∧ DeepTrace.iv_var iv ∈ variables coll
          ∧ DeepTrace.iv_collection_name iv = c_name coll
          ∧ DeepTrace.iv_collection_id iv = c_id coll
          ∧ DeepTrace.iv_modes iv = modes coll.

(** A link of a trace describes the indexed variable with its id, and its
    ['values'] are keyed by mode names of that variable's collection, each
    name once. *)
Definition link_describes (idx : gmap string DeepTrace.indexed_variable)
    (l : DeepTrace.link) : Prop :=
  ∃ var, idx !! DeepTrace.l_id l = Some var
         ∧ DeepTrace.l_name l = v_name (DeepTrace.iv_var var)
         ∧ DeepTrace.l_collection l = DeepTrace.iv_collection_name var
         ∧ DeepTrace.l_collection_id l = DeepTrace.iv_collection_id var
         ∧ DeepTrace.l_type l = resolvedType (DeepTrace.iv_var var)
         ∧ NoDup (Py.keys (DeepTrace.l_values l))
         ∧ Py.keys (DeepTrace.l_values l) ⊆ m_name <$> DeepTrace.iv_modes var.

(** An entry of a palette other than ['base'], and its converted form. *)
Definition non_base (entry : string * string) : bool :=
  negb (String.eqb (fst entry) "base").

Definition converted (libm_cos libm_sin : float -> float)
    (libm_pow : float -> float -> float)
    (entry : string * string) (out : string * rgb) : Prop :=
  fst out = fst entry
  ∧ Oklch.oklch_to_rgb libm_cos libm_sin libm_pow (snd entry) = Py.Ok (snd out).

Definition raises (libm_cos libm_sin : float -> float)
    (libm_pow : float -> float -> float) (entry : string * string) : Prop :=
  non_base entry = true
  ∧ Oklch.oklch_to_rgb libm_cos libm_sin libm_pow (snd entry) = Py.ValueError.

(** A palette of two steps and its ['base'] entry. *)
Definition two_step_palette : list (string * string) :=
  [("200", "oklch(100% 0 0)"); ("base", "2500"); ("2500", "oklch(0% 0 0)")].

(** A stand-in for the C library that answers [0.0] everywhere. *)
Definition libm_zero (x : float) : float := F64.zero.
Definition libm_pow_zero (x y : float) : float := F64.zero.

(** White direct values per variable, collection and document. *)
Definition whites_of_variable (var : variable) : nat :=
  FixWhiteMain.count_white_values (valuesByMode var).

Definition whites_of_collection (coll : collection) : nat :=
  list_sum (map whites_of_variable (variables coll)).

Definition whites_of_entry (entry : string * value) : nat :=
  FixWhiteMain.count_white_values [entry].

(** No colour of the palettes is white once rounded to four decimals. *)
Definition no_white_step (palettes : list (string * list (string * rgb)))
  : Prop :=
  ∀ name palette step r g b,
    Py.dict_get name palettes = Some palette →
    Py.dict_get step palette = Some (r, g, b) →
    FixWhite.is_white
      (Color (F64.round4 r) (F64.round4 g) (F64.round4 b) F64.one) = false.

(** One iteration of a counting loop: the counter grows by some [k] that
    is at most the weight [w] of the element, the weight does not grow and
    drops by at most [k]; it drops by exactly [k] under [exact]. *)
Definition accounts {A} (exact : Prop) (w : A -> nat) (n : nat) (x : A)
    (out : nat * A) : Prop :=
  ∃ k, fst out = n + k ∧ k ≤ w x ∧ w x ≤ w (snd out) + k
       ∧ w (snd out) ≤ w x ∧ (exact → w x = w (snd out) + k).

(** Every character of the string satisfies [p]. *)
Fixpoint string_forall (p : ascii -> bool) (s : string) : bool :=
  match s with
  | EmptyString => true
  | String c s' => p c && string_forall p s'
  end.

(** What a parsed name looks like: a lower-case palette name that is not
    empty, and a step made of one or more digits when there is one. *)
Definition well_parsed (info : option string * option string) : Prop :=
  match info with
  | (Some palette_name, step) =>
      palette_name ≠ "" ∧ Py.lower palette_name = palette_name
      ∧ match step with
        | Some step => step ≠ "" ∧ string_forall Py.is_digit step = true
        | None => palette_name ∈ FixWhite.known_palettes
        end
  | (None, step) => step = None
  end.

(** The external-reference passes count a variable as already in order
    when its name contains ["[Semi semantics]"] or none of its values is an
    external alias, and as an error when it has an external alias but its
    name has fewer than three segments. *)
Definition external_in_order (var : variable) : bool :=
  Py.contains "[Semi semantics]" (v_name var)
  || negb (FixExternal.has_external (valuesByMode var)).

Definition external_malformed (var : variable) : bool :=
  negb (external_in_order var)
  && negb (3 <=? length (Py.split_on "/" (v_name var))).

(** The variables the external-reference passes loop over. *)
Definition semi_variables (data : document) : list variable :=
  match find FixExternal.is_semi_semantics (collections data) with
  | Some coll => variables coll
  | None => []
  end.

Definition count_of (p : variable -> bool) (vars : list variable) : nat :=
  length (List.filter p vars).

(** The second name segment read as an integer, and the key
    ["color/value_level"] under which version 1 looks a colour up. *)
Definition value_level (var : variable) : option Z :=
  match Py.split_on "/" (v_name var) with
  | _ :: level :: _ =>
      match Py.int_of_string level with
      | Py.Ok n => Some n
      | Py.ValueError => None
      end
  | _ => None
  end.

Definition color_key (var : variable) : option string :=
  match Py.split_on "/" (v_name var) with
  | color :: level :: _ => Some (color +:+ "/" +:+ level)
  | _ => None
  end.

(** Every mode of [v'] holds a white colour. *)
Definition all_modes_white (v' : variable) : Prop :=
  ∀ e, e ∈ valuesByMode v' →
       ∃ c, snd e = Direct c ∧ FixWhite.is_white c = true.

(** A variable of a light step whose two modes alias another library. *)
Definition indigo_2500 : variable :=
  Variable_ "VariableID:2:4" "Indigo/2500/Bold" "COLOR"
    [("2:0", VariableAlias "VariableID:abc123/7:9");
     ("2:1", VariableAlias "VariableID:abc123/7:10")].

(** The variables the two passes of fix_figma_variable_colors.py leave
    behind. *)
Definition grey_variable (grey_rgb_palette : list (string * rgb))
    (var : variable) : variable :=
  snd (FixFigma.fix_grey_variable grey_rgb_palette 0 var).

Definition reference_variable
    (rangde_palettes_rgb : list (string * list (string * rgb)))
    (var : variable) : variable :=
  snd (FixFigma.fix_reference_variable rangde_palettes_rgb 0 var).

(** [v'] is [v] with each value related to the old one through [R]. *)
Definition entrywise (R : value -> value -> Prop) (v v' : variable) : Prop :=
  v_id v' = v_id v ∧ v_name v' = v_name v ∧ resolvedType v' = resolvedType v
  ∧ Forall2 (fun e e' => fst e' = fst e ∧ R (snd e) (snd e'))
            (valuesByMode v) (valuesByMode v').

(** A value is kept, or a white direct colour becomes a direct colour with
    the same alpha. *)
Definition white_replaced (x x' : value) : Prop :=
  x' = x
  ∨ ∃ c c', x = Direct c ∧ FixWhite.is_white c = true
            ∧ x' = Direct c' ∧ c_a c' = c_a c.

(** A value is kept, or an external alias becomes a direct colour whose
    alpha is [0.08] or [1.0]. *)
Definition reference_replaced (x x' : value) : Prop :=
  x' = x
  ∨ ∃ id c, x = VariableAlias id ∧ Py.contains "/" id = true
            ∧ x' = Direct c
            ∧ (c_a c = F64.dec 8 2 ∨ c_a c = F64.one).

(** External aliases among the values of a variable. *)
Definition external_entry (entry : string * value) : nat :=
  match snd entry with
  | VariableAlias id => if Py.contains "/" id then 1 else 0
  | _ => 0
  end.

Definition externals_of_variable (var : variable) : nat :=
  list_sum (map external_entry (valuesByMode var)).

(** The names of the variables a chain of the analyzer lists, and whether
    it ends on a value. *)
Definition var_names (chain : list AnalyzeColors.entry) : list string :=
  omap (fun e => match e with
                 | AnalyzeColors.Var _ _ name _ _ => Some name
                 | _ => None
                 end) chain.

Definition is_value (e : AnalyzeColors.entry) : bool :=
  match e with AnalyzeColors.Value _ _ => true | _ => false end.

(** ** Deep chains *)

(** A document with one chain of [n] alias links: variable [i] aliases
    variable [i + 1] and the last one holds a colour.  The ids are ["v"],
    ["vI"], ["vII"] and so on. *)
Fixpoint tally (i : nat) : string :=
  match i with
  | O => EmptyString
  | S i' => String "I" (tally i')
  end.

Definition chain_id (i : nat) : string := String "v" (tally i).

Definition chain_variable (n i : nat) : variable :=
  Variable_ (chain_id i) (chain_id i) "COLOR"
    [("9:0", if i <? n then VariableAlias (chain_id (S i)) else Direct mid_grey)].

Definition chain_document (n : nat) : document :=
  Document [Collection "VariableCollectionId:9:0" "Chain" [Mode "9:0" "Default"]
              (map (chain_variable n) (seq 0 (S n)))].

Definition chain_index (n : nat) : gmap string variable :=
  AliasValidator.variables_by_id (chain_document n).

(** ** Classes of variables in a report *)

(** How the resolution of a variable in the checked mode ends. *)
Definition resolves (idx : gmap string variable) (mode_id : string)
    (var : variable) : bool :=
  fst (fst (AliasValidator.resolve idx (v_id var) mode_id)).

Definition breaks (idx : gmap string variable) (mode_id : string)
    (var : variable) : bool :=
  negb (resolves idx mode_id var).

Definition resolves_white (idx : gmap string variable) (mode_id : string)
    (var : variable) : bool :=
  match AliasValidator.resolve idx (v_id var) mode_id with
  | (true, Some c, _) => AliasValidator.is_white c
  | _ => false
  end.

Definition resolves_proper (idx : gmap string variable) (mode_id : string)
    (var : variable) : bool :=
  match AliasValidator.resolve idx (v_id var) mode_id with
  | (true, Some c, _) => negb (AliasValidator.is_white c)
  | _ => false
  end.

(** The number of elements of a list that satisfy a test. *)
Definition tally_of {A} (p : A -> bool) (l : list A) : nat :=
  length (List.filter p l).

(** Each counter of the report is the number of variables of its class
    among [vars]. *)
Definition counts_classes (idx : gmap string variable) (mode_id : string)
    (vars : list variable) (x : AliasValidator.report) : Prop :=
  AliasValidator.total_variables x = length vars
  ∧ AliasValidator.valid_chains x = tally_of (resolves idx mode_id) vars
  ∧ AliasValidator.broken_chains x = tally_of (breaks idx mode_id) vars
  ∧ AliasValidator.white_colors x = tally_of (resolves_white idx mode_id) vars
  ∧ AliasValidator.proper_colors x
    = tally_of (resolves_proper idx mode_id) vars.

(** The variables [validate_collection] examines and the mode it checks:
    those of the first collection with the name when it declares a mode,
    and its first mode. *)
Definition examined (data : document) (name : string) : list variable :=
  match find (fun coll => String.eqb (c_name coll) name) (collections data) with
  | Some coll =>
      match modes coll with
      | [] => []
      | _ :: _ => variables coll
      end
  | None => []
  end.

Definition checked_mode (data : document) (name : string) : string :=
  match find (fun coll => String.eqb (c_name coll) name) (collections data) with
  | Some coll =>
      match modes coll with
      | [] => ""
      | m0 :: _ => modeId m0
      end
  | None => ""
  end.

(** A numeral of [n] nines. *)
Fixpoint nines (n : nat) : string :=
  match n with
  | O => EmptyString
  | S n' => String "9" (nines n')
  end.

(** ** Links the analyzer follows *)

(** [trace_alias_chain] follows every alias of an indexed variable,
    whatever the target id looks like. *)
Definition analyzer_target (var_index : gmap string DeepTrace.indexed_variable)
    (mode_id x : string) : option string :=
  match var_index !! x with
  | Some iv =>
      match Py.dict_get mode_id (valuesByMode (DeepTrace.iv_var iv)) with
      | Some (VariableAlias t) => Some t
      | _ => None
      end
  | None => None
  end.

Definition analyzer_step (var_index : gmap string DeepTrace.indexed_variable)
    (mode_id x y : string) : Prop :=
  analyzer_target var_index mode_id x = Some y.

Definition analyzer_cycle (var_index : gmap string DeepTrace.indexed_variable)
    (mode_id v : string) : Prop :=
  tc (analyzer_step var_index mode_id) v v.

Fixpoint analyzer_follow (var_index : gmap string DeepTrace.indexed_variable)
    (mode_id : string) (n : nat) (x : string) : option string :=
  match n with
  | O => Some x
  | S n' =>
      match analyzer_target var_index mode_id x with
      | Some y => analyzer_follow var_index mode_id n' y
      | None => None
      end
  end.

(** Two variables that alias each other through ids of another library's
    form. *)
Definition remote_pair : document :=
  Document [Collection "VariableCollectionId:8:0" "Remote" [Mode "8:0" "Default"]
              [Variable_ "VariableID:abc/8:1" "Remote/One" "COLOR"
                 [("8:0", VariableAlias "VariableID:abc/8:2")];
               Variable_ "VariableID:abc/8:2" "Remote/Two" "COLOR"
                 [("8:0", VariableAlias "VariableID:abc/8:1")]]].

(** Following [n] alias links from [v] ends on a variable that holds the
    direct colour [c] in the mode; [path] is the names of the variables
    met, [v] first. *)
Definition leads_to_color (idx : gmap string variable) (mode_id v : string)
    (c : color) (path : list string) : Prop :=
  ∃ n t var, follow idx mode_id n v = Some t ∧ idx !! t = Some var
             ∧ Py.dict_get mode_id (valuesByMode var) = Some (Direct c)
             ∧ path = name_of idx <$> (v :: orbit idx mode_id n v).

(** * Properties *)

(** ** Alias resolution always returns *)

(** Statements of the form [∀ fuel, n < fuel → ...] about a fuelled
    function: the fuel is a successor, and the function is unfolded once. *)
Ltac positive_fuel :=
  let fuel := fresh "fuel" in
  let Hf := fresh "Hf" in
  intros [|fuel] Hf; [lia|]; simpl.

(** Visiting a fresh indexed id leaves strictly fewer ids to visit. *)
Lemma unvisited_decreases {V : Type} (idx : gmap string V) (v : string)
    (visited : gset string) :
  v ∉ visited → is_Some (idx !! v) →
  size (dom idx ∖ visited) = S (size (dom idx ∖ ({[v]} ∪ visited))).
Proof.
  intros Hfresh Hin.
  assert (Hsplit : dom idx ∖ visited = {[v]} ∪ dom idx ∖ ({[v]} ∪ visited)).
  { apply set_eq. intros x. rewrite elem_of_union, !elem_of_difference,
      elem_of_union, elem_of_singleton.
    split.
    - intros [Hx Hnx]. destruct (decide (x = v)) as [->|Hne]; [by left|].
      right. split; [done|]. intros [?|?]; done.
    - intros [->|[Hx Hnx]].
      + split; [by apply elem_of_dom|done].
      + split; [done|]. intros ?. apply Hnx. by right. }
  rewrite Hsplit, size_union, size_singleton; [done|].
  intros x. rewrite elem_of_singleton, elem_of_difference. intros -> [_ Hn].
  apply Hn. apply elem_of_union. left. by apply elem_of_singleton.
Qed.

Lemma size_dom_difference_le {V : Type} (idx : gmap string V)
    (visited : gset string) :
  size (dom idx ∖ visited) ≤ size idx.
Proof.
  rewrite <- size_dom. apply subseteq_size.
  apply elem_of_subseteq. intros x Hx. apply elem_of_difference in Hx. tauto.
Qed.

Section ResolveTermination.
Import AliasValidator.

Variable idx : gmap string variable.
Variable mode_id : string.

(** With more fuel than unvisited indexed ids the call returns, and the
    value it returns does not depend on the fuel. *)
Lemma resolve_fuel_enough (n : nat) :
  ∀ (v : string) (visited : gset string),
    size (dom idx ∖ visited) ≤ n →
    ∃ out, ∀ fuel, n < fuel →
      resolve_alias_chain fuel idx v mode_id visited = Some out.
Proof.
  induction n as [|n IH]; intros v visited Hsize.
  - destruct (decide (v ∈ visited)) as [Hv|Hv].
    + eexists. positive_fuel. by rewrite decide_True.
    + destruct (idx !! v) as [var|] eqn:Hlk.
      * rewrite (unvisited_decreases idx v visited) in Hsize by eauto. lia.
      * eexists. positive_fuel.
        rewrite decide_False by done. by rewrite Hlk.
  - destruct (decide (v ∈ visited)) as [Hv|Hv].
    { eexists. positive_fuel. by rewrite decide_True. }
    destruct (idx !! v) as [var|] eqn:Hlk.
    2:{ eexists. positive_fuel.
        rewrite decide_False by done. by rewrite Hlk. }
    destruct (Py.dict_get mode_id (valuesByMode var)) as [[c|alias_id| |ty]|] eqn:Hval.
    2:{ destruct (Py.contains "/" alias_id) eqn:Hext.
        - eexists. positive_fuel.
          rewrite decide_False by done. rewrite Hlk, Hval, Hext. done.
        - destruct (IH alias_id ({[v]} ∪ visited)) as [[[[s fv] sub] vis'] Hout].
          { rewrite (unvisited_decreases idx v visited) in Hsize by eauto. lia. }
          eexists. positive_fuel.
          rewrite decide_False by done. rewrite Hlk, Hval, Hext.
          rewrite Hout by lia. done. }
    all: eexists; positive_fuel;
      rewrite decide_False by done; rewrite Hlk, Hval; done.
Qed.

End ResolveTermination.

(** [resolve] is the result of the fuelled function at any sufficient fuel. *)
Lemma resolve_spec (idx : gmap string variable) (v m : string) :
  ∃ vis, ∀ fuel, size idx < fuel →
    AliasValidator.resolve_alias_chain fuel idx v m ∅
    = Some (AliasValidator.resolve idx v m, vis).
Proof.
  destruct (resolve_fuel_enough idx m (size idx) v ∅) as [[res vis] Hout].
  { apply size_dom_difference_le. }
  exists vis. intros fuel Hf. unfold AliasValidator.resolve.
  rewrite (Hout (S (size idx))) by lia. by apply Hout.
Qed.

(** ** External references *)

(** C3.  When the value of [variable_id] for the mode is an alias whose
    target id contains ['/'], the call returns the failure whose last step
    is the [EXTERNAL_REF] marker, whatever the index says about the target
    (the index is only constrained at [variable_id], so the target may be
    absent from it or present); that marker is not the [NOT_FOUND] one. *)
Theorem external_reference_not_dereferenced
    (idx : gmap string variable) (fuel : nat) (variable_id mode_id : string)
    (visited : gset string) (var : variable) (alias_id : string) :
  variable_id ∉ visited →
  idx !! variable_id = Some var →
  Py.dict_get mode_id (valuesByMode var) = Some (VariableAlias alias_id) →
  Py.contains "/" alias_id = true →
  AliasValidator.resolve_alias_chain (S fuel) idx variable_id mode_id visited
  = Some ((false, None, [v_name var; "EXTERNAL_REF: " +:+ alias_id]),
          {[variable_id]} ∪ visited)
  ∧ "EXTERNAL_REF: " +:+ alias_id ≠ "NOT_FOUND: " +:+ alias_id.
Proof.
  intros Hfresh Hlk Hval Hext. split; [|discriminate].
  simpl. rewrite decide_False by done. by rewrite Hlk, Hval, Hext.
Qed.

(** ** Cycles *)

Section Cycles.
Import AliasValidator.

Variable idx : gmap string variable.
Variable mode_id : string.

Local Abbreviation target := (alias_target idx mode_id).
Local Abbreviation run := (follow idx mode_id).

Lemma follow_add (a b : nat) (x : string) :
  run (a + b) x = run a x ≫= run b.
Proof.
  revert x. induction a as [|a IH]; intros x; simpl; [done|].
  destruct (target x); [apply IH|done].
Qed.

Lemma tc_follow (x y : string) :
  tc (alias_step idx mode_id) x y → ∃ n, run (S n) x = Some y.
Proof.
  induction 1 as [x y Hxy|x y z Hxy _ [n IH]].
  - exists 0. simpl. unfold alias_step in Hxy. by rewrite Hxy.
  - exists (S n). simpl in *. unfold alias_step in Hxy. by rewrite Hxy.
Qed.

(** The first return to [v]. *)
Lemma first_return (v : string) (n : nat) :
  run (S n) v = Some v →
  ∃ k, run (S k) v = Some v ∧ ∀ j, j < k → run (S j) v ≠ Some v.
Proof.
  induction n as [n IH] using lt_wf_ind. intros Hn.
  destruct (decide (Exists (λ j, run (S j) v = Some v) (seq 0 n)))
    as [Hex|Hnone].
  - apply Exists_exists in Hex as [j [Hj Hr]].
    apply elem_of_seq in Hj. apply (IH j); [lia|done].
  - exists n. split; [done|]. intros j Hj Hr. apply Hnone.
    apply Exists_exists. exists j. split; [apply elem_of_seq; lia|done].
Qed.

Lemma orbit_lookup (n : nat) :
  ∀ (x : string) (j : nat),
    is_Some (run n x) → j ≤ n → (x :: orbit idx mode_id n x) !! j = run j x.
Proof.
  induction n as [|n IH]; intros x j Hsome Hj.
  - by replace j with 0 by lia.
  - destruct j as [|j]; [done|]. simpl in *.
    destruct (target x) as [y|]; [|by destruct Hsome].
    apply (IH y j); [done|lia].
Qed.

Lemma orbit_length (n : nat) :
  ∀ x, is_Some (run n x) → length (orbit idx mode_id n x) = n.
Proof.
  induction n as [|n IH]; intros x Hsome; simpl in *; [done|].
  destruct (target x) as [y|]; [|by destruct Hsome].
  simpl. by rewrite IH.
Qed.

Lemma follow_prefix_some (a b : nat) (x : string) :
  is_Some (run (a + b) x) → is_Some (run a x).
Proof.
  rewrite follow_add. destruct (run a x); [eauto|]. by intros [? ?].
Qed.

(** Before its first return to [v] the chain meets no id twice. *)
Lemma orbit_NoDup (v : string) (k : nat) :
  run (S k) v = Some v →
  (∀ j, j < k → run (S j) v ≠ Some v) →
  NoDup (v :: orbit idx mode_id k v).
Proof.
  intros Hk Hmin.
  assert (Hsome : is_Some (run k v)).
  { apply (follow_prefix_some k 1). replace (k + 1) with (S k) by lia. eauto. }
  apply NoDup_alt. intros i j z Hi Hj.
  assert (Hlen : length (v :: orbit idx mode_id k v) = S k).
  { simpl. by rewrite orbit_length. }
  assert (Hik : i ≤ k). { apply lookup_lt_Some in Hi. lia. }
  assert (Hjk : j ≤ k). { apply lookup_lt_Some in Hj. lia. }
  rewrite orbit_lookup in Hi, Hj by done.
  assert (Hwlog : ∀ a b, a < b → b ≤ k → run a v = Some z → run b v = Some z → False).
  { intros a b Hab Hbk Ha Hb.
    assert (Hrest : run (S k - b) z = Some v).
    { replace (S k) with (b + (S k - b)) in Hk by lia.
      rewrite follow_add, Hb in Hk. exact Hk. }
    assert (Hshort : run (a + (S k - b)) v = Some v).
    { rewrite follow_add, Ha. exact Hrest. }
    destruct (a + (S k - b)) as [|j'] eqn:Hj'; [lia|].
    apply (Hmin j'); [lia|done]. }
  destruct (Nat.lt_trichotomy i j) as [Hlt|[Heq|Hgt]]; [|done|].
  - destruct (Hwlog i j); done.
  - destruct (Hwlog j i); done.
Qed.

Lemma orbit_steps (n : nat) :
  ∀ x w, run (S n) x = Some w → steps idx mode_id x (orbit idx mode_id n x) w.
Proof.
  induction n as [|n IH]; intros x w Hrun.
  - simpl in *. unfold alias_step. destruct (target x); [done|discriminate].
  - cbn [follow] in Hrun. cbn [orbit].
    destruct (target x) as [y|] eqn:Hy; [|discriminate].
    split; [done|]. by apply IH.
Qed.

(** One unfolding of the resolver along an alias link. *)
Lemma resolve_alias_link (x y : string) (visited : gset string) (fuel : nat) :
  alias_step idx mode_id x y → x ∉ visited →
  resolve_alias_chain (S fuel) idx x mode_id visited
  = match resolve_alias_chain fuel idx y mode_id ({[x]} ∪ visited) with
    | Some ((success, final_value, sub_chain), visited') =>
        Some ((success, final_value, name_of idx x :: sub_chain), visited')
    | None => None
    end.
Proof.
  intros Hxy Hx. unfold alias_step, alias_target in Hxy.
  cbn [resolve_alias_chain]. rewrite decide_False by done. unfold name_of.
  destruct (idx !! x) as [var|]; [|discriminate].
  destruct (Py.dict_get mode_id (valuesByMode var)) as [[c|t| |ty]|];
    try discriminate.
  destruct (Py.contains "/" t); [discriminate|].
  injection Hxy as ->. done.
Qed.

(** Walking a duplicate-free chain of fresh ids whose last link leads back
    into the visited part ends at the [CIRCULAR] marker. *)
Lemma resolve_walk (chain : list string) :
  ∀ (x w : string) (visited : gset string) (fuel : nat),
    steps idx mode_id x chain w →
    NoDup (x :: chain) →
    (∀ y, y ∈ x :: chain → y ∉ visited) →
    w ∈ visited ∨ w ∈ x :: chain →
    S (length chain) < fuel →
    fst <$> resolve_alias_chain fuel idx x mode_id visited
    = Some (false, None,
            (name_of idx <$> (x :: chain)) ++ ["CIRCULAR: " +:+ w]).
Proof.
  induction chain as [|y rest IH]; intros x w visited fuel Hsteps Hnd Hfresh Hw Hfuel.
  - destruct fuel as [|[|fuel]]; [simpl in Hfuel; lia..|].
    simpl in Hsteps.
    rewrite (resolve_alias_link x w) by (done || apply Hfresh; left).
    cbn [resolve_alias_chain].
    rewrite decide_True; [done|].
    apply elem_of_union. destruct Hw as [Hw|Hw]; [by right|left].
    apply list_elem_of_singleton in Hw. by apply elem_of_singleton.
  - destruct fuel as [|fuel]; [lia|].
    destruct Hsteps as [Hxy Hrest].
    rewrite (resolve_alias_link x y) by (done || apply Hfresh; left).
    apply NoDup_cons in Hnd as [Hx Hnd].
    assert (IHy : fst <$> resolve_alias_chain fuel idx y mode_id ({[x]} ∪ visited)
                  = Some (false, None,
                      (name_of idx <$> (y :: rest)) ++ ["CIRCULAR: " +:+ w])).
    { apply IH; [done|done| | |simpl in Hfuel; lia].
      - intros z Hz. rewrite elem_of_union, elem_of_singleton.
        intros [->|Hzv]; [done|]. apply (Hfresh z); [by right|done].
      - destruct Hw as [Hw|Hw].
        + left. apply elem_of_union. by right.
        + apply elem_of_cons in Hw as [->|Hw]; [|by right].
          left. apply elem_of_union. left. by apply elem_of_singleton. }
    destruct (resolve_alias_chain fuel idx y mode_id ({[x]} ∪ visited))
      as [[[[s fv] sub] vis']|]; [|discriminate].
    simpl in IHy. injection IHy as -> -> ->. done.
Qed.

End Cycles.

(** C4.  When the alias chain of [v] in the mode leads back to [v], the
    resolver (at any fuel above the number of indexed variables) returns a
    failure whose path is the names of [v :: chain] followed by the marker
    ["CIRCULAR: v"], where [v :: chain] is the cycle itself: every link of
    it is an alias link, no id occurs twice in it and [v] occurs in it only
    at the head. *)
Theorem cycle_reported_once
    (idx : gmap string variable) (mode_id v : string) :
  on_cycle idx mode_id v →
  ∃ chain,
    (v ∉ chain) ∧ NoDup (v :: chain) ∧ steps idx mode_id v chain v ∧
    ∀ fuel, size idx < fuel →
      fst <$> AliasValidator.resolve_alias_chain fuel idx v mode_id ∅
      = Some (false, None,
              (name_of idx <$> (v :: chain)) ++ ["CIRCULAR: " +:+ v]).
Proof.
  intros Hcyc.
  destruct (tc_follow idx mode_id v v Hcyc) as [n Hn].
  destruct (first_return idx mode_id v n Hn) as [k [Hk Hmin]].
  pose proof (orbit_NoDup idx mode_id v k Hk Hmin) as Hnd.
  pose proof (orbit_steps idx mode_id k v v Hk) as Hsteps.
  exists (orbit idx mode_id k v).
  split; [by apply NoDup_cons in Hnd as [? _]|].
  split; [done|]. split; [done|].
  destruct (resolve_fuel_enough idx mode_id (size idx) v ∅) as [out Hout].
  { apply size_dom_difference_le. }
  set (big := S (size idx) + S (S (length (orbit idx mode_id k v)))).
  pose proof (resolve_walk idx mode_id (orbit idx mode_id k v) v v ∅ big
                Hsteps Hnd) as Hwalk.
  rewrite (Hout big) in Hwalk by (unfold big; lia).
  intros fuel Hfuel. rewrite (Hout fuel Hfuel). apply Hwalk.
  - intros y _. apply not_elem_of_empty.
  - right. left.
  - unfold big. lia.
Qed.

(** ** The validation report *)

Section Report.
Import AliasValidator.

(** A successful resolution carries the colour it ended on. *)
Lemma resolve_success_value (idx : gmap string variable) (mode_id : string)
    (fuel : nat) :
  ∀ v visited fv path vis,
    resolve_alias_chain fuel idx v mode_id visited = Some ((true, fv, path), vis) →
    ∃ c, fv = Some c.
Proof.
  induction fuel as [|fuel IH]; intros v visited fv path vis; [done|].
  cbn [resolve_alias_chain].
  destruct (decide (v ∈ visited)); [done|].
  destruct (idx !! v) as [var|]; [|done].
  destruct (Py.dict_get mode_id (valuesByMode var)) as [[c|t| |ty]|]; try done.
  - intros [= <- <- <-]. eauto.
  - destruct (Py.contains "/" t); [done|].
    destruct (resolve_alias_chain fuel idx t mode_id ({[v]} ∪ visited))
      as [[[[s fv'] sub] vis']|] eqn:Hcall; [|done].
    intros [= -> <- <- <-]. by eapply IH.
Qed.

Lemma resolve_true_value (idx : gmap string variable) (v m : string) fv path :
  resolve idx v m = (true, fv, path) → ∃ c, fv = Some c.
Proof.
  unfold resolve.
  destruct (resolve_alias_chain (S (size idx)) idx v m ∅)
    as [[res vis]|] eqn:Hcall; [|done].
  intros ->. by eapply resolve_success_value.
Qed.

Lemma validate_variable_partition (idx : gmap string variable) (mode_id : string)
    (results : report) (var : variable) :
  counters_partition results →
  counters_partition (validate_variable idx mode_id results var).
Proof.
  unfold counters_partition, validate_variable. intros [Ht Hv].
  destruct (resolve idx (v_id var) mode_id) as [[[|] fv] path] eqn:Hres.
  - destruct (resolve_true_value _ _ _ _ _ Hres) as [c ->].
    destruct (is_white c); simpl; lia.
  - destruct (existsb (Py.contains "CIRCULAR") path);
      [|destruct (existsb (Py.contains "EXTERNAL_REF") path)];
      match goal with |- context [if ?b then _ else _] => destruct b end;
      simpl; lia.
Qed.

Lemma validate_fold_partition (idx : gmap string variable) (mode_id : string)
    (vars : list variable) :
  ∀ results, counters_partition results →
    counters_partition (foldl (validate_variable idx mode_id) results vars).
Proof.
  induction vars as [|var vars IH]; intros results Hinv; [done|].
  simpl. apply IH. by apply validate_variable_partition.
Qed.

End Report.

Lemma tally_of_cons {A} (p : A -> bool) (x : A) (l : list A) :
  tally_of p (x :: l) = (if p x then 1 else 0) + tally_of p l.
Proof. unfold tally_of. simpl. by destruct (p x). Qed.

Lemma validate_variable_classes (idx : gmap string variable) (mode_id : string)
    (results : AliasValidator.report) (var : variable) :
  let results' := AliasValidator.validate_variable idx mode_id results var in
  AliasValidator.total_variables results'
  = S (AliasValidator.total_variables results)
  ∧ AliasValidator.valid_chains results'
    = AliasValidator.valid_chains results
      + (if resolves idx mode_id var then 1 else 0)
  ∧ AliasValidator.broken_chains results'
    = AliasValidator.broken_chains results
      + (if breaks idx mode_id var then 1 else 0)
  ∧ AliasValidator.white_colors results'
    = AliasValidator.white_colors results
      + (if resolves_white idx mode_id var then 1 else 0)
  ∧ AliasValidator.proper_colors results'
    = AliasValidator.proper_colors results
      + (if resolves_proper idx mode_id var then 1 else 0).
Proof.
  unfold AliasValidator.validate_variable, breaks, resolves, resolves_white,
    resolves_proper.
  destruct (AliasValidator.resolve idx (v_id var) mode_id)
    as [[[|] fv] path] eqn:Hres.
  - destruct (resolve_true_value _ _ _ _ _ Hres) as [c ->].
    destruct (AliasValidator.is_white c); simpl; repeat split; lia.
  - destruct (existsb (Py.contains "CIRCULAR") path);
      [|destruct (existsb (Py.contains "EXTERNAL_REF") path)];
      match goal with |- context [if ?b then _ else _] => destruct b end;
      simpl; repeat split; lia.
Qed.

Lemma validate_fold_classes (idx : gmap string variable) (mode_id : string)
    (vars : list variable) :
  ∀ results,
    let results' :=
      foldl (AliasValidator.validate_variable idx mode_id) results vars in
    AliasValidator.total_variables results'
    = AliasValidator.total_variables results + length vars
    ∧ AliasValidator.valid_chains results'
      = AliasValidator.valid_chains results
        + tally_of (resolves idx mode_id) vars
    ∧ AliasValidator.broken_chains results'
      = AliasValidator.broken_chains results
        + tally_of (breaks idx mode_id) vars
    ∧ AliasValidator.white_colors results'
      = AliasValidator.white_colors results
        + tally_of (resolves_white idx mode_id) vars
    ∧ AliasValidator.proper_colors results'
      = AliasValidator.proper_colors results
        + tally_of (resolves_proper idx mode_id) vars.
Proof.
  induction vars as [|var vars IH]; intros results.
  - unfold tally_of. simpl. repeat split; lia.
  - cbn [foldl].
    destruct (IH (AliasValidator.validate_variable idx mode_id results var))
      as [-> [-> [-> [-> ->]]]].
    destruct (validate_variable_classes idx mode_id results var)
      as [-> [-> [-> [-> ->]]]].
    rewrite !tally_of_cons. simpl. repeat split; lia.
Qed.

(** C9.  In the report of every collection name over every document the
    counters partition the variables examined, those of the first
    collection with that name when it declares a mode (none otherwise):
    [total_variables] is their number, [valid_chains] the number of those
    whose resolution in the checked mode succeeds, [broken_chains] the
    number of the others, [white_colors] and [proper_colors] the numbers of
    the successes that end on a white colour and on another one.  So
    [total_variables = valid_chains + broken_chains] and
    [valid_chains = white_colors + proper_colors]. *)
Theorem validate_collection_counters (data : document) (name : string) :
  counts_classes (AliasValidator.variables_by_id data) (checked_mode data name)
    (examined data name) (AliasValidator.validate_collection data name)
  ∧ counters_partition (AliasValidator.validate_collection data name).
Proof.
  split.
  - unfold counts_classes, AliasValidator.validate_collection, examined,
      checked_mode.
    destruct (find _ (collections data)) as [coll|]; [|by repeat split].
    destruct (modes coll) as [|m0 ms]; [by repeat split|].
    destruct (validate_fold_classes (AliasValidator.variables_by_id data)
                (modeId m0) (variables coll)
                (AliasValidator.empty_report name)) as [-> [-> [-> [-> ->]]]].
    by repeat split.
  - unfold AliasValidator.validate_collection.
    destruct (find _ (collections data)) as [coll|]; [|by split].
    destruct (modes coll) as [|m0 ms]; [by split|].
    apply validate_fold_partition. by split.
Qed.

(** ** Colour conversion *)

Section Achromatic.

Variables libm_cos libm_sin : float -> float.
Variable libm_pow : float -> float -> float.
Hypothesis cos_finite : libm_finite libm_cos.
Hypothesis sin_finite : libm_finite libm_sin.

Lemma zero_chroma (f : float -> float) (x : float) :
  libm_finite f → F64.is_finite x = true →
  ∃ s, F64.mul F64.zero (f x) = S754_zero s.
Proof.
  intros Hf Hx. specialize (Hf x Hx).
  destruct (f x) as [s|s| |s m e]; try discriminate; simpl; eauto.
Qed.

(** With zero chroma both opponent coordinates are zeros (of either sign),
    and the lightness alone decides the result. *)
Lemma achromatic_convert (L H : float) :
  F64.is_finite (radians H) = true →
  ∃ sa sb,
    Oklch.convert libm_cos libm_sin libm_pow L F64.zero H
    = Py.Ok (Oklch.oklab_to_rgb libm_pow L (S754_zero sa) (S754_zero sb)).
Proof.
  intros Hfin. unfold Oklch.convert, Oklch.oklch_components_to_rgb.
  fold (radians H).
  destruct (zero_chroma libm_cos (radians H) cos_finite Hfin) as [sa Ha].
  destruct (zero_chroma libm_sin (radians H) sin_finite Hfin) as [sb Hb].
  exists sa, sb.
  unfold Oklch.math_cos, Oklch.math_sin.
  destruct (radians H) as [s|s| |s m e]; try discriminate;
    by rewrite Ha, Hb.
Qed.

Lemma black_exact (sa sb : bool) :
  Oklch.oklab_to_rgb libm_pow F64.zero (S754_zero sa) (S754_zero sb)
  = (F64.zero, F64.zero, F64.zero).
Proof. destruct sa, sb; vm_compute; reflexivity. Qed.

Lemma white_below_one (sa sb : bool) :
  Oklch.oklab_to_rgb libm_pow F64.one (S754_zero sa) (S754_zero sb)
  = (below_one, below_one, below_one).
Proof. destruct sa, sb; vm_compute; reflexivity. Qed.

End Achromatic.

(** C7, as the code has it.  For every hue whose value in radians is
    finite, and every C library with finite cosines and sines,
    [convert(0, 0, H)] is exactly [(0, 0, 0)], while [convert(1, 0, H)] is
    [(w, w, w)] for [w = 1.055 * 1.0 - 0.055] evaluated in binary64, the
    float [1 - 2^-53] just below [1.0]; [round(w, 4)] is [1.0]. *)
Theorem achromatic_extremes
    (libm_cos libm_sin : float -> float) (libm_pow : float -> float -> float)
    (H : float) :
  libm_finite libm_cos → libm_finite libm_sin →
  F64.is_finite (radians H) = true →
  Oklch.convert libm_cos libm_sin libm_pow F64.zero F64.zero H
  = Py.Ok (F64.zero, F64.zero, F64.zero)
  ∧ Oklch.convert libm_cos libm_sin libm_pow F64.one F64.zero H
    = Py.Ok (below_one, below_one, below_one)
  ∧ F64.eqb below_one F64.one = false
  ∧ F64.round4 below_one = F64.one.
Proof.
  intros Hcos Hsin Hfin. split; [|split; [|split]].
  - destruct (achromatic_convert libm_cos libm_sin libm_pow Hcos Hsin
                F64.zero H Hfin) as [sa [sb ->]].
    by rewrite black_exact.
  - destruct (achromatic_convert libm_cos libm_sin libm_pow Hcos Hsin
                F64.one H Hfin) as [sa [sb ->]].
    by rewrite white_below_one.
  - vm_compute; reflexivity.
  - vm_compute; reflexivity.
Qed.

(** The two extremes at hue 0, with the stand-in library. *)
Lemma achromatic_extremes_witness :
  Oklch.convert cos_at_zero sin_at_zero pow_unused F64.zero F64.zero F64.zero
  = Py.Ok (F64.zero, F64.zero, F64.zero)
  ∧ Oklch.convert cos_at_zero sin_at_zero pow_unused F64.one F64.zero F64.zero
    = Py.Ok (below_one, below_one, below_one)
  ∧ F64.eqb below_one F64.one = false
  ∧ F64.round4 below_one = F64.one.
Proof.
  apply (achromatic_extremes cos_at_zero sin_at_zero pow_unused F64.zero).
  - intros x _. reflexivity.
  - intros x _. reflexivity.
  - reflexivity.
Defined.

(** C7 as stated fails at lightness 1, chroma 0, hue 0: whatever the C
    library (with finite cosines and sines), each channel of the result is
    the float below [1.0], which [==] tells apart from [1.0]. *)
Lemma white_is_not_exact :
  ∃ w, F64.eqb w F64.one = false
       ∧ ∀ libm_cos libm_sin libm_pow,
           libm_finite libm_cos → libm_finite libm_sin →
           Oklch.convert libm_cos libm_sin libm_pow F64.one F64.zero F64.zero
           = Py.Ok (w, w, w).
Proof.
  exists below_one. split; [reflexivity|].
  intros libm_cos libm_sin libm_pow Hcos Hsin.
  destruct (achromatic_convert libm_cos libm_sin libm_pow Hcos Hsin
              F64.one F64.zero eq_refl) as [sa [sb ->]].
  by rewrite white_below_one.
Qed.

(** A string that parses is converted from its three numbers. *)
Lemma oklch_to_rgb_parsed
    (libm_cos libm_sin : float -> float) (libm_pow : float -> float -> float)
    (s group1 p0 p1 p2 : string) (rest : list string) (l100 C h : float) :
  Oklch.match_oklch s = Some group1 →
  Py.split group1 = p0 :: p1 :: p2 :: rest →
  Py.float_of_string (Py.rstrip "%" p0) = Py.Ok l100 →
  Py.float_of_string p1 = Py.Ok C →
  Py.float_of_string p2 = Py.Ok h →
  Oklch.oklch_to_rgb libm_cos libm_sin libm_pow s
  = Oklch.convert libm_cos libm_sin libm_pow (F64.div l100 (F64.of_Z 100)) C h.
Proof.
  intros Hm Hs H0 H1 H2. unfold Oklch.oklch_to_rgb.
  by rewrite Hm, Hs, H0, H1, H2.
Qed.

(** The two extremes as palette strings: black is exact, white is not. *)
Example oklch_extremes_from_strings
    (libm_cos libm_sin : float -> float) (libm_pow : float -> float -> float) :
  libm_finite libm_cos → libm_finite libm_sin →
  Oklch.oklch_to_rgb libm_cos libm_sin libm_pow "oklch(0% 0 0)"
  = Py.Ok (F64.zero, F64.zero, F64.zero)
  ∧ Oklch.oklch_to_rgb libm_cos libm_sin libm_pow "oklch(100% 0 0)"
    = Py.Ok (below_one, below_one, below_one).
Proof.
  intros Hcos Hsin. split.
  - rewrite (oklch_to_rgb_parsed _ _ _ "oklch(0% 0 0)" "0% 0 0" "0%" "0" "0" []
               F64.zero F64.zero F64.zero) by (vm_compute; reflexivity).
    change (F64.div F64.zero (F64.of_Z 100)) with F64.zero.
    destruct (achromatic_convert libm_cos libm_sin libm_pow Hcos Hsin
                F64.zero F64.zero eq_refl) as [sa [sb ->]].
    by rewrite black_exact.
  - rewrite (oklch_to_rgb_parsed _ _ _ "oklch(100% 0 0)" "100% 0 0" "100%" "0" "0"
               [] (F64.of_Z 100) F64.zero F64.zero) by (vm_compute; reflexivity).
    change (F64.div (F64.of_Z 100) (F64.of_Z 100)) with F64.one.
    destruct (achromatic_convert libm_cos libm_sin libm_pow Hcos Hsin
                F64.one F64.zero eq_refl) as [sa [sb ->]].
    by rewrite white_below_one.
Qed.

(** C8.  ["oklch(a b c)"] has the [oklch(...)] form with three
    parameters, is not numeric, and makes [oklch_to_rgb] raise
    [ValueError] (from [float('a')]) whatever the C library: neither an RGB
    triple nor black is returned. *)
Theorem oklch_to_rgb_raises_on_non_numeric
    (libm_cos libm_sin : float -> float) (libm_pow : float -> float -> float) :
  Oklch.match_oklch "oklch(a b c)" = Some "a b c"
  ∧ Py.split "a b c" = ["a"; "b"; "c"]
  ∧ Py.float_of_string "a" = Py.ValueError
  ∧ Oklch.oklch_to_rgb libm_cos libm_sin libm_pow "oklch(a b c)" = Py.ValueError.
Proof.
  split; [|split; [|split]]; vm_compute; reflexivity.
Qed.

(** ** The resolver on a worked document *)

Lemma theme_index_A : theme_index !! "VariableID:1:1" = Some var_A.
Proof. vm_compute. reflexivity. Qed.

(** Mode ["1:1"] of [A]: the target is absent from the index, and the
    answer is the external-reference failure. *)
Lemma external_reference_not_dereferenced_witness :
  AliasValidator.resolve_alias_chain 1 theme_index "VariableID:1:1" "1:1" ∅
  = Some ((false, None,
           ["Jio/Primary/[Theme] Surface";
            "EXTERNAL_REF: " +:+ "VariableID:abc123/7:9"]),
          {["VariableID:1:1"]} ∪ ∅)
  ∧ "EXTERNAL_REF: " +:+ "VariableID:abc123/7:9"
    ≠ "NOT_FOUND: " +:+ "VariableID:abc123/7:9".
Proof.
  apply (external_reference_not_dereferenced theme_index 0 "VariableID:1:1"
           "1:1" ∅ var_A "VariableID:abc123/7:9").
  - apply not_elem_of_empty.
  - vm_compute. reflexivity.
  - reflexivity.
  - reflexivity.
Defined.

(** Mode ["1:0"] of [A]: the cycle [A -> B -> A]. *)
Lemma cycle_reported_once_witness :
  ∃ chain,
    ("VariableID:1:1" ∉ chain) ∧ NoDup ("VariableID:1:1" :: chain)
    ∧ steps theme_index "1:0" "VariableID:1:1" chain "VariableID:1:1"
    ∧ ∀ fuel, size theme_index < fuel →
        fst <$> AliasValidator.resolve_alias_chain fuel theme_index
                  "VariableID:1:1" "1:0" ∅
        = Some (false, None,
                (name_of theme_index <$> ("VariableID:1:1" :: chain))
                ++ ["CIRCULAR: " +:+ "VariableID:1:1"]).
Proof.
  apply (cycle_reported_once theme_index "1:0" "VariableID:1:1").
  apply (tc_l _ _ "VariableID:1:2").
  - vm_compute. reflexivity.
  - apply tc_once. vm_compute. reflexivity.
Defined.

(** ** Repair passes: what is written, and what is left alone *)

Section Loops.
Context {A S : Type}.

(** A loop whose update of an element does not depend on the counters
    is a [map] on the elements. *)
Lemma for_each_snd (body : S -> A -> S * A) (f : A -> A) :
  (∀ st x, snd (body st x) = f x) →
  ∀ l st, snd (for_each body st l) = map f l.
Proof.
  intros Hbody. induction l as [|x l IH]; intros st; simpl; [done|].
  specialize (Hbody st x).
  destruct (body st x) as [st1 x'].
  specialize (IH st1). destruct (for_each body st1 l) as [st2 l''].
  simpl in *. by rewrite Hbody, IH.
Qed.

Lemma Forall2_map_same (R : A -> A -> Prop) (f : A -> A) (l : list A) :
  (∀ x, x ∈ l → R x (f x)) → Forall2 R l (map f l).
Proof.
  induction l as [|x l IH]; intros HR; simpl; constructor.
  - apply HR. left.
  - apply IH. intros y Hy. apply HR. by right.
Qed.

Lemma Forall2_same (R : A -> A -> Prop) (l : list A) :
  (∀ z, R z z) → Forall2 R l l.
Proof. intros Hrefl. induction l; constructor; auto. Qed.

Lemma Forall2_replace_first (R : A -> A -> Prop) (p : A -> bool) (x y : A)
    (l : list A) :
  (∀ z, R z z) → find p l = Some x → R x y →
  Forall2 R l (replace_first p y l).
Proof.
  intros Hrefl. induction l as [|z l IH]; simpl; [done|].
  destruct (p z) eqn:Hp.
  - intros [= ->] Hxy. constructor; [done|]. by apply Forall2_same.
  - intros Hfind Hxy. constructor; [apply Hrefl|by apply IH].
Qed.

Lemma replace_first_lookup_other (p : A -> bool) (y : A) (l : list A) :
  ∀ i x, l !! i = Some x → p x = false → replace_first p y l !! i = Some x.
Proof.
  induction l as [|z l IH]; intros i x Hi Hp; [done|].
  simpl. destruct i as [|i]; simpl in Hi.
  - injection Hi as ->. by rewrite Hp.
  - destruct (p z); [done|]. simpl. by apply IH.
Qed.

Lemma find_replace_first (p : A -> bool) (x y : A) (l : list A) :
  find p l = Some x → p y = true → find p (replace_first p y l) = Some y.
Proof.
  intros Hfind Hy. induction l as [|z l IH]; simpl in *; [done|].
  destruct (p z) eqn:Hz; simpl.
  - by rewrite Hy.
  - rewrite Hz. by apply IH.
Qed.

Lemma find_satisfies (p : A -> bool) (l : list A) (x : A) :
  find p l = Some x → p x = true.
Proof.
  induction l as [|z l IH]; simpl; [done|].
  destruct (p z) eqn:Hp; [by intros [= <-]|done].
Qed.

End Loops.

Lemma same_identity_refl (v : variable) : same_identity v v.
Proof. by repeat split. Qed.

Lemma collection_frame_refl (R : variable -> variable -> Prop) (c : collection) :
  (∀ v, R v v) → collection_frame R c c.
Proof.
  intros HR. repeat split. by apply Forall2_same.
Qed.

(** *** The white-placeholder pass *)

Section WhitePass.
Variable palettes : list (string * list (string * rgb)).

Lemma fix_mode_value_snd (found : option rgb) (n : nat) (entry : string * value) :
  snd (FixWhite.fix_mode_value found n entry)
  = (let '(mode_id, x) := entry in (mode_id, white_value found x)).
Proof.
  destruct entry as [mode_id [c|id| |ty]]; simpl; try done.
  destruct (FixWhite.is_white c); [|done].
  by destruct found as [[[r g] b]|].
Qed.

Lemma fix_variable_snd (n : nat) (var : variable) :
  snd (FixWhite.fix_variable palettes n var) = white_variable palettes var.
Proof.
  unfold FixWhite.fix_variable, white_variable, white_found.
  pose proof (for_each_snd
                (FixWhite.fix_mode_value
                   (FixWhite.palette_color palettes
                      (FixWhite.extract_color_info_from_name (v_name var))))
                _ (fun st x => fix_mode_value_snd _ st x)
                (valuesByMode var) n) as Hmap.
  destruct (for_each _ n (valuesByMode var)) as [n' vals].
  simpl in *. by rewrite Hmap.
Qed.

Lemma fix_collection_snd (n : nat) (coll : collection) :
  snd (FixWhite.fix_collection palettes n coll) = white_collection palettes coll.
Proof.
  unfold FixWhite.fix_collection, white_collection.
  pose proof (for_each_snd (FixWhite.fix_variable palettes) _
                fix_variable_snd (variables coll) n) as Hmap.
  destruct (for_each _ n (variables coll)) as [n' vars].
  simpl in *. by rewrite Hmap.
Qed.

(** The document after the pass, entry by entry. *)
Lemma fix_all_white_colors_map (data : document) :
  fst (FixWhite.fix_all_white_colors data palettes)
  = Document (map (white_collection palettes) (collections data)).
Proof.
  unfold FixWhite.fix_all_white_colors.
  pose proof (for_each_snd (FixWhite.fix_collection palettes) _
                fix_collection_snd (collections data) 0) as Hmap.
  destruct (for_each _ 0 (collections data)) as [n colls].
  simpl in *. by rewrite Hmap.
Qed.

Lemma white_value_unselected (values : list (string * value)) (found : option rgb) :
  existsb (fun '(_, x) =>
             match x with Direct c => FixWhite.is_white c | _ => false end) values
  && match found with Some _ => true | None => false end = false →
  map (fun '(mode_id, x) => (mode_id, white_value found x)) values = values.
Proof.
  induction values as [|[mode_id x] values IH]; simpl; [done|].
  intros Hsel.
  assert (Hx : white_value found x = x).
  { destruct x as [c| | |]; simpl in *; try done.
    destruct (FixWhite.is_white c); [|done].
    by destruct found as [[[r g] b]|]. }
  rewrite Hx. f_equal. apply IH.
  destruct found; [|by rewrite andb_false_r].
  rewrite andb_true_r in *. by apply orb_false_elim in Hsel as [_ ?].
Qed.

Lemma white_variable_frame (var : variable) :
  same_identity var (white_variable palettes var)
  ∧ (white_selected palettes var = false → white_variable palettes var = var).
Proof.
  split.
  - repeat split. unfold white_variable, Py.keys. simpl.
    rewrite map_map. apply map_ext. by intros [m x].
  - intros Hsel. unfold white_variable.
    rewrite white_value_unselected by exact Hsel. by destruct var.
Qed.

End WhitePass.

(** *** The external-reference passes *)

Lemma overwrite_all_modes_identity (c : color) (v : variable) :
  same_identity v (FixExternal.overwrite_all_modes c v).
Proof.
  repeat split. unfold FixExternal.overwrite_all_modes, Py.keys. simpl.
  rewrite map_map. apply map_ext. by intros [m x].
Qed.

Lemma overwrite_all_modes_holds (c : color) (v : variable) :
  all_modes_hold c v (FixExternal.overwrite_all_modes c v).
Proof.
  split; [apply overwrite_all_modes_identity|].
  unfold FixExternal.overwrite_all_modes. simpl. intros e He.
  apply list_elem_of_In, in_map_iff in He as [[m x] [<- _]]. done.
Qed.

Lemma fix_variable_v1_snd (m : list (string * rgb)) (st : FixExternal.stats)
    (var : variable) :
  snd (FixExternal.fix_variable m st var) = ext_variable m var.
Proof.
  unfold ext_variable, FixExternal.fix_variable.
  destruct (Py.contains "[Semi semantics]" (v_name var)); [done|].
  destruct (negb (FixExternal.has_external (valuesByMode var))); [done|].
  destruct (Py.split_on "/" (v_name var)) as [|a [|b [|w rest]]]; try done.
  destruct (FixExternal.get_rgb_for_variable (v_name var) m) as [[[r g] b']|]; done.
Qed.

Lemma fix_variable_v2_snd (st : FixExternalV2.stats) (var : variable) :
  snd (FixExternalV2.fix_variable st var) = ext_variable_v2 var.
Proof.
  unfold ext_variable_v2, FixExternalV2.fix_variable.
  destruct (Py.contains "[Semi semantics]" (v_name var)); [done|].
  destruct (negb (FixExternal.has_external (valuesByMode var))); [done|].
  destruct (Py.split_on "/" (v_name var)) as [|a [|b [|w rest]]]; try done.
  unfold FixExternalV2.grey.
  destruct (Py.int_of_string b) as [n|];
    [destruct (2100 <=? n)%Z|]; try done;
    destruct (FixExternalV2.get_rgb_for_color a) as [[r g] b']; done.
Qed.

(** Selected variables get one colour in every mode; the others are
    returned as they are. *)
Lemma ext_variable_cases (m : list (string * rgb)) (var : variable) :
  (external_selected var = true
   ∧ ∃ c, ext_variable m var = FixExternal.overwrite_all_modes c var)
  ∨ (external_selected var = false ∧ ext_variable m var = var).
Proof.
  unfold ext_variable, FixExternal.fix_variable, external_selected,
    FixExternal.get_rgb_for_variable.
  destruct (Py.contains "[Semi semantics]" (v_name var)); [by right|].
  destruct (FixExternal.has_external (valuesByMode var)); [|by right].
  destruct (Py.split_on "/" (v_name var)) as [|a [|b [|w rest]]];
    try (by right).
  left. split; [done|].
  destruct (Py.dict_get (a +:+ "/" +:+ b) m) as [[[r g] b']|]; simpl; eauto.
Qed.

Lemma ext_variable_v2_cases (var : variable) :
  (external_selected var = true
   ∧ ∃ c, ext_variable_v2 var = FixExternal.overwrite_all_modes c var)
  ∨ (external_selected var = false ∧ ext_variable_v2 var = var).
Proof.
  unfold ext_variable_v2, FixExternalV2.fix_variable, external_selected.
  destruct (Py.contains "[Semi semantics]" (v_name var)); [by right|].
  destruct (FixExternal.has_external (valuesByMode var)); [|by right].
  destruct (Py.split_on "/" (v_name var)) as [|a [|b [|w rest]]];
    try (by right).
  left. split; [done|].
  unfold FixExternalV2.grey.
  destruct (Py.int_of_string b) as [n|];
    [destruct (2100 <=? n)%Z|];
    try destruct (FixExternalV2.get_rgb_for_color a) as [[r g] b'];
    simpl; eauto.
Qed.

(** The collections after each pass. *)
Lemma fix_external_references_collections (data : document) :
  collections (fst (FixExternal.fix_external_references data))
  = match find FixExternal.is_semi_semantics (collections data) with
    | Some coll =>
        replace_first FixExternal.is_semi_semantics
          (Collection (c_id coll) (c_name coll) (modes coll)
             (map (ext_variable
                     (FixExternal.extract_rgb_values_from_working_vars coll))
                  (variables coll)))
          (collections data)
    | None => collections data
    end.
Proof.
  unfold FixExternal.fix_external_references.
  destruct (find _ (collections data)) as [coll|]; [|done].
  pose proof (for_each_snd
                (FixExternal.fix_variable
                   (FixExternal.extract_rgb_values_from_working_vars coll))
                _ (fix_variable_v1_snd _) (variables coll)
                (FixExternal.Stats 0 0 0 0)) as Hmap.
  destruct (for_each _ _ (variables coll)) as [st vars].
  simpl in *. by rewrite Hmap.
Qed.

Lemma fix_external_references_v2_collections (data : document) :
  collections (fst (FixExternalV2.fix_external_references data))
  = match find FixExternal.is_semi_semantics (collections data) with
    | Some coll =>
        replace_first FixExternal.is_semi_semantics
          (Collection (c_id coll) (c_name coll) (modes coll)
             (map ext_variable_v2 (variables coll)))
          (collections data)
    | None => collections data
    end.
Proof.
  unfold FixExternalV2.fix_external_references.
  destruct (find _ (collections data)) as [coll|]; [|done].
  pose proof (for_each_snd FixExternalV2.fix_variable _ fix_variable_v2_snd
                (variables coll) (FixExternalV2.Stats 0 0 0 0 0)) as Hmap.
  destruct (for_each _ _ (variables coll)) as [st vars].
  simpl in *. by rewrite Hmap.
Qed.

Section FirstSemi.
Variable f : collection -> variable -> variable.
Variable data : document.
Variable out : list collection.
Hypothesis Hout : rewrites_first_semi f data out.

Lemma first_semi_frame (R : collection -> variable -> variable -> Prop) :
  (∀ c v, R c v v) →
  (∀ c v, FixExternal.is_semi_semantics c = true → R c v (f c v)) →
  Forall2 (fun c c' => collection_frame (R c) c c') (collections data) out.
Proof.
  intros Hrefl Hf. rewrite Hout.
  destruct (find _ (collections data)) as [coll|] eqn:Hfind.
  - apply (Forall2_replace_first _ _ coll); [| done |].
    + intros c. by apply collection_frame_refl.
    + repeat split. simpl. apply Forall2_map_same. intros v _.
      apply Hf. by apply find_satisfies in Hfind.
  - apply Forall2_same. intros c. by apply collection_frame_refl.
Qed.

Lemma first_semi_other (i : nat) (c : collection) :
  collections data !! i = Some c →
  FixExternal.is_semi_semantics c = false →
  out !! i = Some c.
Proof.
  intros Hi Hc. rewrite Hout.
  destruct (find _ (collections data)); [|done].
  by apply replace_first_lookup_other.
Qed.

Lemma first_semi_later (i j : nat) (c0 c : collection) :
  j < i → collections data !! j = Some c0 →
  FixExternal.is_semi_semantics c0 = true →
  collections data !! i = Some c → out !! i = Some c.
Proof.
  intros Hji Hj Hc0 Hi. rewrite Hout.
  destruct (find _ (collections data)) as [coll|]; [|done].
  revert i j Hji Hj Hi.
  induction (collections data) as [|z l IH]; intros i j Hji Hj Hi; [done|].
  simpl. destruct (FixExternal.is_semi_semantics z) eqn:Hz.
  - destruct i as [|i]; [lia|]. done.
  - destruct j as [|j]; simpl in Hj.
    + injection Hj as ->. congruence.
    + destruct i as [|i]; [lia|]. simpl in *. apply (IH i j); [lia|done..].
Qed.

Lemma first_semi_found (coll : collection) :
  find FixExternal.is_semi_semantics (collections data) = Some coll →
  ∃ coll', find FixExternal.is_semi_semantics out = Some coll'
           ∧ variables coll' = map (f coll) (variables coll).
Proof.
  intros Hfind. rewrite Hout, Hfind.
  exists (Collection (c_id coll) (c_name coll) (modes coll)
            (map (f coll) (variables coll))).
  split; [|done].
  apply (find_replace_first _ coll); [done|].
  by apply find_satisfies in Hfind.
Qed.

End FirstSemi.

Lemma v1_rewrites_first_semi (data : document) :
  rewrites_first_semi
    (fun coll => ext_variable (FixExternal.extract_rgb_values_from_working_vars coll))
    data (collections (fst (FixExternal.fix_external_references data))).
Proof. apply fix_external_references_collections. Qed.

Lemma v2_rewrites_first_semi (data : document) :
  rewrites_first_semi (fun _ => ext_variable_v2)
    data (collections (fst (FixExternalV2.fix_external_references data))).
Proof. apply fix_external_references_v2_collections. Qed.

Lemma is_semi_semantics_false (c : collection) :
  c_name c ≠ "00_Semi semantics" → FixExternal.is_semi_semantics c = false.
Proof. intros Hne. by apply String.eqb_neq. Qed.

(** C2 as stated fails on [fix_all_white_colors]: ["Grey/2500/Surface"] is
    selected for its white value in mode ["2:0"] and the palette colour is
    written there, yet mode ["2:1"] of the same variable keeps its value. *)
Lemma white_pass_writes_one_mode :
  fst (FixWhite.fix_all_white_colors
         (Document [Collection "VariableCollectionId:2:0" "00_Semi semantics"
                      [Mode "2:0" "Light"; Mode "2:1" "Dark"] [grey_surface]])
         grey_palettes)
  = Document [Collection "VariableCollectionId:2:0" "00_Semi semantics"
                [Mode "2:0" "Light"; Mode "2:1" "Dark"]
                [Variable_ "VariableID:2:1" "Grey/2500/Surface" "COLOR"
                   [("2:0", Direct (Color (F64.dec 12 2) (F64.dec 12 2)
                                          (F64.dec 12 2) F64.one));
                    ("2:1", Direct mid_grey)]]]
  ∧ F64.eqb (F64.dec 12 2) (c_r mid_grey) = false.
Proof. split; vm_compute; reflexivity. Qed.

(** C2, as the code has it.  In both external-reference passes, every
    selected variable of the first ["00_Semi semantics"] collection ends
    with one direct colour in every one of its mode ids.  In the
    white-placeholder pass, which runs over every collection of every
    document, the replacement is per entry: an entry is overwritten
    exactly when it is itself a white direct colour and the palettes hold
    a colour for the variable's name (rounded to four decimals, alpha
    kept), and every other entry keeps its value. *)
Theorem repair_overwrite_scope
    (data : document) (palettes : list (string * list (string * rgb))) :
  (∀ coll,
     find FixExternal.is_semi_semantics (collections data) = Some coll →
     (∃ coll',
        find FixExternal.is_semi_semantics
          (collections (fst (FixExternal.fix_external_references data)))
        = Some coll'
        ∧ Forall2 (fun v v' => external_selected v = true →
                               ∃ c, all_modes_hold c v v')
            (variables coll) (variables coll'))
     ∧ (∃ coll',
          find FixExternal.is_semi_semantics
            (collections (fst (FixExternalV2.fix_external_references data)))
          = Some coll'
          ∧ Forall2 (fun v v' => external_selected v = true →
                                 ∃ c, all_modes_hold c v v')
              (variables coll) (variables coll')))
  ∧ document_frame
      (fun _ v v' =>
         valuesByMode v'
         = map (fun '(mode_id, x) =>
                  (mode_id, white_value (white_found palettes v) x))
               (valuesByMode v))
      data (fst (FixWhite.fix_all_white_colors data palettes)).
Proof.
  split.
  - intros coll Hfind. split.
    + destruct (first_semi_found _ _ _ (v1_rewrites_first_semi data) coll Hfind)
        as [coll' [Hfind' Hvars]].
      exists coll'. split; [done|]. rewrite Hvars.
      apply Forall2_map_same. intros v _ Hsel.
      destruct (ext_variable_cases
                  (FixExternal.extract_rgb_values_from_working_vars coll) v)
        as [[_ [c ->]]|[Hno _]]; [|congruence].
      exists c. apply overwrite_all_modes_holds.
    + destruct (first_semi_found _ _ _ (v2_rewrites_first_semi data) coll Hfind)
        as [coll' [Hfind' Hvars]].
      exists coll'. split; [done|]. rewrite Hvars.
      apply Forall2_map_same. intros v _ Hsel.
      destruct (ext_variable_v2_cases v) as [[_ [c ->]]|[Hno _]]; [|congruence].
      exists c. apply overwrite_all_modes_holds.
  - rewrite fix_all_white_colors_map. unfold document_frame. simpl.
    apply Forall2_map_same. intros c _. repeat split. simpl.
    apply Forall2_map_same. intros v _. reflexivity.
Qed.

(** The three passes on the worked document, whose first
    ["00_Semi semantics"] collection is [semi_collection]. *)
Lemma repair_overwrite_scope_witness :
  ((∃ coll',
      find FixExternal.is_semi_semantics
        (collections (fst (FixExternal.fix_external_references semi_document)))
      = Some coll'
      ∧ Forall2 (fun v v' => external_selected v = true →
                             ∃ c, all_modes_hold c v v')
          (variables semi_collection) (variables coll'))
   ∧ (∃ coll',
        find FixExternal.is_semi_semantics
          (collections (fst (FixExternalV2.fix_external_references semi_document)))
        = Some coll'
        ∧ Forall2 (fun v v' => external_selected v = true →
                               ∃ c, all_modes_hold c v v')
            (variables semi_collection) (variables coll')))
  ∧ document_frame
      (fun _ v v' =>
         valuesByMode v'
         = map (fun '(mode_id, x) =>
                  (mode_id, white_value (white_found grey_palettes v) x))
               (valuesByMode v))
      semi_document
      (fst (FixWhite.fix_all_white_colors semi_document grey_palettes)).
Proof.
  split.
  - apply (proj1 (repair_overwrite_scope semi_document grey_palettes)
             semi_collection).
    reflexivity.
  - apply (proj2 (repair_overwrite_scope semi_document grey_palettes)).
Defined.

(** C6.  After each repair pass the document has the same collections in
    the same order, each with its id, name and modes, and the same
    variables in the same order, each with its id, name, resolved type and
    mode ids; and a variable the pass does not select is returned with its
    values unchanged. *)
Theorem repair_is_value_local
    (data : document) (palettes : list (string * list (string * rgb))) :
  document_frame
    (fun _ v v' =>
       same_identity v v' ∧ (white_selected palettes v = false → v' = v))
    data (fst (FixWhite.fix_all_white_colors data palettes))
  ∧ document_frame
      (fun c v v' =>
         same_identity v v'
         ∧ (FixExternal.is_semi_semantics c = false
            ∨ external_selected v = false → v' = v))
      data (fst (FixExternal.fix_external_references data))
  ∧ document_frame
      (fun c v v' =>
         same_identity v v'
         ∧ (FixExternal.is_semi_semantics c = false
            ∨ external_selected v = false → v' = v))
      data (fst (FixExternalV2.fix_external_references data)).
Proof.
  split; [|split].
  - rewrite fix_all_white_colors_map. unfold document_frame. simpl.
    apply Forall2_map_same. intros c _. repeat split. simpl.
    apply Forall2_map_same. intros v _. apply white_variable_frame.
  - apply (first_semi_frame _ _ _ (v1_rewrites_first_semi data)).
    + intros c v. split; [apply same_identity_refl|done].
    + intros c v Hc.
      destruct (ext_variable_cases
                  (FixExternal.extract_rgb_values_from_working_vars c) v)
        as [[Hsel [col ->]]|[Hsel ->]].
      * split; [apply overwrite_all_modes_identity|].
        intros [H|H]; congruence.
      * split; [apply same_identity_refl|done].
  - apply (first_semi_frame _ _ _ (v2_rewrites_first_semi data)).
    + intros c v. split; [apply same_identity_refl|done].
    + intros c v Hc.
      destruct (ext_variable_v2_cases v) as [[Hsel [col ->]]|[Hsel ->]].
      * split; [apply overwrite_all_modes_identity|].
        intros [H|H]; congruence.
      * split; [apply same_identity_refl|done].
Qed.

Lemma first_semi_scope (f : collection -> variable -> variable)
    (data : document) (out : list collection) :
  rewrites_first_semi f data out →
  (∀ c v, external_selected v = false → f c v = v) →
  external_scope data out.
Proof.
  intros Hout Hf. split; [|split].
  - intros i c Hi Hname.
    apply (first_semi_other f data out Hout i c Hi).
    by apply is_semi_semantics_false.
  - intros i j c0 c Hji Hj Hname Hi.
    apply (first_semi_later f data out Hout i j c0 c Hji Hj); [|done].
    unfold FixExternal.is_semi_semantics. rewrite Hname. reflexivity.
  - apply (first_semi_frame f data out Hout); [done|].
    intros c v _ Hskip. apply Hf. unfold external_selected.
    by rewrite Hskip.
Qed.

(** C10.  Both versions of the external-reference pass examine only the
    first collection named ["00_Semi semantics"] and skip its variables
    whose name contains ["[Semi semantics]"]: every other collection, and
    every such variable, comes out exactly as it went in. *)
Theorem external_repair_scope (data : document) :
  external_scope data
    (collections (fst (FixExternal.fix_external_references data)))
  ∧ external_scope data
      (collections (fst (FixExternalV2.fix_external_references data))).
Proof.
  split.
  - apply (first_semi_scope _ _ _ (v1_rewrites_first_semi data)).
    intros c v Hsel.
    destruct (ext_variable_cases
                (FixExternal.extract_rgb_values_from_working_vars c) v)
      as [[Hyes _]|[_ ->]]; [congruence|done].
  - apply (first_semi_scope _ _ _ (v2_rewrites_first_semi data)).
    intros c v Hsel.
    destruct (ext_variable_v2_cases v) as [[Hyes _]|[_ ->]]; [congruence|done].
Qed.

(** ** Sibling branches of a trace *)

Section TraceBranches.
Import DeepTrace.

Variable idx : gmap string indexed_variable.

Lemma trace_modes_enough (n : nat) (visited : gset string)
    (values : list (string * value)) :
  (∀ t, ∃ out, ∀ fuel, n < fuel →
     trace_complete_chain fuel t idx visited = Some out) →
  ∀ ms acc, ∃ res, ∀ fuel, n < fuel →
    foldl (trace_mode (fun t => trace_complete_chain fuel t idx visited)
             idx values) (Some acc) ms = Some res.
Proof.
  intros Hsub. induction ms as [|m ms IH]; intros [vals tail].
  - exists (vals, tail). done.
  - destruct (Py.dict_get (modeId m) values) as [[c|t| |ty]|] eqn:Hval.
    2:{ destruct (Hsub t) as [out Hout].
        destruct (IH (Py.dict_set (m_name m)
                        (LinkAlias t
                           match idx !! t with
                           | Some tv => v_name (iv_var tv)
                           | None => "Unknown"
                           end) vals, tail ++ out)) as [res Hres].
        exists res. intros fuel Hf. simpl. rewrite Hval, (Hout fuel Hf).
        by apply Hres. }
    1:{ destruct (IH (Py.dict_set (m_name m) (LinkColor (rgba_text c)) vals, tail))
          as [res Hres].
        exists res. intros fuel Hf. simpl. rewrite Hval. by apply Hres. }
    all: destruct (IH (vals, tail)) as [res Hres];
      exists res; intros fuel Hf; simpl; rewrite Hval; by apply Hres.
Qed.

(** With more fuel than unvisited indexed ids the trace returns, and what
    it returns does not depend on the fuel. *)
Lemma trace_fuel_enough (n : nat) :
  ∀ (v : string) (visited : gset string),
    size (dom idx ∖ visited) ≤ n →
    ∃ out, ∀ fuel, n < fuel →
      trace_complete_chain fuel v idx visited = Some out.
Proof.
  induction n as [|n IH]; intros v visited Hsize.
  - destruct (decide (v ∈ visited)) as [Hv|Hv].
    + exists []. positive_fuel. by rewrite decide_True.
    + destruct (idx !! v) as [var|] eqn:Hlk.
      * rewrite (unvisited_decreases idx v visited) in Hsize by eauto. lia.
      * exists []. positive_fuel.
        rewrite decide_False by done. by rewrite Hlk.
  - destruct (decide (v ∈ visited)) as [Hv|Hv].
    { exists []. positive_fuel. by rewrite decide_True. }
    destruct (idx !! v) as [var|] eqn:Hlk.
    2:{ exists []. positive_fuel.
        rewrite decide_False by done. by rewrite Hlk. }
    destruct (trace_modes_enough n ({[v]} ∪ visited)
                (valuesByMode (iv_var var))) with (ms := iv_modes var)
      (acc := (@nil (string * link_value), @nil link)) as [[vals tail] Hres].
    { intros t. apply IH.
      rewrite (unvisited_decreases idx v visited) in Hsize by eauto. lia. }
    eexists. positive_fuel.
    rewrite decide_False by done. rewrite Hlk, Hres by lia. reflexivity.
Qed.

Lemma trace_of_spec (visited : gset string) (t : string) (fuel : nat) :
  size idx < fuel →
  trace_complete_chain fuel t idx visited = Some (trace_of idx visited t).
Proof.
  intros Hf.
  destruct (trace_fuel_enough (size idx) t visited) as [out Hout].
  { apply size_dom_difference_le. }
  unfold trace_of. rewrite (Hout (S (size idx))) by lia. by apply Hout.
Qed.

Lemma trace_modes_none (trace : string -> option (list link))
    (values : list (string * value)) (ms : list mode) :
  foldl (trace_mode trace idx values) None ms = None.
Proof. induction ms; simpl; auto. Qed.

(** The part of the chain after its head is the concatenation of what the
    modes contribute, each computed from the same visited set. *)
Lemma trace_modes_shape (trace : string -> option (list link))
    (values : list (string * value)) (ms : list mode) :
  ∀ vals tail vals' tail',
    foldl (trace_mode trace idx values) (Some (vals, tail)) ms
    = Some (vals', tail') →
    tail' = tail ++ flat_map
              (fun m => match Py.dict_get (modeId m) values with
                        | Some (VariableAlias t) => default [] (trace t)
                        | _ => []
                        end) ms.
Proof.
  induction ms as [|m ms IH]; intros vals tail vals' tail'; simpl.
  - intros [= _ ->]. by rewrite app_nil_r.
  - destruct (Py.dict_get (modeId m) values) as [[c|t| |ty]|];
      try (intros Hf; apply IH in Hf; by rewrite Hf).
    destruct (trace t) as [sub|].
    + intros Hf. apply IH in Hf. rewrite Hf. simpl. by rewrite app_assoc.
    + by rewrite trace_modes_none.
Qed.

(** One unfolding of the trace at an indexed, unvisited id. *)
Lemma trace_unfold (fuel : nat) (v : string) (visited : gset string)
    (var : indexed_variable) :
  idx !! v = Some var → v ∉ visited →
  trace_complete_chain (S fuel) v idx visited
  = match foldl (trace_mode
                   (fun t => trace_complete_chain fuel t idx ({[v]} ∪ visited))
                   idx (valuesByMode (iv_var var)))
                (Some ([], [])) (iv_modes var) with
    | Some (vals, tail) =>
        Some (Link v (v_name (iv_var var)) (iv_collection_name var)
                (iv_collection_id var) (resolvedType (iv_var var)) vals :: tail)
    | None => None
    end.
Proof.
  intros Hlk Hv. simpl. rewrite decide_False by done. by rewrite Hlk.
Qed.

(** The head of a variable's chain and the contributions of its modes. *)
Lemma trace_head_and_branches (v : string) (visited : gset string)
    (var : indexed_variable) :
  idx !! v = Some var → v ∉ visited →
  ∃ vals, ∀ fuel, size idx < fuel →
    trace_complete_chain fuel v idx visited
    = Some (Link v (v_name (iv_var var)) (iv_collection_name var)
              (iv_collection_id var) (resolvedType (iv_var var)) vals
            :: flat_map (branch idx ({[v]} ∪ visited) var) (iv_modes var)).
Proof.
  intros Hlk Hv.
  destruct (trace_fuel_enough (size idx) v visited) as [out Hout].
  { apply size_dom_difference_le. }
  pose proof (Hout (S (S (size idx))) ltac:(lia)) as Hrun.
  rewrite (trace_unfold (S (size idx)) v visited var Hlk Hv) in Hrun.
  destruct (foldl _ _ (iv_modes var)) as [[vals tail]|] eqn:Hfold; [|done].
  injection Hrun as <-.
  apply trace_modes_shape in Hfold. simpl in Hfold. subst tail.
  exists vals. intros fuel Hf. by rewrite (Hout fuel Hf).
Qed.

End TraceBranches.

(** C5.  In [trace_complete_chain] every mode of a variable is traced from
    the same visited set, the ancestors of the branch: the chain of [v] is
    its head followed by what each mode contributes on its own, and a
    target [t] that is indexed and is not an ancestor is traced in every
    mode that aliases it (its own link heads the contribution), so a
    variable met once in each of two sibling branches is not cut as a
    cycle.  The validator makes no copy: a call adds to the one set it is
    given and hands that same set to the call on the alias target, so the
    set the caller holds afterwards contains [t] too, and a resolution of
    the other mode made on it is answered [CIRCULAR].  Its resolutions are
    independent only because each call with the default [visited] starts
    from its own empty set: when two modes of [v] alias the same [t] and
    [t] holds a colour in both, both resolutions pass through [t] and
    succeed. *)
Theorem sibling_branches_independent
    (tidx : gmap string DeepTrace.indexed_variable)
    (idx : gmap string variable)
    (v t m1 m2 : string) (visited : gset string)
    (tvar : DeepTrace.indexed_variable) (ttarget : DeepTrace.indexed_variable)
    (var target : variable) (c1 c2 : color) :
  tidx !! v = Some tvar → v ∉ visited →
  tidx !! t = Some ttarget → t ∉ ({[v]} ∪ visited : gset string) →
  idx !! v = Some var → idx !! t = Some target → v ≠ t →
  Py.contains "/" t = false →
  Py.dict_get m1 (valuesByMode var) = Some (VariableAlias t) →
  Py.dict_get m2 (valuesByMode var) = Some (VariableAlias t) →
  Py.dict_get m1 (valuesByMode target) = Some (Direct c1) →
  Py.dict_get m2 (valuesByMode target) = Some (Direct c2) →
  (∃ vals, ∀ fuel, size tidx < fuel →
     DeepTrace.trace_complete_chain fuel v tidx visited
     = Some (DeepTrace.Link v (v_name (DeepTrace.iv_var tvar))
               (DeepTrace.iv_collection_name tvar)
               (DeepTrace.iv_collection_id tvar)
               (resolvedType (DeepTrace.iv_var tvar)) vals
             :: flat_map (branch tidx ({[v]} ∪ visited) tvar)
                  (DeepTrace.iv_modes tvar)))
  ∧ (∃ vals rest,
       trace_of tidx ({[v]} ∪ visited) t
       = DeepTrace.Link t (v_name (DeepTrace.iv_var ttarget))
           (DeepTrace.iv_collection_name ttarget)
           (DeepTrace.iv_collection_id ttarget)
           (resolvedType (DeepTrace.iv_var ttarget)) vals
         :: rest)
  ∧ AliasValidator.resolve idx v m1 = (true, Some c1, [v_name var; v_name target])
  ∧ AliasValidator.resolve idx v m2 = (true, Some c2, [v_name var; v_name target])
  ∧ (∀ fuel,
       AliasValidator.resolve_alias_chain (S (S fuel)) idx v m1 ∅
       = Some ((true, Some c1, [v_name var; v_name target]),
               {[t]} ∪ ({[v]} ∪ ∅))
       ∧ AliasValidator.resolve_alias_chain (S (S fuel)) idx v m2
           ({[t]} ∪ ({[v]} ∪ ∅))
         = Some ((false, None, ["CIRCULAR: " +:+ v]), {[t]} ∪ ({[v]} ∪ ∅))).
Proof.
  intros Htv Hv Htt Ht Hiv Hit Hne Hext Hm1 Hm2 Hc1 Hc2.
  split; [by apply trace_head_and_branches|].
  assert (Hshared : ∀ fuel,
            AliasValidator.resolve_alias_chain (S (S fuel)) idx v m1 ∅
            = Some ((true, Some c1, [v_name var; v_name target]),
                    {[t]} ∪ ({[v]} ∪ ∅))
            ∧ AliasValidator.resolve_alias_chain (S (S fuel)) idx v m2
                ({[t]} ∪ ({[v]} ∪ ∅))
              = Some ((false, None, ["CIRCULAR: " +:+ v]),
                      {[t]} ∪ ({[v]} ∪ ∅))).
  { intros fuel. split.
    - cbn [AliasValidator.resolve_alias_chain].
      rewrite decide_False by apply not_elem_of_empty.
      rewrite Hiv, Hm1, Hext.
      rewrite decide_False.
      2:{ rewrite elem_of_union, elem_of_singleton.
          intros [?|Hin]; [done|]. by apply not_elem_of_empty in Hin. }
      by rewrite Hit, Hc1.
    - cbn [AliasValidator.resolve_alias_chain].
      rewrite decide_True; [done|].
      apply elem_of_union. right. apply elem_of_union. left.
      by apply elem_of_singleton. }
  split.
  - destruct (trace_head_and_branches tidx t ({[v]} ∪ visited) ttarget Htt Ht)
      as [vals Hrun].
    exists vals. eexists.
    pose proof (Hrun (S (size tidx)) ltac:(lia)) as Hone.
    unfold trace_of. rewrite Hone. reflexivity.
  - assert (Hres : ∀ m c,
              Py.dict_get m (valuesByMode var) = Some (VariableAlias t) →
              Py.dict_get m (valuesByMode target) = Some (Direct c) →
              AliasValidator.resolve idx v m
              = (true, Some c, [v_name var; v_name target])).
    { intros m c Hm Hc.
      destruct (resolve_spec idx v m) as [vis Hspec].
      pose proof (Hspec (S (S (size idx))) ltac:(lia)) as Hrun.
      cbn [AliasValidator.resolve_alias_chain] in Hrun.
      rewrite decide_False in Hrun by apply not_elem_of_empty.
      rewrite Hiv, Hm, Hext in Hrun.
      rewrite decide_False in Hrun.
      2:{ rewrite elem_of_union, elem_of_singleton.
          intros [?|Hin]; [done|]. by apply not_elem_of_empty in Hin. }
      rewrite Hit, Hc in Hrun. simpl in Hrun. by injection Hrun as <-. }
    split; [by apply Hres|]. split; [by apply Hres|]. exact Hshared.
Qed.

(** The brand variable: both of its modes reach the theme variable. *)
Lemma sibling_branches_independent_witness :
  (∃ vals, ∀ fuel, size brand_trace_index < fuel →
     DeepTrace.trace_complete_chain fuel "VariableID:3:1" brand_trace_index ∅
     = Some (DeepTrace.Link "VariableID:3:1"
               (v_name (DeepTrace.iv_var (indexed brand_surface)))
               (DeepTrace.iv_collection_name (indexed brand_surface))
               (DeepTrace.iv_collection_id (indexed brand_surface))
               (resolvedType (DeepTrace.iv_var (indexed brand_surface))) vals
             :: flat_map (branch brand_trace_index ({["VariableID:3:1"]} ∪ ∅)
                            (indexed brand_surface))
                  (DeepTrace.iv_modes (indexed brand_surface))))
  ∧ (∃ vals rest,
       trace_of brand_trace_index ({["VariableID:3:1"]} ∪ ∅) "VariableID:3:2"
       = DeepTrace.Link "VariableID:3:2"
           (v_name (DeepTrace.iv_var (indexed theme_surface)))
           (DeepTrace.iv_collection_name (indexed theme_surface))
           (DeepTrace.iv_collection_id (indexed theme_surface))
           (resolvedType (DeepTrace.iv_var (indexed theme_surface))) vals
         :: rest)
  ∧ AliasValidator.resolve brand_index "VariableID:3:1" "3:0"
    = (true, Some mid_grey, [v_name brand_surface; v_name theme_surface])
  ∧ AliasValidator.resolve brand_index "VariableID:3:1" "3:1"
    = (true, Some white, [v_name brand_surface; v_name theme_surface])
  ∧ (∀ fuel,
       AliasValidator.resolve_alias_chain (S (S fuel)) brand_index
         "VariableID:3:1" "3:0" ∅
       = Some ((true, Some mid_grey, [v_name brand_surface; v_name theme_surface]),
               {["VariableID:3:2"]} ∪ ({["VariableID:3:1"]} ∪ ∅))
       ∧ AliasValidator.resolve_alias_chain (S (S fuel)) brand_index
           "VariableID:3:1" "3:1"
           ({["VariableID:3:2"]} ∪ ({["VariableID:3:1"]} ∪ ∅))
         = Some ((false, None, ["CIRCULAR: " +:+ "VariableID:3:1"]),
                 {["VariableID:3:2"]} ∪ ({["VariableID:3:1"]} ∪ ∅))).
Proof.
  apply (sibling_branches_independent brand_trace_index brand_index
           "VariableID:3:1" "VariableID:3:2" "3:0" "3:1" ∅
           (indexed brand_surface) (indexed theme_surface)
           brand_surface theme_surface mid_grey white).
  - vm_compute. reflexivity.
  - apply not_elem_of_empty.
  - vm_compute. reflexivity.
  - apply not_elem_of_union. split.
    + apply not_elem_of_singleton. discriminate.
    + apply not_elem_of_empty.
  - vm_compute. reflexivity.
  - vm_compute. reflexivity.
  - discriminate.
  - reflexivity.
  - reflexivity.
  - reflexivity.
  - reflexivity.
  - reflexivity.
Defined.

(** The chain of the brand variable: its link, then the theme variable
    once for each of the two modes. *)
Example brand_trace_ids :
  map DeepTrace.l_id (trace_of brand_trace_index ∅ "VariableID:3:1")
  = ["VariableID:3:1"; "VariableID:3:2"; "VariableID:3:2"].
Proof. vm_compute. reflexivity. Qed.

(** The claim that every recursive branch works on a fresh copy fails on
    the validator.  Resolving the brand variable in mode ["3:0"] leaves the
    theme variable, which the recursive call visited, in the caller's set;
    the resolution of mode ["3:1"] made on that set is answered
    [CIRCULAR], although from an empty set it reaches the same theme
    variable once and succeeds. *)
Lemma validator_shares_visited_set :
  AliasValidator.resolve_alias_chain 3 brand_index "VariableID:3:1" "3:0" ∅
  = Some ((true, Some mid_grey, [v_name brand_surface; v_name theme_surface]),
          {["VariableID:3:2"]} ∪ ({["VariableID:3:1"]} ∪ ∅))
  ∧ AliasValidator.resolve_alias_chain 3 brand_index "VariableID:3:1" "3:1"
      ({["VariableID:3:2"]} ∪ ({["VariableID:3:1"]} ∪ ∅))
    = Some ((false, None, ["CIRCULAR: VariableID:3:1"]),
            {["VariableID:3:2"]} ∪ ({["VariableID:3:1"]} ∪ ∅))
  ∧ AliasValidator.resolve_alias_chain 3 brand_index "VariableID:3:1" "3:1" ∅
    = Some ((true, Some white, [v_name brand_surface; v_name theme_surface]),
            {["VariableID:3:2"]} ∪ ({["VariableID:3:1"]} ∪ ∅)).
Proof. repeat split; vm_compute; reflexivity. Qed.

(** ** The passes on the worked documents *)

(** Two variables aliasing each other in the first mode are both counted
    as broken and circular. *)
Example theme_validation :
  AliasValidator.validate_collection theme_document "9 Theme"
  = AliasValidator.Report "9 Theme" 2 0 2 2 0 0 0
      [("Jio/Primary/[Theme] Surface",
        "Jio/Primary/[Theme] Surface -> Jio/Secondary/[Theme] Surface"
        +:+ " -> CIRCULAR: VariableID:1:1");
       ("Jio/Secondary/[Theme] Surface",
        "Jio/Secondary/[Theme] Surface -> Jio/Primary/[Theme] Surface"
        +:+ " -> CIRCULAR: VariableID:1:2")]
      None.
Proof. vm_compute. reflexivity. Qed.

(** Version 1 writes the colour of the working ["Indigo/1000"] variable,
    with the alpha of ["Bold"], into both modes of ["Indigo/1000/Bold"];
    the other variables keep their values. *)
Example semi_document_repaired :
  map valuesByMode
    (flat_map variables
       (filter (fun c => FixExternal.is_semi_semantics c)
          (collections (fst (FixExternal.fix_external_references semi_document)))))
  = [valuesByMode grey_surface;
     [("2:0", Direct (Color (F64.dec 5 1) (F64.dec 5 1) (F64.dec 5 1) (F64.dec 92 2)));
      ("2:1", Direct (Color (F64.dec 5 1) (F64.dec 5 1) (F64.dec 5 1) (F64.dec 92 2)))];
     valuesByMode indigo_working].
Proof. vm_compute. reflexivity. Qed.

(** Version 2 writes the fixed colour of ['Indigo'] instead. *)
Example semi_document_repaired_v2 :
  map valuesByMode
    (flat_map variables
       (filter (fun c => FixExternal.is_semi_semantics c)
          (collections (fst (FixExternalV2.fix_external_references semi_document)))))
  = [valuesByMode grey_surface;
     [("2:0", Direct (Color (F64.dec 40 3) (F64.dec 0 3) (F64.dec 200 3) (F64.dec 92 2)));
      ("2:1", Direct (Color (F64.dec 40 3) (F64.dec 0 3) (F64.dec 200 3) (F64.dec 92 2)))];
     valuesByMode indigo_working].
Proof. vm_compute. reflexivity. Qed.

(** The statistics both versions return for that document. *)
Example semi_document_stats :
  snd (FixExternal.fix_external_references semi_document)
  = FixExternal.Stats 3 1 2 0
  ∧ snd (FixExternalV2.fix_external_references semi_document)
    = FixExternalV2.Stats 3 1 2 1 0.
Proof. split; vm_compute; reflexivity. Qed.

(** * Further properties of the scripts *)

(** ** The id index *)

Section IndexFacts.

(** The variable index is one pass of inserts over all the variables. *)
Lemma build_lookups_fold (colls : list collection) :
  ∀ (vars : gmap string variable) (cs : gmap string collection),
    fst (foldl (fun '(vars, colls) coll =>
                  (foldl (fun vars v => <[v_id v := v]> vars) vars (variables coll),
                   <[c_id coll := coll]> colls))
               (vars, cs) colls)
    = foldl index_insert vars (flat_map variables colls).
Proof.
  induction colls as [|c colls IH]; intros vars cs; simpl; [done|].
  rewrite IH. by rewrite foldl_app.
Qed.

Lemma variables_by_id_fold (data : document) :
  AliasValidator.variables_by_id data
  = foldl index_insert ∅ (all_variables data).
Proof. apply build_lookups_fold. Qed.

Lemma index_fold_sound (l : list variable) :
  ∀ k v, foldl index_insert ∅ l !! k = Some v → v_id v = k ∧ v ∈ l.
Proof.
  induction l as [|x l IH] using rev_ind; intros k v.
  - simpl. by rewrite lookup_empty.
  - rewrite foldl_app. simpl. unfold index_insert at 1.
    destruct (decide (v_id x = k)) as [<-|Hne].
    + rewrite lookup_insert_eq. intros [= <-]. split; [done|].
      apply elem_of_app. right. left.
    + rewrite lookup_insert_ne by done. intros Hlk.
      destruct (IH k v Hlk) as [? ?]. split; [done|].
      apply elem_of_app. by left.
Qed.

Lemma index_fold_complete (l : list variable) :
  ∀ v, v ∈ l → is_Some (foldl index_insert ∅ l !! v_id v).
Proof.
  induction l as [|x l IH] using rev_ind; intros v Hv.
  - by apply elem_of_nil in Hv.
  - rewrite foldl_app. simpl. unfold index_insert at 1.
    destruct (decide (v_id x = v_id v)) as [->|Hne].
    + rewrite lookup_insert_eq. eauto.
    + rewrite lookup_insert_ne by done.
      apply elem_of_app in Hv as [Hv|Hv]; [by apply IH|].
      apply list_elem_of_singleton in Hv. by subst.
Qed.

Lemma index_fold_unique (l : list variable) :
  NoDup (map v_id l) →
  ∀ v, v ∈ l → foldl index_insert ∅ l !! v_id v = Some v.
Proof.
  induction l as [|x l IH] using rev_ind; intros Hnd v Hv.
  - by apply elem_of_nil in Hv.
  - rewrite foldl_app. simpl. unfold index_insert at 1.
    rewrite map_app in Hnd. apply NoDup_app in Hnd as [Hl [Hdisj _]].
    apply elem_of_app in Hv as [Hv|Hv].
    + rewrite lookup_insert_ne; [by apply IH|].
      intros Heq. apply (Hdisj (v_id v)).
      * apply list_elem_of_In, in_map, list_elem_of_In. done.
      * simpl. rewrite Heq. left.
    + apply list_elem_of_singleton in Hv. subst. apply lookup_insert_eq.
Qed.

Lemma index_fold_size (l : list variable) :
  size (foldl index_insert ∅ l) ≤ length l.
Proof.
  induction l as [|x l IH] using rev_ind; [simpl; by rewrite map_size_empty|].
  rewrite foldl_app, length_app. simpl. unfold index_insert at 1.
  destruct (foldl index_insert ∅ l !! v_id x) eqn:Hlk.
  - rewrite map_size_insert_Some by eauto. lia.
  - rewrite map_size_insert_None by done. lia.
Qed.

(** A later variable with the same id overwrites the earlier one. *)
Lemma index_fold_last (l : list variable) (k : string) :
  foldl index_insert ∅ l !! k
  = last (List.filter (fun v => String.eqb (v_id v) k) l).
Proof.
  induction l as [|x l IH] using rev_ind; [done|].
  rewrite foldl_app, List.filter_app. cbn [foldl List.filter].
  unfold index_insert at 1.
  destruct (String.eqb_spec (v_id x) k) as [<-|Hne].
  - rewrite lookup_insert_eq. by rewrite last_snoc.
  - rewrite lookup_insert_ne by done. by rewrite app_nil_r.
Qed.

End IndexFacts.

(** X1.  The id index of the validator holds exactly the variables of the
    document: an entry found under a key is a variable of some collection
    whose id is that key; every variable's id is indexed; when the ids of
    the document are pairwise distinct each id yields its own variable; the
    index never has more entries than the document has variables; and
    under every key it holds the last variable of the document with that
    id, a repeated id keeping the last variable only. *)
Theorem variables_by_id_covers (data : document) :
  (∀ k v, AliasValidator.variables_by_id data !! k = Some v →
          v_id v = k ∧ ∃ coll, coll ∈ collections data ∧ v ∈ variables coll)
  ∧ (∀ coll v, coll ∈ collections data → v ∈ variables coll →
               is_Some (AliasValidator.variables_by_id data !! v_id v))
  ∧ (NoDup (map v_id (all_variables data)) →
     ∀ coll v, coll ∈ collections data → v ∈ variables coll →
               AliasValidator.variables_by_id data !! v_id v = Some v)
  ∧ size (AliasValidator.variables_by_id data) ≤ length (all_variables data)
  ∧ (∀ k, AliasValidator.variables_by_id data !! k
          = last (List.filter (fun v => String.eqb (v_id v) k)
                              (all_variables data))).
Proof.
  rewrite variables_by_id_fold.
  assert (Hin : ∀ coll v, coll ∈ collections data → v ∈ variables coll →
                          v ∈ all_variables data).
  { intros coll v Hc Hv. apply list_elem_of_In, in_flat_map.
    exists coll. split; by apply list_elem_of_In. }
  split; [|split; [|split; [|split]]].
  - intros k v Hlk. destruct (index_fold_sound _ k v Hlk) as [Hk Hv].
    split; [done|].
    apply list_elem_of_In, in_flat_map in Hv as [coll [Hc Hv]].
    exists coll. split; by apply list_elem_of_In.
  - intros coll v Hc Hv. apply index_fold_complete. by eapply Hin.
  - intros Hnd coll v Hc Hv. apply index_fold_unique; [done|]. by eapply Hin.
  - apply index_fold_size.
  - intros k. apply index_fold_last.
Qed.

(** ** Successful resolutions *)

Section ResolveSuccess.
Import AliasValidator.

Variable idx : gmap string variable.
Variable mode_id : string.

Lemma resolve_big_fuel (v : string) (fuel : nat) :
  size idx < fuel →
  fst <$> resolve_alias_chain fuel idx v mode_id ∅ = Some (resolve idx v mode_id).
Proof.
  intros Hf. destruct (resolve_spec idx v mode_id) as [vis Hspec].
  by rewrite (Hspec fuel Hf).
Qed.

(** A success does not depend on ids that were put in the visited set
    without being on the chain: it survives a smaller set. *)
Lemma resolve_success_subset (fuel : nat) :
  ∀ x (visited visited' : gset string) fv p vis,
    visited ⊆ visited' →
    resolve_alias_chain fuel idx x mode_id visited' = Some ((true, fv, p), vis) →
    fst <$> resolve_alias_chain fuel idx x mode_id visited = Some (true, fv, p).
Proof.
  induction fuel as [|fuel IH]; intros x visited visited' fv p vis Hsub; [done|].
  cbn [resolve_alias_chain].
  destruct (decide (x ∈ visited')) as [|Hx']; [done|].
  rewrite decide_False by (intros Hx; apply Hx'; by apply Hsub).
  destruct (idx !! x) as [var|]; [|done].
  destruct (Py.dict_get mode_id (valuesByMode var)) as [[c|y| |ty]|]; try done.
  - by intros [= <- <- <-].
  - destruct (Py.contains "/" y); [done|].
    destruct (resolve_alias_chain fuel idx y mode_id ({[x]} ∪ visited'))
      as [[[[s fv'] sub] vis']|] eqn:Hcall; [|done].
    intros [= -> <- <- <-].
    assert (Hsub' : ({[x]} ∪ visited : gset string) ⊆ {[x]} ∪ visited').
    { apply elem_of_subseteq. intros z. rewrite !elem_of_union.
      intros [?|?]; [by left|right; by apply Hsub]. }
    pose proof (IH y _ _ _ _ _ Hsub' Hcall) as Hrec.
    destruct (resolve_alias_chain fuel idx y mode_id ({[x]} ∪ visited))
      as [[[[s2 fv2] sub2] vis2]|]; [|done].
    simpl in *. by injection Hrec as -> -> ->.
Qed.

(** A success from [x] cannot have walked through a variable [v] that
    aliases an id already behind it, so it survives adding [v] to the
    visited set. *)
Lemma resolve_success_add (v t : string) (fuel : nat) :
  alias_step idx mode_id v t →
  ∀ x (visited : gset string) fv p vis,
    t ∈ ({[x]} ∪ visited : gset string) →
    resolve_alias_chain fuel idx x mode_id visited = Some ((true, fv, p), vis) →
    fst <$> resolve_alias_chain fuel idx x mode_id ({[v]} ∪ visited)
    = Some (true, fv, p).
Proof.
  intros Hvt. induction fuel as [|fuel IH]; intros x visited fv p vis Ht; [done|].
  destruct (decide (x ∈ visited)) as [Hx|Hx].
  { cbn [resolve_alias_chain]. by rewrite decide_True. }
  destruct (decide (x = v)) as [->|Hne].
  - rewrite (resolve_alias_link idx mode_id v t visited fuel Hvt Hx).
    destruct fuel as [|fuel]; [done|].
    cbn [resolve_alias_chain]. by rewrite decide_True.
  - cbn [resolve_alias_chain]. rewrite decide_False by done.
    rewrite decide_False.
    2:{ rewrite elem_of_union, elem_of_singleton. by intros [?|?]. }
    destruct (idx !! x) as [var|]; [|done].
    destruct (Py.dict_get mode_id (valuesByMode var)) as [[c|y| |ty]|]; try done.
    + by intros [= <- <- <-].
    + destruct (Py.contains "/" y); [done|].
      destruct (resolve_alias_chain fuel idx y mode_id ({[x]} ∪ visited))
        as [[[[s fv'] sub] vis']|] eqn:Hcall; [|done].
      intros [= -> <- <- <-].
      assert (Hty : t ∈ ({[y]} ∪ ({[x]} ∪ visited) : gset string)).
      { apply elem_of_union. by right. }
      pose proof (IH y _ _ _ _ Hty Hcall) as Hrec.
      assert (Hset : ({[x]} ∪ ({[v]} ∪ visited) : gset string)
                     = {[v]} ∪ ({[x]} ∪ visited)).
      { apply set_eq. intros z. rewrite !elem_of_union. tauto. }
      rewrite Hset.
      destruct (resolve_alias_chain fuel idx y mode_id
                  ({[v]} ∪ ({[x]} ∪ visited)))
        as [[[[s2 fv2] sub2] vis2]|]; [|done].
      simpl in *. by injection Hrec as -> -> ->.
Qed.

(** Resolving an alias is resolving its target, with one more name. *)
Lemma resolve_alias_compose (v t : string) (fv : option color) (p : list string) :
  alias_step idx mode_id v t →
  resolve idx t mode_id = (true, fv, p) →
  resolve idx v mode_id = (true, fv, name_of idx v :: p).
Proof.
  intros Hvt Ht.
  pose proof (resolve_big_fuel t (S (size idx)) ltac:(lia)) as Hrun.
  rewrite Ht in Hrun.
  destruct (resolve_alias_chain (S (size idx)) idx t mode_id ∅)
    as [[[[s fv'] sub] vis]|] eqn:Hcall; [|done].
  simpl in Hrun. injection Hrun as -> -> ->.
  assert (Hin : t ∈ ({[t]} ∪ ∅ : gset string)).
  { apply elem_of_union. left. by apply elem_of_singleton. }
  pose proof (resolve_success_add v t _ Hvt t ∅ _ _ _ Hin Hcall) as Hadd.
  pose proof (resolve_big_fuel v (S (S (size idx))) ltac:(lia)) as Hv.
  rewrite (resolve_alias_link idx mode_id v t ∅ _ Hvt) in Hv
    by apply not_elem_of_empty.
  destruct (resolve_alias_chain (S (size idx)) idx t mode_id ({[v]} ∪ ∅))
    as [[[[s2 fv2] sub2] vis2]|]; [|done].
  simpl in *. injection Hadd as -> -> ->. by injection Hv as <-.
Qed.

Lemma resolve_alias_decompose (v t : string) (fv : option color) (p : list string) :
  alias_step idx mode_id v t →
  resolve idx v mode_id = (true, fv, p) →
  ∃ p', p = name_of idx v :: p' ∧ resolve idx t mode_id = (true, fv, p').
Proof.
  intros Hvt Hres.
  pose proof (resolve_big_fuel v (S (S (size idx))) ltac:(lia)) as Hv.
  rewrite Hres in Hv.
  rewrite (resolve_alias_link idx mode_id v t ∅ _ Hvt) in Hv
    by apply not_elem_of_empty.
  destruct (resolve_alias_chain (S (size idx)) idx t mode_id ({[v]} ∪ ∅))
    as [[[[s fv'] sub] vis]|] eqn:Hcall; [|done].
  simpl in Hv. injection Hv as -> -> <-.
  exists sub. split; [done|].
  assert (Hsub : (∅ : gset string) ⊆ {[v]} ∪ ∅).
  { apply elem_of_subseteq. intros z Hz. by apply not_elem_of_empty in Hz. }
  pose proof (resolve_success_subset _ t ∅ _ _ _ _ Hsub Hcall) as Hsmall.
  rewrite resolve_big_fuel in Hsmall by lia. by injection Hsmall.
Qed.

(** A variable that holds a direct colour resolves to it. *)
Lemma resolve_direct (v : string) (var : variable) (c : color) :
  idx !! v = Some var →
  Py.dict_get mode_id (valuesByMode var) = Some (Direct c) →
  resolve idx v mode_id = (true, Some c, [v_name var]).
Proof.
  intros Hlk Hval.
  pose proof (resolve_big_fuel v (S (size idx)) ltac:(lia)) as Hv.
  cbn [resolve_alias_chain] in Hv.
  rewrite decide_False in Hv by apply not_elem_of_empty.
  rewrite Hlk, Hval in Hv. simpl in Hv. by injection Hv.
Qed.

Lemma leads_to_color_resolves (n : nat) :
  ∀ v t var c,
    follow idx mode_id n v = Some t → idx !! t = Some var →
    Py.dict_get mode_id (valuesByMode var) = Some (Direct c) →
    resolve idx v mode_id
    = (true, Some c, name_of idx <$> (v :: orbit idx mode_id n v)).
Proof.
  induction n as [|n IH]; intros v t var c Hrun Hlk Hval.
  - simpl in Hrun. injection Hrun as ->.
    rewrite (resolve_direct t var c Hlk Hval). simpl. unfold name_of.
    by rewrite Hlk.
  - cbn [follow] in Hrun. cbn [orbit].
    destruct (alias_target idx mode_id v) as [y|] eqn:Hy; [|done].
    rewrite fmap_cons.
    apply (resolve_alias_compose v y); [done|].
    by apply (IH y t var c).
Qed.

Lemma resolve_success_leads (fuel : nat) :
  ∀ x visited fv p vis,
    resolve_alias_chain fuel idx x mode_id visited = Some ((true, fv, p), vis) →
    ∃ c, fv = Some c ∧ leads_to_color idx mode_id x c p.
Proof.
  induction fuel as [|fuel IH]; intros x visited fv p vis; [done|].
  cbn [resolve_alias_chain].
  destruct (decide (x ∈ visited)) as [|Hx]; [done|].
  destruct (idx !! x) as [var|] eqn:Hlk; [|done].
  destruct (Py.dict_get mode_id (valuesByMode var)) as [[c|y| |ty]|] eqn:Hval;
    try done.
  - intros [= <- <- <-]. exists c. split; [done|].
    exists 0, x, var. repeat split; try done.
    simpl. unfold name_of. by rewrite Hlk.
  - destruct (Py.contains "/" y) eqn:Hext; [done|].
    destruct (resolve_alias_chain fuel idx y mode_id ({[x]} ∪ visited))
      as [[[[s fv'] sub] vis']|] eqn:Hcall; [|done].
    intros [= -> <- <- <-].
    destruct (IH _ _ _ _ _ Hcall) as [c [-> [n [t [tv [Hrun [Ht [Hc ->]]]]]]]].
    exists c. split; [done|].
    assert (Hy : alias_target idx mode_id x = Some y).
    { unfold alias_target. by rewrite Hlk, Hval, Hext. }
    exists (S n), t, tv. repeat split; try done.
    + cbn [follow]. by rewrite Hy.
    + cbn [orbit]. rewrite Hy, (fmap_cons _ x). f_equal.
      unfold name_of. by rewrite Hlk.
Qed.

End ResolveSuccess.

(** X2.  Resolving a variable whose value is a local alias is resolving
    the alias target: the one succeeds exactly when the other does, with
    the same colour, and the path of the variable is its own name followed
    by the path of the target. *)
Theorem resolve_through_alias
    (idx : gmap string variable) (mode_id v t : string)
    (fv : option color) (p : list string) :
  alias_step idx mode_id v t →
  (AliasValidator.resolve idx t mode_id = (true, fv, p)
   ↔ AliasValidator.resolve idx v mode_id = (true, fv, name_of idx v :: p)).
Proof.
  intros Hvt. split.
  - by apply resolve_alias_compose.
  - intros Hv.
    destruct (resolve_alias_decompose idx mode_id v t fv _ Hvt Hv)
      as [p' [[= <-] Ht]].
    done.
Qed.

(** Mode ["3:0"] of the brand variable, which aliases the theme variable. *)
Lemma resolve_through_alias_witness :
  AliasValidator.resolve brand_index "VariableID:3:2" "3:0"
  = (true, Some mid_grey, ["Jio/Surfaces/[Theme] Surface"])
  ↔ AliasValidator.resolve brand_index "VariableID:3:1" "3:0"
    = (true, Some mid_grey,
       name_of brand_index "VariableID:3:1" :: ["Jio/Surfaces/[Theme] Surface"]).
Proof.
  apply (resolve_through_alias brand_index "3:0" "VariableID:3:1" "VariableID:3:2").
  vm_compute. reflexivity.
Defined.

(** X3.  A resolution succeeds with colour [c] and path [p] exactly when
    following the alias links from the variable ends on an indexed
    variable whose value in that mode is the direct colour [c], [p] being
    the names of the variables met on the way. *)
Theorem resolve_success_iff
    (idx : gmap string variable) (mode_id v : string) (c : color)
    (p : list string) :
  AliasValidator.resolve idx v mode_id = (true, Some c, p)
  ↔ leads_to_color idx mode_id v c p.
Proof.
  split.
  - intros Hres.
    pose proof (resolve_big_fuel idx mode_id v (S (size idx)) ltac:(lia)) as Hrun.
    rewrite Hres in Hrun.
    destruct (AliasValidator.resolve_alias_chain (S (size idx)) idx v mode_id ∅)
      as [[[[s fv] sub] vis]|] eqn:Hcall; [|done].
    simpl in Hrun. injection Hrun as -> -> ->.
    destruct (resolve_success_leads idx mode_id _ _ _ _ _ _ Hcall)
      as [c' [[= <-] Hlead]].
    done.
  - intros [n [t [var [Hrun [Hlk [Hval ->]]]]]].
    by apply (leads_to_color_resolves idx mode_id n v t var c).
Qed.

(** ** The shape of a resolution *)

Section ResolveShape.
Import AliasValidator.

Variable idx : gmap string variable.
Variable mode_id : string.

Ltac destruct_marker :=
  match goal with
  | |- is_marker (_ +:+ ?x) = true => by destruct x
  end.

Lemma shaped_cons (bound : nat) (name : string) (s : bool)
    (fv : option color) (sub : list string) :
  shaped bound (s, fv, sub) → shaped (S bound) (s, fv, [name] ++ sub).
Proof.
  unfold shaped. destruct s.
  - intros [Hfv Hlen]. split; [done|]. simpl. lia.
  - intros [Hfv [names [marker [-> [Hm Hlen]]]]]. split; [done|].
    exists (name :: names), marker. repeat split; try done. simpl. lia.
Qed.

Lemma shaped_marker (bound : nat) (names : list string) (marker : string) :
  is_marker marker = true → length names ≤ bound →
  shaped bound (false, None, names ++ [marker]).
Proof. intros Hm Hlen. split; [done|]. by exists names, marker. Qed.

Lemma resolve_shaped (fuel : nat) :
  ∀ x visited res vis,
    resolve_alias_chain fuel idx x mode_id visited = Some (res, vis) →
    shaped (size (dom idx ∖ visited)) res.
Proof.
  induction fuel as [|fuel IH]; intros x visited res vis; [done|].
  cbn [resolve_alias_chain].
  destruct (decide (x ∈ visited)) as [|Hx].
  { intros [= <- <-]. apply (shaped_marker _ []); [by destruct_marker|simpl; lia]. }
  destruct (idx !! x) as [var|] eqn:Hlk.
  2:{ intros [= <- <-]. apply (shaped_marker _ []); [by destruct_marker|simpl; lia]. }
  rewrite (unvisited_decreases idx x visited) by eauto.
  destruct (Py.dict_get mode_id (valuesByMode var)) as [[c|y| |ty]|].
  - intros [= <- <-]. split; [by eexists|]. simpl. lia.
  - destruct (Py.contains "/" y).
    { intros [= <- <-]. apply (shaped_marker _ [v_name var]); [by destruct_marker|simpl; lia]. }
    destruct (resolve_alias_chain fuel idx y mode_id ({[x]} ∪ visited))
      as [[[[s fv] sub] vis']|] eqn:Hcall; [|done].
    intros [= <- <-]. apply shaped_cons. by apply (IH _ _ _ _ Hcall).
  - intros [= <- <-]. apply (shaped_marker _ [v_name var]); [by destruct_marker|simpl; lia].
  - intros [= <- <-]. apply (shaped_marker _ [v_name var]); [by destruct_marker|simpl; lia].
  - intros [= <- <-]. apply (shaped_marker _ [v_name var]); [by destruct_marker|simpl; lia].
Qed.

End ResolveShape.

(** X4.  A successful resolution carries a colour and a path of at least
    one and at most as many names as the index has variables.  A failed one
    carries no value, and its path is at most that many names followed by
    exactly one closing step, which starts with one of the five markers
    [CIRCULAR: ], [NOT_FOUND: ], [NO_VALUE_FOR_MODE: ], [EXTERNAL_REF: ]
    and [UNKNOWN_VALUE_TYPE: ]. *)
Theorem resolve_result_shape
    (idx : gmap string variable) (variable_id mode_id : string) :
  shaped (size idx) (AliasValidator.resolve idx variable_id mode_id).
Proof.
  pose proof (resolve_big_fuel idx mode_id variable_id (S (size idx)) ltac:(lia))
    as Hrun.
  destruct (AliasValidator.resolve_alias_chain (S (size idx)) idx variable_id
              mode_id ∅) as [[res vis]|] eqn:Hcall; [|done].
  simpl in Hrun. injection Hrun as <-.
  pose proof (resolve_shaped idx mode_id _ _ _ _ _ Hcall) as Hshape.
  pose proof (size_dom_difference_le idx ∅) as Hle.
  destruct res as [[[|] fv] p]; simpl in *.
  - destruct Hshape as [? ?]. split; [done|lia].
  - destruct Hshape as [? [names [marker [? [? ?]]]]]. split; [done|].
    exists names, marker. repeat split; try done. lia.
Qed.

(** ** The validation report *)

Section ReportFacts.
Import AliasValidator.

Variable idx : gmap string variable.
Variable mode_id : string.

Lemma validate_variable_fields (results : report) (var : variable) :
  let results' := validate_variable idx mode_id results var in
  collection_name results' = collection_name results
  ∧ error results' = error results
  ∧ total_variables results' = S (total_variables results).
Proof.
  unfold validate_variable.
  destruct (resolve idx (v_id var) mode_id) as [[[|] [c|]] path]; simpl.
  - by destruct (is_white c).
  - done.
  - destruct (existsb (Py.contains "CIRCULAR") path);
      [|destruct (existsb (Py.contains "EXTERNAL_REF") path)];
      match goal with |- context [if ?b then _ else _] => destruct b end; done.
  - destruct (existsb (Py.contains "CIRCULAR") path);
      [|destruct (existsb (Py.contains "EXTERNAL_REF") path)];
      match goal with |- context [if ?b then _ else _] => destruct b end; done.
Qed.

Lemma validate_fold_fields (vars : list variable) :
  ∀ results,
    let results' := foldl (validate_variable idx mode_id) results vars in
    collection_name results' = collection_name results
    ∧ error results' = error results
    ∧ total_variables results' = total_variables results + length vars.
Proof.
  induction vars as [|var vars IH]; intros results; simpl.
  - repeat split; lia.
  - destruct (IH (validate_variable idx mode_id results var)) as [-> [-> ->]].
    destruct (validate_variable_fields results var) as [-> [-> ->]].
    repeat split; lia.
Qed.

Lemma validate_variable_examples (results : report) (var : variable) :
  examples_bounded results →
  examples_bounded (validate_variable idx mode_id results var).
Proof.
  unfold examples_bounded, validate_variable. intros [Hc He].
  destruct (resolve idx (v_id var) mode_id) as [[[|] [c|]] path]; simpl.
  - destruct (is_white c); simpl; lia.
  - lia.
  - destruct (existsb (Py.contains "CIRCULAR") path);
      [|destruct (existsb (Py.contains "EXTERNAL_REF") path)]; simpl;
      destruct (Nat.ltb_spec (length (broken_examples results)) 5); simpl;
      rewrite ?length_app; simpl; lia.
  - destruct (existsb (Py.contains "CIRCULAR") path);
      [|destruct (existsb (Py.contains "EXTERNAL_REF") path)]; simpl;
      destruct (Nat.ltb_spec (length (broken_examples results)) 5); simpl;
      rewrite ?length_app; simpl; lia.
Qed.

Lemma validate_fold_examples (vars : list variable) :
  ∀ results, examples_bounded results →
    examples_bounded (foldl (validate_variable idx mode_id) results vars).
Proof.
  induction vars as [|var vars IH]; intros results Hinv; [done|].
  simpl. apply IH. by apply validate_variable_examples.
Qed.

End ReportFacts.

(** X5.  The report of a collection carries the name asked for.  When no
    collection of the document has that name the error is
    ["Collection not found"]; when the first one with that name declares no
    mode it is ["No modes found"]; in both cases nothing is counted.
    Otherwise there is no error and [total_variables] is the number of
    variables of that collection, whatever their chains are. *)
Theorem validate_collection_outcome (data : document) (name : string) :
  let results := AliasValidator.validate_collection data name in
  AliasValidator.collection_name results = name
  ∧ match named_collection data name with
    | None =>
        AliasValidator.error results = Some "Collection not found"
        ∧ AliasValidator.total_variables results = 0
    | Some coll =>
        if decide (modes coll = []) then
          AliasValidator.error results = Some "No modes found"
          ∧ AliasValidator.total_variables results = 0
        else
          AliasValidator.error results = None
          ∧ AliasValidator.total_variables results = length (variables coll)
    end.
Proof.
  unfold AliasValidator.validate_collection, named_collection.
  destruct (find _ (collections data)) as [coll|]; [|done].
  destruct (modes coll) as [|m0 ms]; [done|].
  rewrite decide_False by done.
  destruct (validate_fold_fields (AliasValidator.variables_by_id data)
              (modeId m0) (variables coll) (AliasValidator.empty_report name))
    as [-> [-> ->]].
  done.
Qed.

(** X6.  In every report the chains counted as circular or external are
    among the broken ones ([circular_refs + external_refs <= broken_chains])
    and the list of examples holds one entry per broken chain up to five:
    its length is [min broken_chains 5]. *)
Theorem validate_collection_examples (data : document) (name : string) :
  examples_bounded (AliasValidator.validate_collection data name).
Proof.
  unfold AliasValidator.validate_collection.
  destruct (find _ (collections data)) as [coll|]; [|by split].
  destruct (modes coll) as [|m0 ms]; [by split|].
  apply validate_fold_examples. by split.
Qed.

Lemma resolve_chain_head (idx : gmap string variable) (mode_id v : string)
    (var : variable) (fuel : nat) (visited : gset string)
    (res : AliasValidator.chain_result) (vis : gset string) :
  v ∉ visited → idx !! v = Some var →
  AliasValidator.resolve_alias_chain fuel idx v mode_id visited = Some (res, vis) →
  ∃ rest, snd res = v_name var :: rest.
Proof.
  intros Hv Hlk. destruct fuel as [|fuel]; [done|].
  cbn [AliasValidator.resolve_alias_chain].
  rewrite decide_False by done. rewrite Hlk.
  destruct (Py.dict_get mode_id (valuesByMode var)) as [[c|y| |ty]|].
  2:{ destruct (Py.contains "/" y).
      - intros [= <- <-]. by eexists.
      - destruct (AliasValidator.resolve_alias_chain fuel idx y mode_id
                    ({[v]} ∪ visited)) as [[[[s fv] sub] vis']|]; [|done].
        intros [= <- <-]. by eexists. }
  all: intros [= <- <-]; by eexists.
Qed.

Lemma resolve_path_head (idx : gmap string variable) (mode_id v : string)
    (var : variable) :
  idx !! v = Some var →
  ∃ success final_value rest,
    AliasValidator.resolve idx v mode_id
    = (success, final_value, v_name var :: rest).
Proof.
  intros Hlk.
  pose proof (resolve_big_fuel idx mode_id v (S (size idx)) ltac:(lia)) as Hrun.
  destruct (AliasValidator.resolve_alias_chain (S (size idx)) idx v mode_id ∅)
    as [[res vis]|] eqn:Hcall; [|done].
  simpl in Hrun. injection Hrun as <-.
  destruct (resolve_chain_head idx mode_id v var _ _ _ _
              (not_elem_of_empty v) Hlk Hcall) as [rest Hrest].
  destruct res as [[s fv] p]. simpl in Hrest. subst p. by eexists _, _, _.
Qed.

(** X7.  The error classes are told apart by looking for the words
    ["CIRCULAR"] and ["EXTERNAL_REF"] in every step of the path, the
    variable names included.  So a broken chain that starts at an indexed
    variable whose name contains ["CIRCULAR"] is counted as a circular
    reference, never as an external one, whatever broke it. *)
Theorem name_decides_error_class
    (idx : gmap string variable) (mode_id : string)
    (results : AliasValidator.report) (var : variable) :
  idx !! v_id var = Some var →
  Py.contains "CIRCULAR" (v_name var) = true →
  fst (fst (AliasValidator.resolve idx (v_id var) mode_id)) = false →
  let results' := AliasValidator.validate_variable idx mode_id results var in
  AliasValidator.circular_refs results'
  = S (AliasValidator.circular_refs results)
  ∧ AliasValidator.external_refs results'
    = AliasValidator.external_refs results.
Proof.
  intros Hlk Hname Hfail. unfold AliasValidator.validate_variable.
  destruct (resolve_path_head idx mode_id _ _ Hlk) as [s [fv [rest Hres]]].
  rewrite Hres in *. simpl in Hfail. subst s.
  cbn [existsb]. rewrite Hname. cbn [orb].
  match goal with |- context [if ?b then _ else _] => destruct b end; done.
Qed.

(** The chain of ["Tools/CIRCULAR saw"] breaks on an external reference. *)
Lemma name_decides_error_class_witness :
  AliasValidator.resolve tools_index "VariableID:9:9" "1:0"
  = (false, None,
     ["Tools/CIRCULAR saw"; "EXTERNAL_REF: VariableID:abc123/1:2"])
  ∧ (let results' :=
       AliasValidator.validate_variable tools_index "1:0"
         (AliasValidator.empty_report "Tools") circular_saw in
     AliasValidator.circular_refs results'
     = S (AliasValidator.circular_refs (AliasValidator.empty_report "Tools"))
     ∧ AliasValidator.external_refs results'
       = AliasValidator.external_refs (AliasValidator.empty_report "Tools")).
Proof.
  split; [by vm_compute|].
  apply (name_decides_error_class tools_index "1:0"
           (AliasValidator.empty_report "Tools") circular_saw);
    by vm_compute.
Defined.

(** ** The exit status *)

Section ExitStatus.
Import AliasValidator ValidatorMain.

Lemma validate_collection_quiet (data : document) (name : string) :
  quiet_on_error (name, validate_collection data name).
Proof.
  unfold quiet_on_error, validate_collection. simpl.
  destruct (find _ (collections data)) as [coll|]; [|done].
  destruct (modes coll) as [|m0 ms]; [done|].
  destruct (validate_fold_fields (variables_by_id data) (modeId m0)
              (variables coll) (empty_report name)) as [_ [-> _]].
  done.
Qed.

Lemma sum_results_issues (all_results : list (string * report)) :
  Forall quiet_on_error all_results →
  ∀ t,
    let t' := foldl (fun t '(_, results) =>
                       match error results with
                       | Some _ => t
                       | None =>
                           Totals (total_valid t + valid_chains results)
                                  (total_broken t + broken_chains results)
                                  (total_white t + white_colors results)
                                  (total_proper t + proper_colors results)
                       end) t all_results in
    (total_broken t' =? 0) && (total_white t' =? 0)
    = (total_broken t =? 0) && (total_white t =? 0)
      && negb (has_issues all_results).
Proof.
  induction 1 as [|[name r] l Hq _ IH]; intros t; simpl.
  - by rewrite andb_true_r.
  - rewrite IH. unfold quiet_on_error in Hq. simpl in Hq.
    destruct (error r) as [msg|].
    + destruct Hq as [-> ->]; [done|]. done.
    + simpl.
      destruct (Nat.eqb_spec (total_broken t + broken_chains r) 0),
               (Nat.eqb_spec (total_white t + white_colors r) 0),
               (Nat.eqb_spec (total_broken t) 0),
               (Nat.eqb_spec (total_white t) 0),
               (Nat.ltb_spec 0 (broken_chains r)),
               (Nat.ltb_spec 0 (white_colors r)),
               (has_issues l); simpl; try done; lia.
Qed.

End ExitStatus.

(** X8.  The status [main] returns and the closing line
    [print_validation_results] prints agree on every document: the status
    is [0] exactly when the totals, which leave out the results that carry
    an error, show no broken chain and no white colour, although
    [has_issues] reads the counters of every result. *)
Theorem exit_status_matches_summary (data : document) :
  ValidatorMain.exit_status data = 0
  ↔ ValidatorMain.reports_success
      (AliasValidator.validate_all_critical_collections data) = true.
Proof.
  assert (Hquiet : Forall quiet_on_error
                     (AliasValidator.validate_all_critical_collections data)).
  { unfold AliasValidator.validate_all_critical_collections.
    apply Forall_forall. intros [name r] Hin.
    apply list_elem_of_In, in_map_iff in Hin.
    destruct Hin as [name' [[= <- <-] _]]. apply validate_collection_quiet. }
  pose proof (sum_results_issues _ Hquiet (ValidatorMain.Totals 0 0 0 0))
    as Hsum.
  unfold ValidatorMain.exit_status, ValidatorMain.reports_success,
    ValidatorMain.sum_results.
  cbv zeta in Hsum. rewrite Hsum.
  change ((0 =? 0) && (0 =? 0)) with true. cbn [andb].
  by destruct (ValidatorMain.has_issues _).
Qed.

Lemma find_none_named (name : string) (colls : list collection) :
  Forall (fun coll => c_name coll ≠ name) colls →
  find (fun coll => String.eqb (c_name coll) name) colls = None.
Proof.
  induction 1 as [|coll colls Hne _ IH]; [done|]. simpl.
  by destruct (String.eqb_spec (c_name coll) name).
Qed.

(** X9.  On a document that has none of the six collections the validator
    looks for, every result is the error ["Collection not found"] and
    [main] returns status [0]: absent collections are not an issue. *)
Theorem absent_collections_pass (data : document) :
  no_critical_collection data →
  ValidatorMain.exit_status data = 0
  ∧ Forall (fun entry =>
              AliasValidator.error (snd entry) = Some "Collection not found")
           (AliasValidator.validate_all_critical_collections data).
Proof.
  intros Hno.
  assert (Hall : Forall (fun entry =>
                   snd entry = AliasValidator.with_error
                                 (AliasValidator.empty_report (fst entry))
                                 "Collection not found")
                 (AliasValidator.validate_all_critical_collections data)).
  { unfold AliasValidator.validate_all_critical_collections.
    apply Forall_forall. intros [name r] Hin.
    apply list_elem_of_In, in_map_iff in Hin.
    destruct Hin as [name' [[= <- <-] Hin]]. simpl.
    unfold AliasValidator.validate_collection.
    rewrite find_none_named; [done|].
    unfold no_critical_collection in Hno.
    eapply Forall_impl; [exact Hno|]. intros coll Hc Heq. simpl in Hc.
    apply Hc. rewrite Heq. by apply list_elem_of_In. }
  split.
  - unfold ValidatorMain.exit_status.
    induction Hall as [|[name r] l Hr _ IH]; [done|]. simpl in *.
    subst r. simpl.
    by destruct (ValidatorMain.has_issues l).
  - eapply Forall_impl; [exact Hall|]. intros [name r] Hr. simpl in *.
    by subst r.
Qed.

(** A document with the collection ["00_Semi semantics"] only. *)
Lemma absent_collections_pass_witness :
  ValidatorMain.exit_status palette_document = 0
  ∧ Forall (fun entry =>
              AliasValidator.error (snd entry) = Some "Collection not found")
           (AliasValidator.validate_all_critical_collections palette_document).
Proof.
  apply (absent_collections_pass palette_document).
  unfold no_critical_collection.
  apply (bool_decide_unpack
           (Forall (fun coll => c_name coll ∉ AliasValidator.critical_collections)
                   (collections palette_document))).
  by vm_compute.
Defined.

(** ** The trace index and the links of a trace *)

Section TraceIndex.
Import DeepTrace.

Lemma annotate_fold (coll : collection) (vars : list variable) :
  ∀ var_index : gmap string indexed_variable,
    let var_index' :=
      foldl (fun var_index var =>
               <[v_id var :=
                   IndexedVariable var (c_name coll) (c_id coll) (modes coll)]>
                 var_index) var_index vars in
    iv_var <$> var_index'
    = foldl index_insert (iv_var <$> var_index) vars
    ∧ ∀ k iv, var_index' !! k = Some iv →
              var_index !! k = Some iv
              ∨ (iv_var iv ∈ vars
                 ∧ iv_collection_name iv = c_name coll
                 ∧ iv_collection_id iv = c_id coll
                 ∧ iv_modes iv = modes coll).
Proof.
  induction vars as [|var vars IH]; intros var_index; simpl.
  - split; [done|]. intros k iv ?. by left.
  - destruct (IH (<[v_id var :=
                      IndexedVariable var (c_name coll) (c_id coll) (modes coll)]>
                    var_index)) as [Hmap Hsound].
    split.
    + rewrite Hmap, fmap_insert. done.
    + intros k iv Hk. destruct (Hsound k iv Hk) as [Hin|[Hin Hrest]].
      * destruct (decide (v_id var = k)) as [<-|Hne].
        -- rewrite lookup_insert_eq in Hin. injection Hin as <-.
           right. simpl. split; [apply list_elem_of_here|done].
        -- rewrite lookup_insert_ne in Hin by done. by left.
      * right. split; [by apply list_elem_of_further|done].
Qed.

Lemma build_variable_index_fold (colls : list collection) :
  ∀ (var_index : gmap string indexed_variable)
    (collection_index : gmap string collection),
    let out :=
      foldl (fun '(var_index, collection_index) coll =>
               (foldl (fun var_index var =>
                         <[v_id var :=
                             IndexedVariable var (c_name coll) (c_id coll)
                                             (modes coll)]> var_index)
                      var_index (variables coll),
                <[c_id coll := coll]> collection_index))
            (var_index, collection_index) colls in
    iv_var <$> fst out
    = foldl index_insert (iv_var <$> var_index) (flat_map variables colls)
    ∧ ∀ k iv, fst out !! k = Some iv →
              var_index !! k = Some iv
              ∨ ∃ coll, coll ∈ colls ∧ iv_var iv ∈ variables coll
                        ∧ iv_collection_name iv = c_name coll
                        ∧ iv_collection_id iv = c_id coll
                        ∧ iv_modes iv = modes coll.
Proof.
  induction colls as [|coll colls IH]; intros var_index collection_index.
  - simpl. split; [done|]. intros k iv ?. by left.
  - cbn [foldl flat_map].
    destruct (annotate_fold coll (variables coll) var_index) as [Hmap Hsound].
    cbv zeta in Hmap, Hsound.
    match goal with
    | |- context [foldl _ (?vi, ?ci) colls] =>
        destruct (IH vi ci) as [Hmap' Hsound']
    end.
    cbv zeta in Hmap', Hsound'. split.
    + rewrite Hmap', Hmap, foldl_app. done.
    + intros k iv Hk. destruct (Hsound' k iv Hk) as [Hin|[c [Hc Hrest]]].
      * destruct (Hsound k iv Hin) as [?|Hrest]; [by left|].
        right. exists coll. split; [apply list_elem_of_here|done].
      * right. exists c. split; [by apply list_elem_of_further|done].
Qed.

End TraceIndex.

(** X10.  The index of the tracer and the index of the validator hold the
    same variables under the same ids, and every entry of the tracer's
    index is annotated with the name, id and modes of a collection of the
    document that lists the variable. *)
Theorem build_variable_index_agrees (data : document) :
  DeepTrace.iv_var <$> fst (DeepTrace.build_variable_index data)
  = AliasValidator.variables_by_id data
  ∧ ∀ k iv, fst (DeepTrace.build_variable_index data) !! k = Some iv →
            annotated data iv.
Proof.
  destruct (build_variable_index_fold (collections data) ∅ ∅) as [Hmap Hsound].
  cbv zeta in Hmap, Hsound. split.
  - unfold DeepTrace.build_variable_index. rewrite Hmap, fmap_empty.
    symmetry. apply variables_by_id_fold.
  - intros k iv Hk. destruct (Hsound k iv Hk) as [Hin|Hcoll]; [|done].
    by rewrite lookup_empty in Hin.
Qed.

Lemma keys_dict_set {A} (k : string) (v : A) (d : list (string * A)) :
  Py.keys (Py.dict_set k v d)
  = if decide (k ∈ Py.keys d) then Py.keys d else Py.keys d ++ [k].
Proof.
  induction d as [|[k' v'] d IH]; simpl; [done|].
  destruct (String.eqb_spec k k') as [->|Hne].
  - rewrite decide_True by apply list_elem_of_here. done.
  - simpl. rewrite IH. unfold Py.keys.
    destruct (decide (k ∈ map fst d)) as [Hin|Hnin].
    + rewrite decide_True by (by apply list_elem_of_further). done.
    + rewrite decide_False; [done|].
      intros Hin. apply elem_of_cons in Hin. by destruct Hin.
Qed.

Lemma keys_dict_set_NoDup {A} (k : string) (v : A) (d : list (string * A)) :
  NoDup (Py.keys d) → NoDup (Py.keys (Py.dict_set k v d)).
Proof.
  intros Hd. rewrite keys_dict_set.
  destruct (decide (k ∈ Py.keys d)) as [|Hk]; [done|].
  apply NoDup_app. split; [done|]. split; [|apply NoDup_singleton].
  intros x Hx Hx'. apply list_elem_of_singleton in Hx'. by subst.
Qed.

Lemma keys_dict_set_subseteq {A} (k : string) (v : A) (d : list (string * A))
    (names : list string) :
  k ∈ names → Py.keys d ⊆ names → Py.keys (Py.dict_set k v d) ⊆ names.
Proof.
  intros Hk Hd. rewrite keys_dict_set.
  destruct (decide (k ∈ Py.keys d)); [done|].
  intros x Hx. apply elem_of_app in Hx. destruct Hx as [Hx|Hx]; [by apply Hd|].
  apply list_elem_of_singleton in Hx. by subst.
Qed.

Section TraceLinks.
Import DeepTrace.

Variable idx : gmap string indexed_variable.

Lemma trace_modes_links (P : link → Prop)
    (trace : string → option (list link)) (values : list (string * value))
    (names : list string) (ms : list mode) :
  (∀ t out, trace t = Some out → Forall P out) →
  ∀ vals tail vals' tail',
    foldl (trace_mode trace idx values) (Some (vals, tail)) ms
    = Some (vals', tail') →
    NoDup (Py.keys vals) → Py.keys vals ⊆ names → (m_name <$> ms) ⊆ names →
    Forall P tail →
    NoDup (Py.keys vals') ∧ Py.keys vals' ⊆ names ∧ Forall P tail'.
Proof.
  intros Htrace. induction ms as [|m ms IH];
    intros vals tail vals' tail'; simpl.
  - by intros [= <- <-].
  - intros Hfold Hnd Hsub Hms Htail.
    assert (Hm : m_name m ∈ names) by (apply Hms; apply list_elem_of_here).
    assert (Hms' : (m_name <$> ms) ⊆ names).
    { intros x Hx. apply Hms. by apply list_elem_of_further. }
    destruct (Py.dict_get (modeId m) values) as [[c|t| |ty]|].
    + apply (IH _ _ _ _ Hfold); try done.
      * by apply keys_dict_set_NoDup.
      * by apply keys_dict_set_subseteq.
    + destruct (trace t) as [sub|] eqn:Hsubchain.
      * apply (IH _ _ _ _ Hfold); try done.
        -- by apply keys_dict_set_NoDup.
        -- by apply keys_dict_set_subseteq.
        -- apply Forall_app. split; [done|]. by apply (Htrace t).
      * by rewrite trace_modes_none in Hfold.
    + by apply (IH _ _ _ _ Hfold).
    + by apply (IH _ _ _ _ Hfold).
    + by apply (IH _ _ _ _ Hfold).
Qed.

Lemma trace_links (fuel : nat) :
  ∀ t visited out,
    trace_complete_chain fuel t idx visited = Some out →
    Forall (fun l => (l_id l ∉ visited) ∧ link_describes idx l) out.
Proof.
  induction fuel as [|fuel IH]; intros t visited out; [done|].
  destruct (decide (t ∈ visited)) as [Ht|Ht].
  { cbn [trace_complete_chain]. rewrite decide_True by done.
    intros [= <-]. constructor. }
  destruct (idx !! t) as [var|] eqn:Hlk.
  2:{ cbn [trace_complete_chain]. rewrite decide_False by done. rewrite Hlk.
      intros [= <-]. constructor. }
  rewrite (trace_unfold idx fuel t visited var Hlk Ht).
  destruct (foldl _ _ (iv_modes var)) as [[vals tail]|] eqn:Hfold; [|done].
  intros [= <-].
  assert (Hsubs : ∀ u sub,
            trace_complete_chain fuel u idx ({[t]} ∪ visited) = Some sub →
            Forall (fun l => (l_id l ∉ visited) ∧ link_describes idx l) sub).
  { intros u sub Hu. eapply Forall_impl; [exact (IH u _ sub Hu)|].
    intros l [Hl Hd]. split; [|done].
    intros Hin. apply Hl. apply elem_of_union. by right. }
  destruct (trace_modes_links _ _ _ (m_name <$> iv_modes var) _ Hsubs
              _ _ _ _ Hfold) as [Hnd [Hsub Htail]].
  { apply NoDup_nil_2. }
  { intros x Hx. by apply elem_of_nil in Hx. }
  { done. }
  { constructor. }
  constructor; [|done]. split; [done|].
  exists var. simpl. by repeat split.
Qed.

End TraceLinks.

(** X11.  Every link of a trace has an id that is indexed and was not in
    the visited set the trace started from.  Its name, collection,
    collection id and type are those of the indexed variable, and its
    ['values'] are keyed by mode names of the variable's collection, no
    name twice. *)
Theorem trace_links_describe
    (idx : gmap string DeepTrace.indexed_variable) (visited : gset string)
    (t : string) :
  Forall (fun l => (DeepTrace.l_id l ∉ visited) ∧ link_describes idx l)
         (trace_of idx visited t).
Proof.
  unfold trace_of.
  destruct (DeepTrace.trace_complete_chain (S (size idx)) t idx visited)
    as [out|] eqn:Hrun; [|constructor].
  by apply (trace_links idx _ _ _ _ Hrun).
Qed.

(** ** Colour conversion: clamping and whole palettes *)

(** X12.  [linear_to_srgb] asks the C library for a power only strictly
    inside the unit interval.  A channel that is not below [1] (a value of
    [1] or more, an infinity, or a NaN, for which [min(1, val)] keeps [1])
    becomes [0.9999999999999999]; a channel below [1] that is not above
    [0] becomes [0.0]; a channel in between that is at most [0.0031308]
    becomes [val * 12.92]. *)
Theorem linear_to_srgb_clamps (libm_pow : float -> float -> float) (val : float) :
  (F64.ltb val F64.one = false →
   Oklch.linear_to_srgb libm_pow val = below_one)
  ∧ (F64.ltb val F64.one = true → F64.ltb F64.zero val = false →
     Oklch.linear_to_srgb libm_pow val = F64.zero)
  ∧ (F64.ltb val F64.one = true → F64.ltb F64.zero val = true →
     F64.leb val (F64.dec 31308 7) = true →
     Oklch.linear_to_srgb libm_pow val = F64.mul val (F64.dec 1292 2)).
Proof.
  unfold Oklch.linear_to_srgb, Oklch.py_min, Oklch.py_max.
  split; [|split].
  - intros ->.
    replace (F64.ltb F64.zero F64.one) with true by (by vm_compute).
    replace (F64.leb F64.one (F64.dec 31308 7)) with false by (by vm_compute).
    unfold Oklch.py_pow.
    replace (F64.eqb F64.one F64.one) with true by (by vm_compute).
    by vm_compute.
  - intros -> ->.
    replace (F64.leb F64.zero (F64.dec 31308 7)) with true by (by vm_compute).
    by vm_compute.
  - by intros -> -> ->.
Qed.

Lemma dict_set_fresh {A} (k : string) (v : A) (d : list (string * A)) :
  k ∉ Py.keys d → Py.dict_set k v d = d ++ [(k, v)].
Proof.
  induction d as [|[k' v'] d IH]; simpl; [done|]. intros Hk.
  destruct (String.eqb_spec k k') as [->|Hne].
  - exfalso. apply Hk. apply list_elem_of_here.
  - rewrite IH; [done|]. intros Hin. apply Hk. by apply list_elem_of_further.
Qed.

Section Palette.

Variables libm_cos libm_sin : float -> float.
Variable libm_pow : float -> float -> float.

Local Abbreviation palette_step :=
  (fun (acc : Py.result (list (string * rgb))) '(step, oklch_value) =>
     match acc with
     | Py.ValueError => Py.ValueError
     | Py.Ok rgb_palette =>
         if String.eqb step "base" then Py.Ok rgb_palette
         else match Oklch.oklch_to_rgb libm_cos libm_sin libm_pow oklch_value with
              | Py.ValueError => Py.ValueError
              | Py.Ok rgb => Py.Ok (Py.dict_set step rgb rgb_palette)
              end
     end).

Lemma palette_fold_error (palette : list (string * string)) :
  foldl palette_step Py.ValueError palette = Py.ValueError.
Proof. induction palette as [|[step s] palette IH]; simpl; auto. Qed.

Lemma palette_fold (palette : list (string * string)) :
  ∀ d res, NoDup (Py.keys d ++ Py.keys palette) →
    foldl palette_step (Py.Ok d) palette = res →
    match res with
    | Py.ValueError => Exists (raises libm_cos libm_sin libm_pow) palette
    | Py.Ok out =>
        ∃ more, out = d ++ more
                ∧ Forall2 (converted libm_cos libm_sin libm_pow)
                          (List.filter non_base palette) more
    end.
Proof.
  induction palette as [|[step s] palette IH]; intros d res Hnd.
  - simpl. intros <-. exists []. by rewrite app_nil_r.
  - cbn [foldl]. unfold Py.keys in Hnd. simpl in Hnd.
    apply NoDup_app in Hnd. destruct Hnd as [Hd [Hdisj Hp]].
    apply NoDup_cons in Hp. destruct Hp as [Hstep Hp].
    unfold non_base at 1. cbn [List.filter fst].
    destruct (String.eqb step "base") eqn:Hbase; cbn [negb].
    + assert (Hnd' : NoDup (Py.keys d ++ Py.keys palette)).
      { apply NoDup_app. repeat split; try done.
        intros x Hx Hx'. apply (Hdisj x Hx). by apply list_elem_of_further. }
      intros Hres. pose proof (IH d res Hnd' Hres) as Hrec.
      destruct res as [out|]; [done|]. by apply Exists_cons_tl.
    + destruct (Oklch.oklch_to_rgb libm_cos libm_sin libm_pow s) as [c|] eqn:Hs.
      * rewrite dict_set_fresh.
        2:{ intros Hin. apply (Hdisj step Hin). apply list_elem_of_here. }
        assert (Hnd' : NoDup (Py.keys (d ++ [(step, c)]) ++ Py.keys palette)).
        { unfold Py.keys. rewrite map_app. simpl.
          apply NoDup_app. repeat split; try done.
          - apply NoDup_app. repeat split; try done.
            + intros x Hx Hx'. apply list_elem_of_singleton in Hx'. subst x.
              apply (Hdisj step Hx). apply list_elem_of_here.
            + apply NoDup_singleton.
          - intros x Hx Hx'. apply elem_of_app in Hx. destruct Hx as [Hx|Hx].
            + apply (Hdisj x Hx). by apply list_elem_of_further.
            + apply list_elem_of_singleton in Hx. by subst x. }
        intros Hres. pose proof (IH _ res Hnd' Hres) as Hrec.
        destruct res as [out|].
        -- destruct Hrec as [more [-> Hmore]]. exists ((step, c) :: more).
           rewrite <- app_assoc. split; [done|].
           constructor; [by split|done].
        -- by apply Exists_cons_tl.
      * rewrite palette_fold_error. intros <-. apply Exists_cons_hd.
        split; [|done]. unfold non_base. simpl. by rewrite Hbase.
Qed.

Lemma palette_fold_raises (palette : list (string * string)) :
  Exists (raises libm_cos libm_sin libm_pow) palette →
  ∀ acc, foldl palette_step acc palette = Py.ValueError.
Proof.
  induction 1 as [[step s] palette Hraise|[step s] palette _ IH];
    intros acc.
  - destruct Hraise as [Hbase Hs].
    cbn [foldl]. unfold non_base in Hbase. simpl in *.
    destruct (String.eqb step "base"); [done|]. rewrite Hs.
    destruct acc; apply palette_fold_error.
  - cbn [foldl]. apply IH.
Qed.

End Palette.

(** X13.  [convert_palette_to_rgb] converts every entry of the palette
    except ['base'], in the palette's order and under the same keys; it
    raises exactly when the conversion of one of those entries raises. *)
Theorem convert_palette_to_rgb_entries
    (libm_cos libm_sin : float -> float) (libm_pow : float -> float -> float)
    (palette : list (string * string)) :
  NoDup (Py.keys palette) →
  match Oklch.convert_palette_to_rgb libm_cos libm_sin libm_pow palette with
  | Py.ValueError => Exists (raises libm_cos libm_sin libm_pow) palette
  | Py.Ok rgb_palette =>
      Forall2 (converted libm_cos libm_sin libm_pow)
              (List.filter non_base palette) rgb_palette
      ∧ Forall (fun entry => ¬ raises libm_cos libm_sin libm_pow entry) palette
  end.
Proof.
  intros Hnd. unfold Oklch.convert_palette_to_rgb.
  destruct (foldl _ (Py.Ok []) palette) as [out|] eqn:Hrun.
  2:{ exact (palette_fold libm_cos libm_sin libm_pow palette [] _ Hnd Hrun). }
  destruct (palette_fold libm_cos libm_sin libm_pow palette [] _ Hnd Hrun)
    as [more [-> Hmore]].
  split; [done|].
  apply Forall_forall. intros entry Hin Hraise.
  rewrite (palette_fold_raises libm_cos libm_sin libm_pow palette) in Hrun;
    [done|].
  apply Exists_exists. by exists entry.
Qed.

(** A palette with a ['base'] entry between two steps. *)
Lemma convert_palette_to_rgb_entries_witness :
  match Oklch.convert_palette_to_rgb libm_zero libm_zero libm_pow_zero
          two_step_palette with
  | Py.ValueError => Exists (raises libm_zero libm_zero libm_pow_zero)
                            two_step_palette
  | Py.Ok rgb_palette =>
      Forall2 (converted libm_zero libm_zero libm_pow_zero)
              (List.filter non_base two_step_palette) rgb_palette
      ∧ Forall (fun entry => ¬ raises libm_zero libm_zero libm_pow_zero entry)
               two_step_palette
  end.
Proof.
  apply (convert_palette_to_rgb_entries libm_zero libm_zero libm_pow_zero
           two_step_palette).
  apply (bool_decide_unpack (NoDup (Py.keys two_step_palette))). by vm_compute.
Defined.

(** ** The white pass and the count of white values *)

Lemma for_each_accounts {A} (exact : Prop) (w : A -> nat)
    (body : nat -> A -> nat * A) :
  (∀ n x, accounts exact w n x (body n x)) →
  ∀ l n, accounts exact (fun l => list_sum (map w l)) n l (for_each body n l).
Proof.
  intros Hbody. induction l as [|x l IH]; intros n.
  - exists 0. simpl. repeat split; lia.
  - simpl. destruct (Hbody n x) as [k [Hk [Hle [Hge [Hmono Hex]]]]].
    destruct (body n x) as [n1 x']. simpl in *.
    destruct (IH n1) as [k' [Hk' [Hle' [Hge' [Hmono' Hex']]]]].
    destruct (for_each body n1 l) as [n2 l']. simpl in *.
    exists (k + k'). cbn [fst snd map] in *.
    change (list_sum (w x :: map w l)) with (w x + list_sum (map w l)).
    change (list_sum (w x' :: map w l')) with (w x' + list_sum (map w l')).
    repeat split; try lia;
      intros He; specialize (Hex He); specialize (Hex' He); lia.
Qed.

Lemma sum_whites_of_entries (values : list (string * value)) :
  list_sum (map whites_of_entry values) = FixWhiteMain.count_white_values values.
Proof.
  unfold FixWhiteMain.count_white_values, whites_of_entry.
  induction values as [|[m x] values IH]; [done|].
  cbn [map List.filter].
  change (list_sum (?a :: ?b)) with (a + list_sum b).
  rewrite IH. unfold FixWhiteMain.count_white_values. cbn [List.filter].
  by destruct x as [c| | |]; [destruct (FixWhite.is_white c)| | |].
Qed.

Lemma white_count_sum (data : document) :
  FixWhiteMain.white_count data
  = list_sum (map whites_of_collection (collections data)).
Proof.
  unfold FixWhiteMain.white_count.
  assert (Hvars : ∀ vars n,
            foldl (fun n var =>
                     n + FixWhiteMain.count_white_values (valuesByMode var))
                  n vars
            = n + list_sum (map whites_of_variable vars)).
  { induction vars as [|v vars IH]; intros n; simpl; [lia|].
    rewrite IH. unfold whites_of_variable. lia. }
  assert (Hcolls : ∀ colls n,
            foldl (fun n coll =>
                     foldl (fun n var =>
                              n + FixWhiteMain.count_white_values
                                    (valuesByMode var))
                           n (variables coll))
                  n colls
            = n + list_sum (map whites_of_collection colls)).
  { induction colls as [|c colls IH]; intros n; simpl; [lia|].
    rewrite IH, Hvars. unfold whites_of_collection. lia. }
  by rewrite Hcolls.
Qed.

Section WhiteCount.

Variable palettes : list (string * list (string * rgb)).

Lemma palette_color_lookup (info : option string * option string)
    (r g b : float) :
  FixWhite.palette_color palettes info = Some (r, g, b) →
  ∃ name palette step,
    Py.dict_get name palettes = Some palette
    ∧ Py.dict_get step palette = Some (r, g, b).
Proof.
  unfold FixWhite.palette_color.
  destruct info as [[name|] [step|]]; try done.
  destruct (FixWhite.truthy (Some name) && FixWhite.truthy (Some step));
    [|done].
  destruct (Py.dict_get name palettes) as [palette|] eqn:Hp; [|done].
  intros Hs. by exists name, palette, step.
Qed.

Lemma whites_of_entry_eq (mode_id : string) (x : value) :
  whites_of_entry (mode_id, x)
  = match x with
    | Direct c => if FixWhite.is_white c then 1 else 0
    | _ => 0
    end.
Proof.
  unfold whites_of_entry, FixWhiteMain.count_white_values. cbn [List.filter].
  by destruct x as [c| | |]; [destruct (FixWhite.is_white c)| | |].
Qed.

Lemma fix_mode_value_accounts (info : option string * option string)
    (n : nat) (entry : string * value) :
  accounts (no_white_step palettes) whites_of_entry n entry
    (FixWhite.fix_mode_value (FixWhite.palette_color palettes info) n entry).
Proof.
  destruct entry as [mode_id x]. unfold FixWhite.fix_mode_value, accounts.
  destruct x as [c|y| |ty];
    try (exists 0; cbn [fst snd]; rewrite !whites_of_entry_eq;
         repeat split; lia).
  destruct (FixWhite.is_white c) eqn:Hw.
  2:{ exists 0. cbn [fst snd]. rewrite !whites_of_entry_eq, Hw.
      repeat split; lia. }
  destruct (FixWhite.palette_color palettes info) as [[[r g] b]|] eqn:Hfound.
  2:{ exists 0. cbn [fst snd]. rewrite !whites_of_entry_eq, Hw.
      repeat split; lia. }
  exists 1. cbn [fst snd]. rewrite !whites_of_entry_eq, Hw.
  destruct (FixWhite.is_white (Color _ _ _ (c_a c))) eqn:Hnew;
    repeat split; try lia.
  intros Hno. exfalso.
  destruct (palette_color_lookup _ _ _ _ Hfound) as [name [palette [step [Hp Hs]]]].
  specialize (Hno name palette step r g b Hp Hs).
  unfold FixWhite.is_white in *. simpl in *. congruence.
Qed.

Lemma fix_variable_accounts (n : nat) (var : variable) :
  accounts (no_white_step palettes) whites_of_variable n var
    (FixWhite.fix_variable palettes n var).
Proof.
  unfold FixWhite.fix_variable.
  pose proof (for_each_accounts _ _ _
                (fix_mode_value_accounts
                   (FixWhite.extract_color_info_from_name (v_name var)))
                (valuesByMode var) n) as [k Hk].
  destruct (for_each _ n (valuesByMode var)) as [n' values'].
  rewrite !sum_whites_of_entries in Hk.
  exists k. exact Hk.
Qed.

Lemma fix_collection_accounts (n : nat) (coll : collection) :
  accounts (no_white_step palettes) whites_of_collection n coll
    (FixWhite.fix_collection palettes n coll).
Proof.
  unfold FixWhite.fix_collection.
  pose proof (for_each_accounts _ _ _ fix_variable_accounts
                (variables coll) n) as [k Hk].
  destruct (for_each _ n (variables coll)) as [n' vars'].
  exists k. exact Hk.
Qed.

End WhiteCount.

(** X14.  The white pass fixes at most as many values as the document has
    white direct values, it never adds a white value, and the count
    ["Remaining"] that [main] prints ([white_count - fixed]) is at most the
    number of white values the document still has; the two are equal when
    no colour of the palettes rounds to white. *)
Theorem white_pass_accounting (data : document)
    (palettes : list (string * list (string * rgb))) :
  let '(data', fixed) := FixWhite.fix_all_white_colors data palettes in
  fixed ≤ FixWhiteMain.white_count data
  ∧ FixWhiteMain.white_count data' ≤ FixWhiteMain.white_count data
  ∧ FixWhiteMain.remaining data palettes ≤ FixWhiteMain.white_count data'
  ∧ (no_white_step palettes →
     FixWhiteMain.remaining data palettes = FixWhiteMain.white_count data').
Proof.
  unfold FixWhiteMain.remaining, FixWhite.fix_all_white_colors.
  pose proof (for_each_accounts _ _ _ (fix_collection_accounts palettes)
                (collections data) 0) as [k [Hk [Hle [Hge [Hmono Hex]]]]].
  destruct (for_each _ 0 (collections data)) as [fixed colls'].
  rewrite !white_count_sum. simpl in *. subst fixed.
  repeat split; try lia; intros Hno; specialize (Hex Hno); lia.
Qed.

Lemma for_each_fixed {A S : Type} (body : S -> A -> S * A) (l : list A) :
  (∀ x, x ∈ l → ∀ st, body st x = (st, x)) →
  ∀ st, for_each body st l = (st, l).
Proof.
  induction l as [|x l IH]; intros Hbody st; simpl; [done|].
  rewrite (Hbody x (list_elem_of_here _ _)).
  rewrite IH; [done|]. intros y Hy. apply Hbody. by apply list_elem_of_further.
Qed.

Section WhiteStable.

Variable palettes : list (string * list (string * rgb)).
Hypothesis no_white : no_white_step palettes.

Lemma white_value_stable (info : option string * option string) (n : nat)
    (mode_id : string) (x : value) :
  let found := FixWhite.palette_color palettes info in
  FixWhite.fix_mode_value found n (mode_id, white_value found x)
  = (n, (mode_id, white_value found x)).
Proof.
  cbv zeta. unfold FixWhite.fix_mode_value, white_value.
  destruct x as [c|y| |ty]; try done.
  destruct (FixWhite.is_white c) eqn:Hw; [|by rewrite Hw].
  destruct (FixWhite.palette_color palettes info) as [[[r g] b]|] eqn:Hfound;
    [|by rewrite Hw].
  destruct (palette_color_lookup _ _ _ _ _ Hfound)
    as [name [palette [step [Hp Hs]]]].
  specialize (no_white name palette step r g b Hp Hs).
  unfold FixWhite.is_white in *. simpl in *. by rewrite no_white.
Qed.

Lemma white_variable_stable (n : nat) (var : variable) :
  FixWhite.fix_variable palettes n (white_variable palettes var)
  = (n, white_variable palettes var).
Proof.
  unfold FixWhite.fix_variable.
  change (v_name (white_variable palettes var)) with (v_name var).
  rewrite for_each_fixed; [done|].
  intros [m y] Hin st. apply list_elem_of_In, in_map_iff in Hin.
  destruct Hin as [[m' x] [[= <- <-] _]].
  apply white_value_stable.
Qed.

Lemma white_collection_stable (n : nat) (coll : collection) :
  FixWhite.fix_collection palettes n (white_collection palettes coll)
  = (n, white_collection palettes coll).
Proof.
  unfold FixWhite.fix_collection.
  rewrite for_each_fixed; [done|].
  intros v Hin st. apply list_elem_of_In, in_map_iff in Hin.
  destruct Hin as [v' [<- _]]. apply white_variable_stable.
Qed.

End WhiteStable.

(** X15.  When no colour of the palettes rounds to white, running the
    white pass on the document it has produced changes nothing and fixes
    nothing: the pass is idempotent. *)
Theorem white_pass_idempotent (data : document)
    (palettes : list (string * list (string * rgb))) :
  no_white_step palettes →
  FixWhite.fix_all_white_colors
    (fst (FixWhite.fix_all_white_colors data palettes)) palettes
  = (fst (FixWhite.fix_all_white_colors data palettes), 0).
Proof.
  intros Hno. rewrite fix_all_white_colors_map.
  unfold FixWhite.fix_all_white_colors. cbn [collections].
  rewrite for_each_fixed; [done|].
  intros c Hin st. apply list_elem_of_In, in_map_iff in Hin.
  destruct Hin as [c' [<- _]]. by apply white_collection_stable.
Qed.

(** The document of the repair examples and the grey palette. *)
Lemma white_pass_idempotent_witness :
  FixWhite.fix_all_white_colors
    (fst (FixWhite.fix_all_white_colors semi_document grey_palettes))
    grey_palettes
  = (fst (FixWhite.fix_all_white_colors semi_document grey_palettes), 0).
Proof.
  apply (white_pass_idempotent semi_document grey_palettes).
  intros name palette step r g b Hp Hs.
  unfold grey_palettes in Hp. simpl in Hp.
  destruct (String.eqb name "grey"); [|done]. injection Hp as <-.
  simpl in Hs. destruct (String.eqb step "2500"); [|done].
  injection Hs as <- <- <-. by vm_compute.
Defined.

(** ** Parsing a variable name *)

Lemma lower_char_idempotent (c : ascii) :
  Py.lower_char (Py.lower_char c) = Py.lower_char c.
Proof.
  destruct c as [[] [] [] [] [] [] [] []]; by vm_compute.
Qed.

Lemma lower_idempotent (s : string) : Py.lower (Py.lower s) = Py.lower s.
Proof.
  induction s as [|c s IH]; simpl; [done|].
  by rewrite lower_char_idempotent, IH.
Qed.

Lemma lower_not_empty (s : string) : s ≠ "" → Py.lower s ≠ "".
Proof. by destruct s. Qed.

Lemma span_forall (p : ascii -> bool) (s : string) :
  string_forall p (fst (Py.span p s)) = true.
Proof.
  induction s as [|c s IH]; simpl; [done|].
  destruct (p c) eqn:Hc; [|done].
  destruct (Py.span p s) as [a b]. simpl in *. by rewrite Hc, IH.
Qed.

Lemma match_family_step_parsed (last : ascii -> bool) (var_name : string)
    (palette_name step : string) :
  FixWhite.match_family_step last var_name = Some (palette_name, step) →
  well_parsed (Some palette_name, Some step).
Proof.
  unfold FixWhite.match_family_step.
  destruct (Py.span Py.is_word var_name) as [w r1].
  destruct (String.eqb_spec w "") as [|Hw]; [done|].
  destruct r1 as [|c1 r2]; [done|].
  destruct (Ascii.eqb_spec c1 "/") as [->|Hc1].
  2:{ destruct c1 as [[] [] [] [] [] [] [] []]; done. }
  pose proof (span_forall Py.is_digit r2) as Hdigits.
  destruct (Py.span Py.is_digit r2) as [d r3].
  destruct (String.eqb_spec d "") as [|Hd]; [done|].
  destruct r3 as [|c r4]; [done|].
  destruct (last c); [|done]. intros [= <- <-].
  repeat split; try done.
  - by apply lower_not_empty.
  - apply lower_idempotent.
Qed.

Lemma search_step_parsed (s step : string) :
  FixWhite.search_step s = Some step →
  step ≠ "" ∧ string_forall Py.is_digit step = true.
Proof.
  induction s as [|c s IH]; simpl; [done|].
  destruct (Ascii.eqb c "/"); [|done].
  pose proof (span_forall Py.is_digit s) as Hdigits.
  destruct (Py.span Py.is_digit s) as [d r]. simpl in Hdigits.
  destruct (((String.length d =? 3) || (String.length d =? 4))
            && String.prefix "/" r) eqn:Htest; [|done].
  intros [= <-]. split; [|done]. intros ->. by simpl in Htest.
Qed.

(** X16.  Whatever the variable name, [extract_color_info_from_name]
    returns either [(None, None)] or a palette name that is not empty and
    is in lower case, with a step that is a non-empty run of digits or with
    no step, in which case the palette is one of the seven known ones.  So
    the tests [palette_name and step] of the white pass never reject a name
    for which both were found: the pass has a colour for a name exactly
    when the palettes hold the parsed step of the parsed palette. *)
Theorem extract_color_info_parsed (var_name : string)
    (palettes : list (string * list (string * rgb))) (found : rgb) :
  well_parsed (FixWhite.extract_color_info_from_name var_name)
  ∧ (FixWhite.palette_color palettes
       (FixWhite.extract_color_info_from_name var_name) = Some found
     ↔ ∃ palette_name step palette,
         FixWhite.extract_color_info_from_name var_name
         = (Some palette_name, Some step)
         ∧ Py.dict_get palette_name palettes = Some palette
         ∧ Py.dict_get step palette = Some found).
Proof.
  assert (Hparsed : well_parsed (FixWhite.extract_color_info_from_name var_name)).
  { unfold FixWhite.extract_color_info_from_name.
    destruct (FixWhite.match_family_step (Ascii.eqb "/") var_name)
      as [[p s]|] eqn:H1; [by apply (match_family_step_parsed _ _ _ _ H1)|].
    destruct (FixWhite.match_family_step Py.is_space var_name)
      as [[p s]|] eqn:H2; [by apply (match_family_step_parsed _ _ _ _ H2)|].
    destruct (find _ FixWhite.known_palettes) as [p|] eqn:Hfind; [|done].
    apply find_some in Hfind. destruct Hfind as [Hin _].
    assert (Hp : p ≠ "" ∧ Py.lower p = p).
    { simpl in Hin.
      destruct Hin as [<-|[<-|[<-|[<-|[<-|[<-|[<-|[]]]]]]]]; by split. }
    destruct Hp as [Hne Hlow].
    destruct (FixWhite.search_step var_name) as [s|] eqn:Hs.
    - repeat split; try done; by apply (search_step_parsed _ _ Hs).
    - repeat split; try done. by apply list_elem_of_In. }
  split; [done|].
  destruct (FixWhite.extract_color_info_from_name var_name) as [[p|] [s|]];
    simpl in *.
  - destruct Hparsed as [Hp [_ [Hs _]]].
    destruct (String.eqb_spec p "") as [|_]; [done|].
    destruct (String.eqb_spec s "") as [|_]; [done|]. simpl.
    split.
    + destruct (Py.dict_get p palettes) as [palette|] eqn:Hpal; [|done].
      intros Hstep. by exists p, s, palette.
    + intros [p' [s' [palette [[= <- <-] [-> Hstep]]]]]. done.
  - split; [done|]. by intros [p' [s' [palette [? _]]]].
  - split; [done|]. by intros [p' [s' [palette [? _]]]].
  - split; [done|]. by intros [p' [s' [palette [? _]]]].
Qed.

(** ** The statistics of the external-reference passes *)

Lemma external_classes (var : variable) :
  (external_in_order var = true ∧ external_selected var = false
   ∧ external_malformed var = false)
  ∨ (external_in_order var = false ∧ external_selected var = true
     ∧ external_malformed var = false)
  ∨ (external_in_order var = false ∧ external_selected var = false
     ∧ external_malformed var = true).
Proof.
  unfold external_in_order, external_selected, external_malformed,
    external_in_order.
  destruct (Py.contains "[Semi semantics]" (v_name var));
    cbn [negb andb orb]; [by left|].
  destruct (FixExternal.has_external (valuesByMode var));
    cbn [negb andb orb]; [|by left].
  destruct (3 <=? length (Py.split_on "/" (v_name var)));
    cbn [negb andb orb]; [right; by left|right; by right].
Qed.

Lemma fix_variable_v1_fst (m : list (string * rgb)) (st : FixExternal.stats)
    (var : variable) :
  fst (FixExternal.fix_variable m st var)
  = FixExternal.Stats
      (S (FixExternal.total_variables st))
      (FixExternal.fixed_variables st
       + (if external_selected var then 1 else 0))
      (FixExternal.already_ok st + (if external_in_order var then 1 else 0))
      (FixExternal.errors st + (if external_malformed var then 1 else 0)).
Proof.
  unfold FixExternal.fix_variable, external_selected, external_malformed,
    external_in_order, FixExternal.get_rgb_for_variable.
  destruct (Py.contains "[Semi semantics]" (v_name var)); simpl.
  { f_equal; lia. }
  destruct (FixExternal.has_external (valuesByMode var)); simpl.
  2:{ f_equal; lia. }
  destruct (Py.split_on "/" (v_name var)) as [|a [|b [|w rest]]]; simpl;
    try (f_equal; lia).
  destruct (Py.dict_get (a +:+ "/" +:+ b) m) as [[[r g] b']|]; simpl;
    f_equal; lia.
Qed.

Lemma fix_variable_v2_fst (st : FixExternalV2.stats) (var : variable) :
  fst (FixExternalV2.fix_variable st var)
  = FixExternalV2.Stats
      (S (FixExternalV2.total_variables st))
      (FixExternalV2.fixed_variables st
       + (if external_selected var then 1 else 0))
      (FixExternalV2.already_ok st + (if external_in_order var then 1 else 0))
      (FixExternalV2.external_refs_found st
       + (if external_in_order var then 0 else 1))
      (FixExternalV2.errors st + (if external_malformed var then 1 else 0)).
Proof.
  unfold FixExternalV2.fix_variable, external_selected, external_malformed,
    external_in_order.
  destruct (Py.contains "[Semi semantics]" (v_name var)); simpl.
  { f_equal; lia. }
  destruct (FixExternal.has_external (valuesByMode var)); simpl.
  2:{ f_equal; lia. }
  destruct (Py.split_on "/" (v_name var)) as [|a [|b [|w rest]]]; simpl;
    try (f_equal; lia).
  unfold FixExternalV2.grey.
  destruct (Py.int_of_string b) as [n|];
    [destruct (2100 <=? n)%Z|];
    try destruct (FixExternalV2.get_rgb_for_color a) as [[r g] b'];
    simpl; f_equal; lia.
Qed.

Lemma count_of_cons (p : variable -> bool) (var : variable)
    (vars : list variable) :
  count_of p (var :: vars) = (if p var then 1 else 0) + count_of p vars.
Proof. unfold count_of. simpl. by destruct (p var). Qed.

Lemma for_each_v1_stats (m : list (string * rgb)) (vars : list variable) :
  ∀ st,
    fst (for_each (FixExternal.fix_variable m) st vars)
    = FixExternal.Stats
        (FixExternal.total_variables st + length vars)
        (FixExternal.fixed_variables st + count_of external_selected vars)
        (FixExternal.already_ok st + count_of external_in_order vars)
        (FixExternal.errors st + count_of external_malformed vars).
Proof.
  induction vars as [|var vars IH]; intros st.
  - destruct st. simpl. unfold count_of. simpl. f_equal; lia.
  - cbn [for_each]. pose proof (fix_variable_v1_fst m st var) as Hstep.
    destruct (FixExternal.fix_variable m st var) as [st1 var'].
    specialize (IH st1).
    destruct (for_each (FixExternal.fix_variable m) st1 vars) as [st2 vars'].
    simpl in *. subst st1. rewrite IH, !count_of_cons. simpl. f_equal; lia.
Qed.

Lemma for_each_v2_stats (vars : list variable) :
  ∀ st,
    fst (for_each FixExternalV2.fix_variable st vars)
    = FixExternalV2.Stats
        (FixExternalV2.total_variables st + length vars)
        (FixExternalV2.fixed_variables st + count_of external_selected vars)
        (FixExternalV2.already_ok st + count_of external_in_order vars)
        (FixExternalV2.external_refs_found st
         + (length vars - count_of external_in_order vars))
        (FixExternalV2.errors st + count_of external_malformed vars).
Proof.
  induction vars as [|var vars IH]; intros st.
  - destruct st. simpl. unfold count_of. simpl. f_equal; lia.
  - cbn [for_each]. pose proof (fix_variable_v2_fst st var) as Hstep.
    destruct (FixExternalV2.fix_variable st var) as [st1 var'].
    specialize (IH st1).
    destruct (for_each FixExternalV2.fix_variable st1 vars) as [st2 vars'].
    simpl in *. subst st1. rewrite IH, !count_of_cons. simpl.
    assert (count_of external_in_order vars ≤ length vars).
    { unfold count_of. apply filter_length_le. }
    f_equal; destruct (external_in_order var); lia.
Qed.

Lemma count_of_classes (vars : list variable) :
  length vars
  = count_of external_selected vars + count_of external_in_order vars
    + count_of external_malformed vars.
Proof.
  induction vars as [|var vars IH]; [done|].
  rewrite !count_of_cons. simpl.
  destruct (external_classes var) as [[-> [-> ->]]|[[-> [-> ->]]|[-> [-> ->]]]];
    lia.
Qed.

(** X17.  The statistics both external-reference passes return describe
    the variables of the first ["00_Semi semantics"] collection (none when
    there is no such collection): [total_variables] is their number,
    [fixed_variables] the number of selected ones, [already_ok] the number
    of those with ["[Semi semantics]"] in the name or without an external
    alias, [errors] the number of those with an external alias and fewer
    than three name segments.  So [total = fixed + already_ok + errors],
    and in version 2 [external_refs_found = fixed + errors]. *)
Theorem external_pass_statistics (data : document) :
  (let '(_, st) := FixExternal.fix_external_references data in
   FixExternal.total_variables st = length (semi_variables data)
   ∧ FixExternal.fixed_variables st
     = count_of external_selected (semi_variables data)
   ∧ FixExternal.already_ok st
     = count_of external_in_order (semi_variables data)
   ∧ FixExternal.errors st
     = count_of external_malformed (semi_variables data)
   ∧ FixExternal.total_variables st
     = FixExternal.fixed_variables st + FixExternal.already_ok st
       + FixExternal.errors st)
  ∧ (let '(_, st) := FixExternalV2.fix_external_references data in
     FixExternalV2.total_variables st = length (semi_variables data)
     ∧ FixExternalV2.fixed_variables st
       = count_of external_selected (semi_variables data)
     ∧ FixExternalV2.already_ok st
       = count_of external_in_order (semi_variables data)
     ∧ FixExternalV2.errors st
       = count_of external_malformed (semi_variables data)
     ∧ FixExternalV2.total_variables st
       = FixExternalV2.fixed_variables st + FixExternalV2.already_ok st
         + FixExternalV2.errors st
     ∧ FixExternalV2.external_refs_found st
       = FixExternalV2.fixed_variables st + FixExternalV2.errors st).
Proof.
  unfold FixExternal.fix_external_references,
    FixExternalV2.fix_external_references, semi_variables.
  destruct (find _ (collections data)) as [coll|].
  2:{ unfold count_of. simpl. repeat split; lia. }
  pose proof (count_of_classes (variables coll)) as Hsum.
  split.
  - pose proof (for_each_v1_stats
                  (FixExternal.extract_rgb_values_from_working_vars coll)
                  (variables coll) (FixExternal.Stats 0 0 0 0)) as Hst.
    destruct (for_each _ _ (variables coll)) as [st vars'].
    simpl in Hst. subst st. simpl. repeat split; lia.
  - pose proof (for_each_v2_stats (variables coll)
                  (FixExternalV2.Stats 0 0 0 0 0)) as Hst.
    destruct (for_each _ _ (variables coll)) as [st vars'].
    simpl in Hst. subst st. simpl. repeat split; lia.
Qed.

(** ** Running an external-reference pass twice *)

Lemma replace_first_idempotent {A} (p : A -> bool) (y : A) (l : list A) :
  p y = true →
  replace_first p y (replace_first p y l) = replace_first p y l.
Proof.
  intros Hy. induction l as [|z l IH]; simpl; [done|].
  destruct (p z) eqn:Hz; simpl.
  - by rewrite Hy.
  - by rewrite Hz, IH.
Qed.

Lemma overwrite_all_modes_in_order (c : color) (var : variable) :
  FixExternal.has_external
    (valuesByMode (FixExternal.overwrite_all_modes c var)) = false.
Proof.
  unfold FixExternal.overwrite_all_modes, FixExternal.has_external. simpl.
  induction (valuesByMode var) as [|[m x] l IH]; simpl; [done|]. exact IH.
Qed.

(** What a rewritten variable looks like to a second run. *)
Lemma rewritten_classes (f : variable -> variable) (var : variable) :
  (external_selected var = true
   ∧ ∃ c, f var = FixExternal.overwrite_all_modes c var)
  ∨ (external_selected var = false ∧ f var = var) →
  v_name (f var) = v_name var
  ∧ external_selected (f var) = false
  ∧ external_in_order (f var)
    = external_in_order var || external_selected var
  ∧ external_malformed (f var) = external_malformed var.
Proof.
  destruct (external_classes var) as [[Ho [Hs Hm]]|[[Ho [Hs Hm]]|[Ho [Hs Hm]]]];
    intros [[Hsel [c Hf]]|[Hsel Hf]]; try congruence;
    rewrite Hf, ?Ho, ?Hs, ?Hm; try done.
  unfold external_selected, external_malformed, external_in_order in *.
  cbn [v_name FixExternal.overwrite_all_modes].
  rewrite overwrite_all_modes_in_order.
  destruct (Py.contains "[Semi semantics]" (v_name var)); [done|].
  by destruct (3 <=? length (Py.split_on "/" (v_name var))).
Qed.

Lemma rewritten_counts (f : variable -> variable) (vars : list variable) :
  (∀ var, (external_selected var = true
           ∧ ∃ c, f var = FixExternal.overwrite_all_modes c var)
          ∨ (external_selected var = false ∧ f var = var)) →
  count_of external_selected (map f vars) = 0
  ∧ count_of external_in_order (map f vars)
    = count_of external_in_order vars + count_of external_selected vars
  ∧ count_of external_malformed (map f vars)
    = count_of external_malformed vars
  ∧ map f (map f vars) = map f vars.
Proof.
  intros Hf. induction vars as [|var vars IH].
  - by unfold count_of.
  - destruct IH as [IH1 [IH2 [IH3 IH4]]].
    cbn [map]. rewrite !count_of_cons, IH1, IH2, IH3, IH4.
    destruct (rewritten_classes f var (Hf var)) as [Hn [-> [-> ->]]].
    assert (Hff : f (f var) = f var).
    { destruct (Hf (f var)) as [[Hsel _]|[_ Hsame]]; [|done].
      destruct (rewritten_classes f var (Hf var)) as [_ [Hnot _]].
      congruence. }
    rewrite Hff.
    destruct (external_classes var) as [[-> [-> ->]]|[[-> [-> ->]]|[-> [-> ->]]]];
      repeat split; simpl; lia.
Qed.

Lemma for_each_pair {A S : Type} (body : S -> A -> S * A) (st : S) (l : list A) :
  for_each body st l = (fst (for_each body st l), snd (for_each body st l)).
Proof. by destruct (for_each body st l). Qed.

Lemma extract_after_rewrite (f : variable -> variable) (vars : list variable) :
  (∀ var, (external_selected var = true
           ∧ ∃ c, f var = FixExternal.overwrite_all_modes c var)
          ∨ (external_selected var = false ∧ f var = var)) →
  ∀ id name ms id' name' ms',
    FixExternal.extract_rgb_values_from_working_vars
      (Collection id name ms (map f vars))
    = FixExternal.extract_rgb_values_from_working_vars
        (Collection id' name' ms' vars).
Proof.
  intros Hf id name ms id' name' ms'.
  unfold FixExternal.extract_rgb_values_from_working_vars.
  cbn [variables]. generalize (@nil (string * rgb)).
  induction vars as [|var vars IH]; intros acc; [done|].
  cbn [map foldl]. rewrite <- IH. f_equal.
  destruct (Hf var) as [[Hsel [c ->]]|[_ ->]]; [|done].
  cbn [v_name FixExternal.overwrite_all_modes].
  unfold external_selected in Hsel.
  destruct (Py.contains "[Semi semantics]" (v_name var)); [done|].
  by destruct (Py.split_on "/" (v_name var)) as [|a [|b rest]].
Qed.

Lemma for_each_v1 (m : list (string * rgb)) (vars : list variable) :
  for_each (FixExternal.fix_variable m) (FixExternal.Stats 0 0 0 0) vars
  = (FixExternal.Stats (length vars) (count_of external_selected vars)
       (count_of external_in_order vars) (count_of external_malformed vars),
     map (ext_variable m) vars).
Proof.
  rewrite for_each_pair, for_each_v1_stats.
  by rewrite (for_each_snd _ _ (fun st x => fix_variable_v1_snd m st x)).
Qed.

Lemma for_each_v2 (vars : list variable) :
  for_each FixExternalV2.fix_variable (FixExternalV2.Stats 0 0 0 0 0) vars
  = (FixExternalV2.Stats (length vars) (count_of external_selected vars)
       (count_of external_in_order vars)
       (length vars - count_of external_in_order vars)
       (count_of external_malformed vars),
     map ext_variable_v2 vars).
Proof.
  rewrite for_each_pair, for_each_v2_stats.
  by rewrite (for_each_snd _ _ fix_variable_v2_snd).
Qed.

(** X18.  Both external-reference passes are idempotent on the document:
    run on the document a first run has left, the pass returns it
    unchanged, fixes nothing, counts the variables fixed before as already
    in order and reports the same errors (in version 2 every external
    reference it still finds is one of those errors). *)
Theorem external_pass_idempotent (data : document) :
  (let '(data', st) := FixExternal.fix_external_references data in
   FixExternal.fix_external_references data'
   = (data',
      FixExternal.Stats (FixExternal.total_variables st) 0
        (FixExternal.already_ok st + FixExternal.fixed_variables st)
        (FixExternal.errors st)))
  ∧ (let '(data', st) := FixExternalV2.fix_external_references data in
     FixExternalV2.fix_external_references data'
     = (data',
        FixExternalV2.Stats (FixExternalV2.total_variables st) 0
          (FixExternalV2.already_ok st + FixExternalV2.fixed_variables st)
          (FixExternalV2.errors st) (FixExternalV2.errors st))).
Proof.
  unfold FixExternal.fix_external_references,
    FixExternalV2.fix_external_references.
  destruct (find FixExternal.is_semi_semantics (collections data))
    as [coll|] eqn:Hfind.
  2:{ by rewrite Hfind. }
  pose proof (find_satisfies _ _ _ Hfind) as Hsemi.
  pose proof (count_of_classes (variables coll)) as Hsum.
  split.
  - set (m := FixExternal.extract_rgb_values_from_working_vars coll).
    rewrite for_each_v1. cbn [collections].
    destruct (rewritten_counts (ext_variable m) (variables coll)
                (ext_variable_cases m)) as [Hsel [Hok [Herr Hmap]]].
    rewrite (find_replace_first _ coll) by done.
    cbn [c_id c_name modes variables].
    rewrite (extract_after_rewrite (ext_variable m) (variables coll)
               (ext_variable_cases m) _ _ _
               (c_id coll) (c_name coll) (modes coll)).
    replace (Collection (c_id coll) (c_name coll) (modes coll) (variables coll))
      with coll by (by destruct coll).
    fold m. rewrite for_each_v1, Hsel, Hok, Herr, Hmap, length_map.
    by rewrite replace_first_idempotent.
  - rewrite for_each_v2. cbn [collections].
    destruct (rewritten_counts ext_variable_v2 (variables coll)
                ext_variable_v2_cases) as [Hsel [Hok [Herr Hmap]]].
    rewrite (find_replace_first _ coll) by done.
    cbn [c_id c_name modes variables].
    rewrite for_each_v2, Hsel, Hok, Herr, Hmap, length_map.
    rewrite replace_first_idempotent by done.
    cbn [FixExternalV2.total_variables FixExternalV2.fixed_variables
         FixExternalV2.already_ok FixExternalV2.errors].
    do 2 f_equal. lia.
Qed.

(** ** The alpha of a weight *)

Lemma prefix_shorter (a b : string) :
  ∀ s, String.prefix (a +:+ b) s = true → String.prefix a s = true.
Proof.
  induction a as [|c a IH]; intros s.
  - by destruct s.
  - destruct s as [|c' s]; [done|]. simpl.
    destruct (ascii_dec c c'); [apply IH|done].
Qed.

Lemma contains_shorter (a b : string) :
  ∀ s, Py.contains (a +:+ b) s = true → Py.contains a s = true.
Proof.
  induction s as [|c s IH].
  - cbn [Py.contains]. rewrite !orb_false_r. apply prefix_shorter.
  - cbn [Py.contains]. intros Hc. apply orb_true_iff in Hc.
    apply orb_true_iff. destruct Hc as [Hc|Hc].
    + left. by apply (prefix_shorter a b).
    + right. by apply IH.
Qed.

(** X19.  [get_alpha_for_weight] answers [1.0] for the weight
    ["Bold A11Y"] and for no other: a longer weight that contains
    ["Bold A11Y"] also contains ["Bold"], which comes first in the table,
    so the partial match gives it the alpha of ["Bold"] or of an earlier
    key. *)
Theorem full_alpha_needs_exact_weight (weight : string) :
  FixExternal.get_alpha_for_weight weight = F64.one ↔ weight = "Bold A11Y".
Proof.
  split; [|by intros ->].
  unfold FixExternal.get_alpha_for_weight, FixExternal.WEIGHT_ALPHA_MAP.
  cbn [Py.dict_get].
  repeat match goal with
         | |- context [String.eqb weight ?k] =>
             destruct (String.eqb_spec weight k) as [->|?];
             [solve [done | intros H; vm_compute in H; discriminate H]|]
         end.
  cbn [find].
  pose proof (contains_shorter "Bold" " A11Y" weight) as Hbold.
  change ("Bold" +:+ " A11Y") with "Bold A11Y" in Hbold.
  repeat match goal with
         | |- context [Py.contains ?k weight] =>
             destruct (Py.contains k weight) eqn:?;
             [solve [intros H; vm_compute in H; discriminate H
                    | by specialize (Hbold eq_refl)]|]
         end.
  intros H. vm_compute in H. discriminate H.
Qed.

(** ** White written by the external-reference passes *)

Lemma overwrite_white (alpha : float) (var : variable) :
  all_modes_white
    (FixExternal.overwrite_all_modes (Color F64.one F64.one F64.one alpha) var).
Proof.
  intros e He. unfold FixExternal.overwrite_all_modes in He. simpl in He.
  apply list_elem_of_In, in_map_iff in He. destruct He as [[m x] [<- _]].
  by eexists.
Qed.

(** [int] accepts a numeral of 4300 digits and raises on one of 4301. *)
Example int_of_long_numeral :
  match Py.int_of_string (nines 4300) with
  | Py.Ok _ => True
  | Py.ValueError => False
  end
  ∧ Py.int_of_string (nines 4301) = Py.ValueError.
Proof. split; by vm_compute. Qed.



(** X21.  Version 1 falls back on white: a selected variable for whose
    ["color/value_level"] key the working variables supply no colour gets
    [r = g = b = 1.0] in every mode. *)
Theorem missing_colors_repaired_white (rgb_by_color_value : list (string * rgb))
    (var : variable) (key : string) :
  external_selected var = true →
  color_key var = Some key →
  Py.dict_get key rgb_by_color_value = None →
  all_modes_white (ext_variable rgb_by_color_value var).
Proof.
  unfold external_selected, color_key, ext_variable, FixExternal.fix_variable,
    FixExternal.get_rgb_for_variable.
  destruct (Py.contains "[Semi semantics]" (v_name var)); [done|].
  destruct (FixExternal.has_external (valuesByMode var)); [|done].
  destruct (Py.split_on "/" (v_name var)) as [|a [|b [|w rest]]]; try done.
  intros _ [= <-] ->. cbn [negb snd FixExternal.GREY_RGB].
  apply overwrite_white.
Qed.

(** The working variables of the example collection hold ["Indigo/1000"]
    only. *)
Lemma missing_colors_repaired_white_witness :
  all_modes_white
    (ext_variable
       (FixExternal.extract_rgb_values_from_working_vars semi_collection)
       indigo_2500).
Proof.
  apply (missing_colors_repaired_white _ indigo_2500 "Indigo/2500");
    by vm_compute.
Defined.

(** ** The two passes of fix_figma_variable_colors.py *)

Lemma fix_grey_value_eq (found : rgb) (n : nat) (entry : string * value) :
  FixFigma.fix_grey_value found n entry
  = FixWhite.fix_mode_value (Some found) n entry.
Proof.
  destruct entry as [m [c|y| |ty]], found as [[r g] b]; done.
Qed.

Lemma fix_mode_value_accounts_any (found : option rgb) (n : nat)
    (entry : string * value) :
  accounts False whites_of_entry n entry
    (FixWhite.fix_mode_value found n entry).
Proof.
  destruct entry as [mode_id x]. unfold FixWhite.fix_mode_value, accounts.
  destruct x as [c|y| |ty];
    try (exists 0; cbn [fst snd]; rewrite !whites_of_entry_eq;
         repeat split; lia).
  destruct (FixWhite.is_white c) eqn:Hw.
  2:{ exists 0. cbn [fst snd]. rewrite !whites_of_entry_eq, Hw.
      repeat split; lia. }
  destruct found as [[[r g] b]|].
  2:{ exists 0. cbn [fst snd]. rewrite !whites_of_entry_eq, Hw.
      repeat split; lia. }
  exists 1. cbn [fst snd]. rewrite !whites_of_entry_eq, Hw.
  destruct (FixWhite.is_white (Color _ _ _ (c_a c))); repeat split; lia.
Qed.

Lemma white_value_replaced (found : option rgb) (x : value) :
  white_replaced x (white_value found x).
Proof.
  unfold white_replaced, white_value.
  destruct x as [c|y| |ty]; try (by left).
  destruct (FixWhite.is_white c) eqn:Hw; [|by left].
  destruct found as [[[r g] b]|]; [|by left].
  right. by eexists c, _.
Qed.

Section GreyPass.

Variable grey_rgb_palette : list (string * rgb).

Lemma fix_grey_variable_accounts (n : nat) (var : variable) :
  accounts False whites_of_variable n var
    (FixFigma.fix_grey_variable grey_rgb_palette n var).
Proof.
  assert (Hsame : accounts False whites_of_variable n var (n, var)).
  { exists 0. simpl. repeat split; lia. }
  unfold FixFigma.fix_grey_variable.
  destruct (negb (Py.startswith "Grey/" (v_name var))); [done|].
  destruct (Py.split_on "/" (v_name var)) as [|a [|step rest]]; try done.
  destruct (Py.dict_get step grey_rgb_palette) as [found|]; [|done].
  pose proof (for_each_accounts False whites_of_entry
                (FixFigma.fix_grey_value found)
                (fun k e => eq_ind_r (accounts False whites_of_entry k e)
                              (fix_mode_value_accounts_any (Some found) k e)
                              (fix_grey_value_eq found k e))
                (valuesByMode var) n) as [k Hk].
  destruct (for_each _ n (valuesByMode var)) as [n' values'].
  rewrite !sum_whites_of_entries in Hk. exists k. exact Hk.
Qed.

Lemma fix_grey_variable_snd (n : nat) (var : variable) :
  snd (FixFigma.fix_grey_variable grey_rgb_palette n var)
  = grey_variable grey_rgb_palette var.
Proof.
  unfold grey_variable, FixFigma.fix_grey_variable.
  destruct (negb (Py.startswith "Grey/" (v_name var))); [done|].
  destruct (Py.split_on "/" (v_name var)) as [|a [|step rest]]; try done.
  destruct (Py.dict_get step grey_rgb_palette) as [found|]; [|done].
  pose proof (for_each_snd (FixFigma.fix_grey_value found)
                (fun '(m, x) => (m, white_value (Some found) x))) as Hsnd.
  assert (Hbody : ∀ st x, snd (FixFigma.fix_grey_value found st x)
                          = (let '(m, x) := x in (m, white_value (Some found) x))).
  { intros st x. rewrite fix_grey_value_eq. apply fix_mode_value_snd. }
  pose proof (Hsnd Hbody (valuesByMode var) n) as Hn.
  pose proof (Hsnd Hbody (valuesByMode var) 0) as H0.
  destruct (for_each _ n (valuesByMode var)) as [n1 l1].
  destruct (for_each _ 0 (valuesByMode var)) as [n2 l2].
  simpl in *. congruence.
Qed.

Lemma grey_variable_entrywise (var : variable) :
  entrywise white_replaced var (grey_variable grey_rgb_palette var)
  ∧ (Py.startswith "Grey/" (v_name var) = false →
     grey_variable grey_rgb_palette var = var).
Proof.
  assert (Hrefl : entrywise white_replaced var var).
  { repeat split. apply Forall2_same. intros e. split; [done|by left]. }
  unfold grey_variable, FixFigma.fix_grey_variable.
  destruct (Py.startswith "Grey/" (v_name var)); cbn [negb];
    [|by split].
  split; [|done].
  destruct (Py.split_on "/" (v_name var)) as [|a [|step rest]]; try done.
  destruct (Py.dict_get step grey_rgb_palette) as [found|]; [|done].
  pose proof (for_each_snd (FixFigma.fix_grey_value found)
                (fun '(m, x) => (m, white_value (Some found) x))
                (fun st x => eq_trans (f_equal snd (fix_grey_value_eq found st x))
                                      (fix_mode_value_snd (Some found) st x))
                (valuesByMode var) 0) as Hsnd.
  destruct (for_each _ 0 (valuesByMode var)) as [n' values'].
  simpl in Hsnd. subst values'. repeat split. simpl.
  apply Forall2_map_same. intros [m x] _. split; [done|].
  apply white_value_replaced.
Qed.

End GreyPass.

(** X22.  [fix_grey_colors] rewrites the variables of the first
    ["00_Semi semantics"] collection and nothing else.  A variable whose
    name does not start with ["Grey/"] is returned as it is; in the others
    every value is kept, or is a white direct colour replaced by a direct
    colour with the same alpha.  The count returned is at most the number
    of white values of that collection, the pass adds no white value, and
    it removes at most as many as it counts. *)
Theorem grey_pass_entry_local (data : document)
    (grey_rgb_palette : list (string * rgb)) :
  let '(data', fixed) := FixFigma.fix_grey_colors data grey_rgb_palette in
  rewrites_first_semi (fun _ => grey_variable grey_rgb_palette) data
    (collections data')
  ∧ (∀ var, entrywise white_replaced var (grey_variable grey_rgb_palette var)
            ∧ (Py.startswith "Grey/" (v_name var) = false →
               grey_variable grey_rgb_palette var = var))
  ∧ fixed ≤ list_sum (map whites_of_variable (semi_variables data))
  ∧ list_sum (map whites_of_variable (semi_variables data'))
    ≤ list_sum (map whites_of_variable (semi_variables data))
  ∧ list_sum (map whites_of_variable (semi_variables data))
    ≤ list_sum (map whites_of_variable (semi_variables data')) + fixed.
Proof.
  unfold FixFigma.fix_grey_colors, rewrites_first_semi, semi_variables.
  destruct (find FixExternal.is_semi_semantics (collections data))
    as [coll|] eqn:Hfind.
  2:{ rewrite Hfind. split; [done|]. split; [apply grey_variable_entrywise|].
      simpl. lia. }
  pose proof (for_each_accounts False whites_of_variable _
                (fix_grey_variable_accounts grey_rgb_palette)
                (variables coll) 0) as [k [Hk [Hle [Hge [Hmono _]]]]].
  pose proof (for_each_snd _ _ (fix_grey_variable_snd grey_rgb_palette)
                (variables coll) 0) as Hsnd.
  destruct (for_each _ 0 (variables coll)) as [fixed vars'].
  simpl in Hk, Hle, Hge, Hmono, Hsnd. subst fixed vars'.
  cbn [collections].
  rewrite (find_replace_first _ coll) by
    (done || by apply find_satisfies in Hfind).
  cbn [variables].
  split; [done|]. split; [apply grey_variable_entrywise|]. lia.
Qed.

Section ReferencePass.

Variable rangde_palettes_rgb : list (string * list (string * rgb)).

Lemma fix_reference_value_snd (var_name : string) (n : nat)
    (entry : string * value) :
  snd (FixFigma.fix_reference_value rangde_palettes_rgb var_name n entry)
  = snd (FixFigma.fix_reference_value rangde_palettes_rgb var_name 0 entry).
Proof.
  unfold FixFigma.fix_reference_value.
  destruct entry as [m [c|y| |ty]]; try done.
  destruct (Py.contains "/" y); [|done].
  destruct (Py.split_on "/" var_name) as [|a [|step rest]]; try done.
  destruct (Py.dict_get (Py.lower a) rangde_palettes_rgb) as [palette|];
    [|done].
  by destruct (Py.dict_get step palette) as [[[r g] b]|].
Qed.

Lemma fix_reference_value_replaced (var_name : string) (n : nat)
    (entry : string * value) :
  let out := FixFigma.fix_reference_value rangde_palettes_rgb var_name n entry in
  fst (snd out) = fst entry
  ∧ reference_replaced (snd entry) (snd (snd out))
  ∧ accounts True external_entry n entry out.
Proof.
  assert (Hsame : fst (snd (n, entry)) = fst entry
                  ∧ reference_replaced (snd entry) (snd (snd (n, entry)))
                  ∧ accounts True external_entry n entry (n, entry)).
  { split; [done|]. split; [by left|]. exists 0. simpl. repeat split; lia. }
  cbv zeta. unfold FixFigma.fix_reference_value.
  destruct entry as [m [c|y| |ty]]; try done.
  destruct (Py.contains "/" y) eqn:Hext; [|done].
  destruct (Py.split_on "/" var_name) as [|a [|step rest]]; try done.
  destruct (Py.dict_get (Py.lower a) rangde_palettes_rgb) as [palette|];
    [|done].
  destruct (Py.dict_get step palette) as [[[r g] b]|]; [|done].
  split; [done|]. split.
  - right. eexists y, _. repeat split; try done. simpl.
    unfold FixFigma.surface_alpha.
    destruct (Py.contains "surface" (Py.lower var_name)); [by left|by right].
  - exists 1. unfold external_entry. simpl. rewrite Hext. repeat split; lia.
Qed.

Lemma fix_reference_variable_snd (n : nat) (var : variable) :
  snd (FixFigma.fix_reference_variable rangde_palettes_rgb n var)
  = reference_variable rangde_palettes_rgb var.
Proof.
  unfold reference_variable, FixFigma.fix_reference_variable.
  pose proof (for_each_snd
                (FixFigma.fix_reference_value rangde_palettes_rgb (v_name var))
                (fun x => snd (FixFigma.fix_reference_value rangde_palettes_rgb
                                 (v_name var) 0 x))
                (fix_reference_value_snd (v_name var))) as Hsnd.
  pose proof (Hsnd (valuesByMode var) n) as Hn.
  pose proof (Hsnd (valuesByMode var) 0) as H0.
  destruct (for_each _ n (valuesByMode var)) as [n1 l1].
  destruct (for_each _ 0 (valuesByMode var)) as [n2 l2].
  simpl in *. congruence.
Qed.

Lemma reference_variable_entrywise (var : variable) :
  entrywise reference_replaced var (reference_variable rangde_palettes_rgb var).
Proof.
  unfold reference_variable, FixFigma.fix_reference_variable.
  pose proof (for_each_snd
                (FixFigma.fix_reference_value rangde_palettes_rgb (v_name var))
                (fun x => snd (FixFigma.fix_reference_value rangde_palettes_rgb
                                 (v_name var) 0 x))
                (fix_reference_value_snd (v_name var))
                (valuesByMode var) 0) as Hsnd.
  destruct (for_each _ 0 (valuesByMode var)) as [n' values'].
  simpl in Hsnd. subst values'. repeat split. simpl.
  apply Forall2_map_same. intros e _.
  destruct (fix_reference_value_replaced (v_name var) 0 e) as [Hk [Hr _]].
  by split.
Qed.

Lemma fix_reference_variable_accounts (n : nat) (var : variable) :
  accounts True externals_of_variable n var
    (FixFigma.fix_reference_variable rangde_palettes_rgb n var).
Proof.
  unfold FixFigma.fix_reference_variable.
  pose proof (for_each_accounts True external_entry
                (FixFigma.fix_reference_value rangde_palettes_rgb (v_name var))
                (fun k e => proj2 (proj2 (fix_reference_value_replaced
                                            (v_name var) k e)))
                (valuesByMode var) n) as [k Hk].
  destruct (for_each _ n (valuesByMode var)) as [n' values'].
  exists k. exact Hk.
Qed.

End ReferencePass.

(** X23.  [fix_external_references] of fix_figma_variable_colors.py
    rewrites the variables of the first ["00_Semi semantics"] collection
    and nothing else; in them every value is kept, or is an external alias
    replaced by a direct colour whose alpha is [0.08] or [1.0].  The count
    returned is the number of external aliases that collection has lost. *)
Theorem reference_pass_entry_local (data : document)
    (rangde_palettes_rgb : list (string * list (string * rgb))) :
  let '(data', fixed) :=
    FixFigma.fix_external_references data rangde_palettes_rgb in
  rewrites_first_semi (fun _ => reference_variable rangde_palettes_rgb) data
    (collections data')
  ∧ (∀ var, entrywise reference_replaced var
              (reference_variable rangde_palettes_rgb var))
  ∧ list_sum (map externals_of_variable (semi_variables data))
    = list_sum (map externals_of_variable (semi_variables data')) + fixed.
Proof.
  unfold FixFigma.fix_external_references, rewrites_first_semi, semi_variables.
  destruct (find FixExternal.is_semi_semantics (collections data))
    as [coll|] eqn:Hfind.
  2:{ rewrite Hfind. split; [done|].
      split; [apply reference_variable_entrywise|]. simpl. lia. }
  pose proof (for_each_accounts True externals_of_variable _
                (fix_reference_variable_accounts rangde_palettes_rgb)
                (variables coll) 0) as [k [Hk [_ [_ [_ Hex]]]]].
  pose proof (for_each_snd _ _ (fix_reference_variable_snd rangde_palettes_rgb)
                (variables coll) 0) as Hsnd.
  destruct (for_each _ 0 (variables coll)) as [fixed vars'].
  simpl in Hk, Hex, Hsnd. subst fixed vars'.
  cbn [collections].
  rewrite (find_replace_first _ coll) by
    (done || by apply find_satisfies in Hfind).
  cbn [variables].
  split; [done|]. split; [apply reference_variable_entrywise|]. by apply Hex.
Qed.

(** ** The depth-bounded tracer of analyze_myjio_colors.py *)

Lemma analyze_index_fold (colls : list collection) :
  ∀ (var_index : gmap string DeepTrace.indexed_variable)
    (collection_index : gmap string collection),
    foldl (fun var_index coll =>
             foldl (fun var_index var =>
                      <[v_id var :=
                          DeepTrace.IndexedVariable var (c_name coll) (c_id coll)
                                                    (modes coll)]> var_index)
                   var_index (variables coll))
          var_index colls
    = fst (foldl (fun '(var_index, collection_index) coll =>
                    (foldl (fun var_index var =>
                              <[v_id var :=
                                  DeepTrace.IndexedVariable var (c_name coll)
                                    (c_id coll) (modes coll)]> var_index)
                           var_index (variables coll),
                     <[c_id coll := coll]> collection_index))
                 (var_index, collection_index) colls).
Proof.
  induction colls as [|coll colls IH]; intros var_index collection_index;
    [done|].
  cbn [foldl]. apply IH.
Qed.

Lemma analyze_index_variables (data : document) :
  DeepTrace.iv_var <$> AnalyzeColors.build_variable_index data
  = AliasValidator.variables_by_id data.
Proof.
  unfold AnalyzeColors.build_variable_index.
  rewrite (analyze_index_fold (collections data) ∅ ∅).
  destruct (build_variable_index_fold (collections data) ∅ ∅) as [Hmap _].
  cbv zeta in Hmap. rewrite Hmap, fmap_empty.
  symmetry. apply variables_by_id_fold.
Qed.

Lemma resolve_leads (idx : gmap string variable) (mode_id v : string)
    (c : color) (p : list string) :
  AliasValidator.resolve idx v mode_id = (true, Some c, p) →
  leads_to_color idx mode_id v c p.
Proof.
  intros Hres.
  pose proof (resolve_big_fuel idx mode_id v (S (size idx)) ltac:(lia)) as Hrun.
  rewrite Hres in Hrun.
  destruct (AliasValidator.resolve_alias_chain (S (size idx)) idx v mode_id ∅)
    as [[[[s fv] sub] vis]|] eqn:Hcall; [|done].
  simpl in Hrun. injection Hrun as -> -> ->.
  destruct (resolve_success_leads idx mode_id _ _ _ _ _ _ Hcall)
    as [c' [[= <-] Hlead]].
  done.
Qed.

Section Analyzer.
Import AnalyzeColors.

Variable var_index : gmap string DeepTrace.indexed_variable.
Variable mode_id : string.

Local Abbreviation idx := (DeepTrace.iv_var <$> var_index).

Lemma analyzer_lookup (x : string) (var : variable) :
  idx !! x = Some var →
  ∃ iv, var_index !! x = Some iv ∧ DeepTrace.iv_var iv = var.
Proof.
  rewrite lookup_fmap. destruct (var_index !! x) as [iv|]; [|done].
  intros [= <-]. by exists iv.
Qed.

Lemma analyzer_alias (x y : string) :
  alias_target idx mode_id x = Some y →
  ∃ iv, var_index !! x = Some iv
        ∧ name_of idx x = v_name (DeepTrace.iv_var iv)
        ∧ Py.dict_get mode_id (valuesByMode (DeepTrace.iv_var iv))
          = Some (VariableAlias y).
Proof.
  unfold alias_target, name_of.
  destruct (idx !! x) as [var|] eqn:Hlk; [|done].
  destruct (analyzer_lookup x var Hlk) as [iv [Hiv <-]].
  destruct (Py.dict_get mode_id (valuesByMode (DeepTrace.iv_var iv)))
    as [[c|t| |ty]|] eqn:Hval; try done.
  destruct (Py.contains "/" t); [done|]. intros [= ->]. exists iv.
  by rewrite Hval.
Qed.

Lemma trace_from_success (n : nat) :
  ∀ v depth remaining t var c,
    n < remaining →
    follow idx mode_id n v = Some t → idx !! t = Some var →
    Py.dict_get mode_id (valuesByMode var) = Some (Direct c) →
    var_names (trace_from remaining v var_index mode_id depth)
    = name_of idx <$> (v :: orbit idx mode_id n v)
    ∧ last (trace_from remaining v var_index mode_id depth)
      = Some (Value (depth + n) (Direct c))
    ∧ length (trace_from remaining v var_index mode_id depth) = 2 * S n.
Proof.
  induction n as [|n IH]; intros v depth remaining t var c Hrem Hrun Hlk Hval;
    (destruct remaining as [|remaining]; [lia|]).
  - simpl in Hrun. injection Hrun as ->.
    destruct (analyzer_lookup t var Hlk) as [iv [Hiv <-]].
    cbn [trace_from]. rewrite Hiv, Hval, Nat.add_0_r.
    repeat split. cbn [orbit]. rewrite fmap_cons. unfold name_of at 1.
    by rewrite Hlk.
  - cbn [follow] in Hrun. cbn [orbit].
    destruct (alias_target idx mode_id v) as [y|] eqn:Hy; [|done].
    destruct (analyzer_alias v y Hy) as [iv [Hiv [Hname Halias]]].
    cbn [trace_from]. rewrite Hiv, Halias.
    destruct (IH y (S depth) remaining t var c ltac:(lia) Hrun Hlk Hval)
      as [Hnames [Hlast Hlen]].
    repeat split.
    + unfold var_names in *. cbn [omap list_omap].
      rewrite Hnames, (fmap_cons _ v). by rewrite Hname.
    + destruct (trace_from remaining y var_index mode_id (S depth))
        as [|e chain] eqn:Hchain; [done|].
      cbn [last] in *. rewrite Hlast. do 2 f_equal. lia.
    + cbn [length]. rewrite Hlen. lia.
Qed.

Lemma analyzer_follow_add (a b : nat) (x : string) :
  analyzer_follow var_index mode_id (a + b) x
  = analyzer_follow var_index mode_id a x
    ≫= analyzer_follow var_index mode_id b.
Proof.
  revert x. induction a as [|a IH]; intros x; simpl; [done|].
  destruct (analyzer_target var_index mode_id x); [apply IH|done].
Qed.

Lemma analyzer_tc_follow (x y : string) :
  tc (analyzer_step var_index mode_id) x y →
  ∃ n, analyzer_follow var_index mode_id (S n) x = Some y.
Proof.
  induction 1 as [x y Hxy|x y z Hxy _ [n IH]].
  - exists 0. simpl. unfold analyzer_step in Hxy. by rewrite Hxy.
  - exists (S n). simpl in *. unfold analyzer_step in Hxy. by rewrite Hxy.
Qed.

(** From a variable on a cycle every number of links can be followed. *)
Lemma analyzer_cycle_follow_all (v : string) :
  analyzer_cycle var_index mode_id v →
  ∀ k, is_Some (analyzer_follow var_index mode_id k v).
Proof.
  intros Hcycle. destruct (analyzer_tc_follow v v Hcycle) as [n Hn].
  assert (Hmult : ∀ q, analyzer_follow var_index mode_id (q * S n) v = Some v).
  { induction q as [|q IH]; [done|].
    replace (S q * S n) with (S n + q * S n) by lia.
    rewrite analyzer_follow_add, Hn. simpl. exact IH. }
  intros k.
  assert (Hall : is_Some (analyzer_follow var_index mode_id
                            (k + (S k * S n - k)) v)).
  { replace (k + (S k * S n - k)) with (S k * S n) by nia.
    rewrite Hmult. by eexists. }
  rewrite analyzer_follow_add in Hall.
  destruct (analyzer_follow var_index mode_id k v); [by eexists|].
  by destruct Hall.
Qed.

(** As long as links can be followed, each level adds the variable and
    its alias, and no value. *)
Lemma trace_from_links (remaining : nat) :
  ∀ v depth,
    is_Some (analyzer_follow var_index mode_id remaining v) →
    length (trace_from remaining v var_index mode_id depth) = 2 * remaining
    ∧ forallb (fun e => negb (is_value e))
              (trace_from remaining v var_index mode_id depth) = true.
Proof.
  induction remaining as [|remaining IH]; intros v depth Hsome; [done|].
  cbn [analyzer_follow] in Hsome. unfold analyzer_target in Hsome.
  cbn [trace_from].
  destruct (var_index !! v) as [iv|]; [|by destruct Hsome].
  destruct (Py.dict_get mode_id (valuesByMode (DeepTrace.iv_var iv)))
    as [[c|y| |ty]|]; try (by destruct Hsome).
  destruct (IH y (S depth) Hsome) as [Hlen Hnone].
  split; [cbn [length]; lia|]. simpl. exact Hnone.
Qed.

End Analyzer.

(** X24.  On one document the analyzer and the validator agree on every
    chain that resolves within the depth bound: when the validator
    resolves a variable to a colour along a path of at most [max_depth]
    names, [trace_alias_chain] lists the same names in the same order, two
    entries per variable, and ends on the entry that carries that
    colour. *)
Theorem analyzer_agrees_with_validator (data : document)
    (var_id mode_id : string) (c : color) (p : list string) (max_depth : nat) :
  AliasValidator.resolve (AliasValidator.variables_by_id data) var_id mode_id
  = (true, Some c, p) →
  length p ≤ max_depth →
  var_names (AnalyzeColors.trace_alias_chain var_id
               (AnalyzeColors.build_variable_index data) mode_id 0 max_depth)
  = p
  ∧ last (AnalyzeColors.trace_alias_chain var_id
            (AnalyzeColors.build_variable_index data) mode_id 0 max_depth)
    = Some (AnalyzeColors.Value (length p - 1) (Direct c))
  ∧ length (AnalyzeColors.trace_alias_chain var_id
              (AnalyzeColors.build_variable_index data) mode_id 0 max_depth)
    = 2 * length p.
Proof.
  rewrite <- analyze_index_variables. intros Hres Hlen.
  destruct (resolve_leads _ _ _ _ _ Hres) as [n [t [var [Hrun [Hlk [Hval ->]]]]]].
  rewrite length_fmap in *. cbn [length] in *.
  rewrite orbit_length in * by (rewrite Hrun; by eexists).
  unfold AnalyzeColors.trace_alias_chain. rewrite Nat.sub_0_r.
  destruct (trace_from_success (AnalyzeColors.build_variable_index data)
              mode_id n var_id 0 max_depth t var c ltac:(lia) Hrun Hlk Hval)
    as [Hnames [Hlast Hcount]].
  rewrite Hnames, Hlast, Hcount. repeat split. do 2 f_equal. lia.
Qed.

(** The brand variable resolves through the theme variable. *)
Lemma analyzer_agrees_with_validator_witness :
  var_names (AnalyzeColors.trace_alias_chain "VariableID:3:1"
               (AnalyzeColors.build_variable_index brand_document) "3:0" 0 10)
  = [name_of brand_index "VariableID:3:1"; "Jio/Surfaces/[Theme] Surface"]
  ∧ last (AnalyzeColors.trace_alias_chain "VariableID:3:1"
            (AnalyzeColors.build_variable_index brand_document) "3:0" 0 10)
    = Some (AnalyzeColors.Value
              (length [name_of brand_index "VariableID:3:1";
                       "Jio/Surfaces/[Theme] Surface"] - 1)
              (Direct mid_grey))
  ∧ length (AnalyzeColors.trace_alias_chain "VariableID:3:1"
              (AnalyzeColors.build_variable_index brand_document) "3:0" 0 10)
    = 2 * length [name_of brand_index "VariableID:3:1";
                  "Jio/Surfaces/[Theme] Surface"].
Proof.
  apply (analyzer_agrees_with_validator brand_document "VariableID:3:1" "3:0"
           mid_grey).
  - by vm_compute.
  - simpl. lia.
Defined.

(** X25.  The analyzer has no cycle detection: from a variable on a cycle
    of the alias links it follows (every alias of an indexed variable,
    whatever the target id looks like) [trace_alias_chain] runs to the
    depth bound, returns exactly two entries per level ([2 * max_depth],
    twenty by default) and no entry that carries a value. *)
Theorem analyzer_runs_cycles_to_the_bound
    (var_index : gmap string DeepTrace.indexed_variable)
    (var_id mode_id : string) (max_depth : nat) :
  analyzer_cycle var_index mode_id var_id →
  length (AnalyzeColors.trace_alias_chain var_id var_index mode_id 0 max_depth)
  = 2 * max_depth
  ∧ forallb (fun e => negb (is_value e))
      (AnalyzeColors.trace_alias_chain var_id var_index mode_id 0 max_depth)
    = true.
Proof.
  intros Hcycle.
  unfold AnalyzeColors.trace_alias_chain. rewrite Nat.sub_0_r.
  apply trace_from_links. by apply analyzer_cycle_follow_all.
Qed.

(** Two variables that alias each other through ids with a ['/']. *)
Lemma analyzer_runs_cycles_to_the_bound_witness :
  length (AnalyzeColors.trace_alias_chain "VariableID:abc/8:1"
            (AnalyzeColors.build_variable_index remote_pair) "8:0" 0 10)
  = 2 * 10
  ∧ forallb (fun e => negb (is_value e))
      (AnalyzeColors.trace_alias_chain "VariableID:abc/8:1"
         (AnalyzeColors.build_variable_index remote_pair) "8:0" 0 10)
    = true.
Proof.
  apply (analyzer_runs_cycles_to_the_bound
           (AnalyzeColors.build_variable_index remote_pair)
           "VariableID:abc/8:1" "8:0" 10).
  apply (tc_l _ _ "VariableID:abc/8:2").
  - vm_compute. reflexivity.
  - apply tc_once. vm_compute. reflexivity.
Defined.

(** * Deep chains and the interpreter's stack *)

Section Frames.
Import AliasValidator.

Variable idx : gmap string variable.
Variable mode_id : string.

(** A chain of [n] distinct alias links uses up [n] frames before it can
    return anything. *)
Lemma chain_exhausts_frames (frames : nat) :
  ∀ n v t (visited : gset string),
    follow idx mode_id n v = Some t →
    NoDup (v :: orbit idx mode_id n v) →
    (∀ x, x ∈ v :: orbit idx mode_id n v → x ∉ visited) →
    frames ≤ n →
    resolve_alias_chain frames idx v mode_id visited = None.
Proof.
  induction frames as [|frames IH]; intros n v t visited Hrun Hnd Hfresh Hle;
    [done|].
  destruct n as [|n]; [lia|].
  cbn [follow] in Hrun. cbn [orbit] in Hnd, Hfresh.
  destruct (alias_target idx mode_id v) as [y|] eqn:Hy; [|done].
  apply NoDup_cons in Hnd. destruct Hnd as [Hv Hnd].
  rewrite (resolve_alias_link idx mode_id v y visited frames Hy)
    by (apply Hfresh; apply list_elem_of_here).
  rewrite (IH n y t ({[v]} ∪ visited) Hrun Hnd); [done| |lia].
  intros x Hx. apply not_elem_of_union. split.
  - apply not_elem_of_singleton. by intros ->.
  - apply Hfresh. by apply list_elem_of_further.
Qed.

(** With one frame more than it has links, a chain that ends on a colour
    returns it. *)
Lemma chain_returns_with_frames (n : nat) :
  ∀ v t var c (visited : gset string) frames,
    follow idx mode_id n v = Some t → idx !! t = Some var →
    Py.dict_get mode_id (valuesByMode var) = Some (Direct c) →
    NoDup (v :: orbit idx mode_id n v) →
    (∀ x, x ∈ v :: orbit idx mode_id n v → x ∉ visited) →
    n < frames →
    fst <$> resolve_alias_chain frames idx v mode_id visited
    = Some (true, Some c, name_of idx <$> (v :: orbit idx mode_id n v)).
Proof.
  induction n as [|n IH];
    intros v t var c visited frames Hrun Hlk Hval Hnd Hfresh Hlt;
    (destruct frames as [|frames]; [lia|]).
  - simpl in Hrun. injection Hrun as ->.
    cbn [resolve_alias_chain orbit].
    rewrite decide_False by (apply Hfresh; apply list_elem_of_here).
    rewrite Hlk, Hval. simpl. unfold name_of. by rewrite Hlk.
  - cbn [follow] in Hrun. cbn [orbit] in Hnd, Hfresh. cbn [orbit].
    destruct (alias_target idx mode_id v) as [y|] eqn:Hy; [|done].
    apply NoDup_cons in Hnd. destruct Hnd as [Hv Hnd].
    rewrite (resolve_alias_link idx mode_id v y visited frames Hy)
      by (apply Hfresh; apply list_elem_of_here).
    assert (Hfresh' : ∀ x, x ∈ y :: orbit idx mode_id n y →
                           x ∉ ({[v]} ∪ visited : gset string)).
    { intros x Hx. apply not_elem_of_union. split.
      - apply not_elem_of_singleton. by intros ->.
      - apply Hfresh. by apply list_elem_of_further. }
    pose proof (IH y t var c ({[v]} ∪ visited) frames Hrun Hlk Hval Hnd
                  Hfresh' ltac:(lia)) as Hrec.
    destruct (resolve_alias_chain frames idx y mode_id ({[v]} ∪ visited))
      as [[[[s fv] sub] vis]|]; [|done].
    simpl in Hrec. injection Hrec as -> -> ->. by rewrite (fmap_cons _ v).
Qed.

Lemma resolve_within_returned (frames : nat) (v : string) (res : chain_result) :
  fst <$> resolve_alias_chain frames idx v mode_id ∅ = Some res →
  resolve_within frames idx v mode_id = Returned res.
Proof.
  unfold resolve_within.
  destruct (resolve_alias_chain frames idx v mode_id ∅) as [[r vis]|];
    [|done].
  simpl. by intros [= ->].
Qed.

Lemma resolve_within_raises (frames : nat) (v : string) :
  resolve_alias_chain frames idx v mode_id ∅ = None →
  resolve_within frames idx v mode_id = RecursionError.
Proof. unfold resolve_within. by intros ->. Qed.

End Frames.

(** C1, as the code has it.  From the empty visited set
    [resolve_alias_chain] never runs on: it makes at most one call per
    indexed variable and one more, so with more frames to spare than the
    index has variables it returns a result, the same for every such
    number of frames, cyclic graph or not; and the visited-set test comes
    first, a call on a visited id answering [CIRCULAR] whatever the index
    holds for it.  But a result is not always returned: the recursion has
    no depth limit of its own, and a chain of [n] distinct alias links
    raises [RecursionError] unless more than [n] frames are left, [n + 1]
    being enough when the chain ends on a colour. *)
Theorem resolve_alias_chain_depth_bounded
    (idx : gmap string variable) (variable_id mode_id : string) :
  (∃ res, ∀ frames, size idx < frames →
     AliasValidator.resolve_within frames idx variable_id mode_id
     = AliasValidator.Returned res)
  ∧ (∀ frames (idx' : gmap string variable) (visited : gset string),
       variable_id ∈ visited →
       AliasValidator.resolve_alias_chain (S frames) idx' variable_id mode_id
         visited
       = Some ((false, None, ["CIRCULAR: " +:+ variable_id]), visited))
  ∧ (∀ n t,
       follow idx mode_id n variable_id = Some t →
       NoDup (variable_id :: orbit idx mode_id n variable_id) →
       (∀ frames, frames ≤ n →
          AliasValidator.resolve_within frames idx variable_id mode_id
          = AliasValidator.RecursionError)
       ∧ (∀ var c,
            idx !! t = Some var →
            Py.dict_get mode_id (valuesByMode var) = Some (Direct c) →
            ∀ frames, n < frames →
              AliasValidator.resolve_within frames idx variable_id mode_id
              = AliasValidator.Returned
                  (true, Some c,
                   name_of idx <$> (variable_id
                                    :: orbit idx mode_id n variable_id)))).
Proof.
  split; [|split].
  - destruct (resolve_fuel_enough idx mode_id (size idx) variable_id ∅)
      as [[res vis] Hout].
    { apply size_dom_difference_le. }
    exists res. intros frames Hf. unfold AliasValidator.resolve_within.
    by rewrite (Hout frames Hf).
  - intros frames idx' visited Hin. simpl. by rewrite decide_True.
  - intros n t Hrun Hnd.
    assert (Hfresh : ∀ x, x ∈ variable_id :: orbit idx mode_id n variable_id →
                          x ∉ (∅ : gset string)).
    { intros x _. apply not_elem_of_empty. }
    split.
    + intros frames Hle. unfold AliasValidator.resolve_within.
      by rewrite (chain_exhausts_frames idx mode_id frames n variable_id t ∅).
    + intros var c Hlk Hval frames Hlt. unfold AliasValidator.resolve_within.
      pose proof (chain_returns_with_frames idx mode_id n variable_id t var c ∅
                    frames Hrun Hlk Hval Hnd Hfresh Hlt) as Hres.
      destruct (AliasValidator.resolve_alias_chain frames idx variable_id
                  mode_id ∅) as [[res vis]|]; [|done].
      simpl in Hres. by injection Hres as ->.
Qed.

(** ** A chain of a thousand links *)

Lemma tally_inj (i j : nat) : tally i = tally j → i = j.
Proof.
  revert j. induction i as [|i IH]; intros [|j]; simpl; try done.
  intros [= H]. f_equal. by apply IH.
Qed.

Lemma chain_id_local (i : nat) : Py.contains "/" (chain_id i) = false.
Proof.
  unfold chain_id. cbn [Py.contains]. simpl String.prefix. cbn [orb].
  induction i as [|i IH]; [done|].
  cbn [tally Py.contains]. simpl String.prefix. cbn [orb]. exact IH.
Qed.

Lemma chain_ids_NoDup (i k : nat) : NoDup (map chain_id (seq i k)).
Proof.
  assert (Hinj : Inj (=) (=) chain_id).
  { intros a b [= H]. by apply tally_inj. }
  apply (NoDup_fmap_2 chain_id). apply NoDup_seq.
Qed.

Section Chain.

Variable n : nat.

Lemma chain_lookup (i : nat) :
  i ≤ n → chain_index n !! chain_id i = Some (chain_variable n i).
Proof.
  intros Hi. unfold chain_index. rewrite variables_by_id_fold.
  unfold all_variables, chain_document. cbn [collections flat_map variables].
  rewrite app_nil_r.
  refine (index_fold_unique _ _ (chain_variable n i) _).
  - rewrite map_map. apply (chain_ids_NoDup 0 (S n)).
  - apply list_elem_of_In, in_map, in_seq. lia.
Qed.

Lemma chain_alias (i : nat) :
  i < n → alias_target (chain_index n) "9:0" (chain_id i) = Some (chain_id (S i)).
Proof.
  intros Hi. unfold alias_target. rewrite chain_lookup by lia.
  unfold chain_variable. cbn [valuesByMode Py.dict_get].
  replace (i <? n) with true by (symmetry; by apply Nat.ltb_lt).
  change (String.eqb "9:0" "9:0") with true. cbn iota.
  by rewrite chain_id_local.
Qed.

Lemma chain_follow (k : nat) :
  ∀ i, i + k ≤ n →
    follow (chain_index n) "9:0" k (chain_id i) = Some (chain_id (i + k))
    ∧ orbit (chain_index n) "9:0" k (chain_id i) = map chain_id (seq (S i) k).
Proof.
  induction k as [|k IH]; intros i Hi.
  - by rewrite Nat.add_0_r.
  - cbn [follow orbit]. rewrite chain_alias by lia.
    destruct (IH (S i) ltac:(lia)) as [-> ->].
    replace (S i + k) with (i + S k) by lia. done.
Qed.

End Chain.

(** The claim that a result is always returned fails on an acyclic chain
    of a thousand alias links: with the whole default recursion limit to
    spare the resolver raises [RecursionError], although the chain ends on
    a colour, which one more frame would have returned. *)
Lemma deep_chain_raises_recursion_error :
  AliasValidator.resolve_within AliasValidator.recursion_limit
    (chain_index 1000) (chain_id 0) "9:0"
  = AliasValidator.RecursionError
  ∧ ∃ p, AliasValidator.resolve_within (S AliasValidator.recursion_limit)
           (chain_index 1000) (chain_id 0) "9:0"
         = AliasValidator.Returned (true, Some mid_grey, p).
Proof.
  destruct (chain_follow 1000 1000 0 (le_n 1000)) as [Hrun Horbit].
  change (0 + 1000) with 1000 in Hrun.
  assert (Hnd : NoDup (chain_id 0
                       :: orbit (chain_index 1000) "9:0" 1000 (chain_id 0))).
  { rewrite Horbit. apply (chain_ids_NoDup 0 1001). }
  assert (Hfresh : ∀ x, x ∈ chain_id 0
                              :: orbit (chain_index 1000) "9:0" 1000 (chain_id 0) →
                        x ∉ (∅ : gset string)).
  { intros x _. apply not_elem_of_empty. }
  split.
  - apply resolve_within_raises.
    exact (chain_exhausts_frames (chain_index 1000) "9:0"
             AliasValidator.recursion_limit 1000 (chain_id 0) (chain_id 1000) ∅
             Hrun Hnd Hfresh (le_n 1000)).
  - exists (name_of (chain_index 1000)
              <$> chain_id 0 :: orbit (chain_index 1000) "9:0" 1000 (chain_id 0)).
    apply resolve_within_returned.
    exact (chain_returns_with_frames (chain_index 1000) "9:0" 1000
             (chain_id 0) (chain_id 1000) (chain_variable 1000 1000)
             mid_grey ∅ (S AliasValidator.recursion_limit) Hrun
             (chain_lookup 1000 1000 (le_n 1000)) eq_refl Hnd Hfresh
             (le_n 1001)).
Qed.
